(** * Evoex: structured action protocol and self-correcting execution engine

    A shallow embedding of the parts of the Excel add-in that turn a free-text
    agent reply into document mutations:

    - [AzureOpenAIService.parseStructuredResponse] and [tryParseJson]
      (src/src/services/webSearchService.ts),
    - [ExcelService.checkRangeForData], [findEmptyRangeForData],
      [executeSingleAction], [executeActions] and [validateWriteAction]
      (the Excel service),
    - [acceptAllActions], [requestErrorCorrection], [requestResultCorrection]
      and [verifyFormulaResults] (src/src/taskpane/taskpane.ts).

    Conventions.  A JavaScript string is a Rocq [string] that holds its
    UTF-8 bytes; string literals of the source are copied as they are.  The
    white space of [trim] and of the class [\s] is ECMAScript's, each
    character as the bytes that encode it.  JavaScript exceptions are
    explicit: fallible code lives in [Exc] or in the [Excel] monad, and every
    try/catch of the source is a [tryCatch] here. *)

From Stdlib Require Import List String Ascii Bool Arith Lia ZArith.
From Stdlib Require Import DecimalString DecimalNat.
Import ListNotations.
Open Scope string_scope.
Open Scope list_scope.
Open Scope nat_scope.

Set Implicit Arguments.

(** ** Exceptions *)

Module Js.

(** A thrown value: an [Error] object with its [message], or anything else. *)
Inductive Thrown : Type :=
| ErrorObj (message : string)
| NonError.

Inductive Exc (A : Type) : Type :=
| Ok (a : A)
| Throw (t : Thrown).

Arguments Ok {A} a.
Arguments Throw {A} t.

Definition bind {A B} (m : Exc A) (f : A -> Exc B) : Exc B :=
  match m with
  | Ok a => f a
  | Throw t => Throw t
  end.

(** [try { m } catch (e) { h e }] *)
Definition tryCatch {A} (m : Exc A) (h : Thrown -> Exc A) : Exc A :=
  match m with
  | Ok a => Ok a
  | Throw t => h t
  end.

(** [error instanceof Error ? error.message : dflt] *)
Definition messageOr (dflt : string) (t : Thrown) : string :=
  match t with
  | ErrorObj m => m
  | NonError => dflt
  end.

(** *** String methods *)

(** UTF-8 bytes of a character of the Basic Multilingual Plane. *)
Definition utf8Bytes (n : N) : string :=
  if (n <? 128)%N then String (ascii_of_N n) EmptyString
  else if (n <? 2048)%N then
    String (ascii_of_N (192 + n / 64)) (String (ascii_of_N (128 + n mod 64)) EmptyString)
  else
    String (ascii_of_N (224 + n / 4096))
      (String (ascii_of_N (128 + (n / 64) mod 64))
         (String (ascii_of_N (128 + n mod 64)) EmptyString)).

(** [WhiteSpace] and [LineTerminator] of ECMAScript, which [trim] strips
    and the class [\s] matches: TAB, LF, VT, FF, CR, SP, U+00A0, U+1680,
    U+2000 to U+200A, U+2028, U+2029, U+202F, U+205F, U+3000 and U+FEFF. *)
Definition whiteSpaceCodePoints : list N :=
  [9; 10; 11; 12; 13; 32; 160; 5760;
   8192; 8193; 8194; 8195; 8196; 8197; 8198; 8199; 8200; 8201; 8202;
   8232; 8233; 8239; 8287; 12288; 65279]%N.

Definition whiteSpace : list string := map utf8Bytes whiteSpaceCodePoints.

(** The bytes are one white-space character. *)
Definition isWhiteSpaceChar (w : string) : bool := existsb (String.eqb w) whiteSpace.

(** A white-space character of one byte. *)
Definition isWhiteSpace (c : ascii) : bool :=
  let n := nat_of_ascii c in
  ((9 <=? n) && (n <=? 13)) || (n =? 32).

(** A white-space character takes one, two or three bytes. *)
Fixpoint trimStart (s : string) : string :=
  match s with
  | EmptyString => EmptyString
  | String a s1 =>
      if isWhiteSpaceChar (String a EmptyString) then trimStart s1
      else
        match s1 with
        | EmptyString => s
        | String b s2 =>
            if isWhiteSpaceChar (String a (String b EmptyString)) then trimStart s2
            else
              match s2 with
              | EmptyString => s
              | String c s3 =>
                  if isWhiteSpaceChar (String a (String b (String c EmptyString)))
                  then trimStart s3
                  else s
              end
        end
  end.

(** The string without its trailing white space: it ends where nothing
    but white space follows. *)
Fixpoint trimEnd (s : string) : string :=
  match s with
  | EmptyString => EmptyString
  | String c s' =>
      match trimStart s with
      | EmptyString => EmptyString
      | _ => String c (trimEnd s')
      end
  end.

Definition trim (s : string) : string := trimEnd (trimStart s).

Definition startsWith (s p : string) : bool := prefix p s.

Fixpoint rev_string (s acc : string) : string :=
  match s with
  | EmptyString => acc
  | String c s' => rev_string s' (String c acc)
  end.

Definition endsWith (s p : string) : bool :=
  prefix (rev_string p EmptyString) (rev_string s EmptyString).

(** [s.includes(p)] *)
Definition includes (s p : string) : bool :=
  match index 0 p s with
  | Some _ => true
  | None => false
  end.

(** [s.indexOf(p)]: [Some i] for the first occurrence, [None] for the
    miss the source reads as [-1]. *)
Definition indexOf (s p : string) : option nat := index 0 p s.

(** [s.substring(a, b)] for [a <= b]. *)
Definition substringJs (s : string) (a b : nat) : string := substring a (b - a) s.

(** [x || dflt] on strings: the empty string is falsy. *)
Definition orString (x dflt : string) : string :=
  match x with
  | EmptyString => dflt
  | _ => x
  end.

(** [s.split(":")[0]] *)
Fixpoint beforeColon (s : string) : string :=
  match s with
  | EmptyString => EmptyString
  | String c s' => if Ascii.eqb c ":" then EmptyString else String c (beforeColon s')
  end.

(** Decimal rendering of a natural number in a template literal. *)
Definition showNat (n : nat) : string := NilEmpty.string_of_uint (Nat.to_uint n).

End Js.

Import Js.

Declare Scope exc_scope.
Delimit Scope exc_scope with exc.
Notation "x <- m ;; k" := (Js.bind m (fun x => k))
  (at level 61, m at next level, right associativity) : exc_scope.

(** ** Regular expressions

    A backtracking matcher with the semantics of ECMAScript's [RegExp] for the
    constructs the parser's patterns use: single bytes, sequence,
    alternatives, greedy and lazy repetition (an iteration that consumes nothing is refused, as
    RepeatMatcher does) and one capture group. *)

Module Regex.

Inductive re : Type :=
| Chr (p : ascii -> bool)
| Seq (a b : re)
| Alt (a b : re)
| Star (greedy : bool) (a : re)
| Group (a : re).

Section Matcher.
Variable R : Type.

(** A matcher: the text ahead, the capture so far and the continuation. *)
Definition Matcher : Type :=
  string -> option string -> (string -> option string -> option R) -> option R.

(** Repetition of [ma]: at most [n] more iterations, each consuming at
    least one character; the greedy form tries one more iteration before
    the continuation, the lazy form after it. *)
Fixpoint starLoop (ma : Matcher) (greedy : bool) (k : string -> option string -> option R)
    (n : nat) (s : string) (cap : option string) {struct n} : option R :=
  match n with
  | 0 => k s cap
  | S n' =>
      if greedy then
        match ma s cap (fun s' cap' =>
                if length s' <? length s then starLoop ma greedy k n' s' cap' else None) with
        | Some x => Some x
        | None => k s cap
        end
      else
        match k s cap with
        | Some x => Some x
        | None => ma s cap (fun s' cap' =>
                    if length s' <? length s then starLoop ma greedy k n' s' cap' else None)
        end
  end.

(** [mt r s cap k]: match [r] at the front of [s], then continue with [k] on
    the rest; [cap] is the text of the capture group so far. *)
Fixpoint mt (r : re) : Matcher :=
  match r with
  | Chr p => fun s cap k =>
      match s with
      | String c s' => if p c then k s' cap else None
      | EmptyString => None
      end
  | Seq a b => fun s cap k => mt a s cap (fun s' cap' => mt b s' cap' k)
  | Alt a b => fun s cap k =>
      match mt a s cap k with
      | Some x => Some x
      | None => mt b s cap k
      end
  | Star greedy a => fun s cap k => starLoop (mt a) greedy k (length s) s cap
  | Group a => fun s cap k =>
      mt a s cap (fun s' _ => k s' (Some (substring 0 (length s - length s') s)))
  end.

End Matcher.

(** The array [String.prototype.match] returns for a pattern without the
    [g] flag: the matched text, its index and the first group. *)
Record Match : Type := {
  whole : string;
  at_index : nat;
  group1 : option string
}.

Definition matchHere (r : re) (s : string) (pos : nat) : option Match :=
  mt r s None (fun s' cap =>
    Some {| whole := substring 0 (length s - length s') s;
            at_index := pos;
            group1 := cap |}).

(** Leftmost match: every start position is tried in order. *)
Fixpoint searchFrom (r : re) (s : string) (pos : nat) : option Match :=
  match matchHere r s pos with
  | Some m => Some m
  | None =>
      match s with
      | EmptyString => None
      | String _ s' => searchFrom r s' (S pos)
      end
  end.

(** [s.match(r)] *)
Definition search (r : re) (s : string) : option Match := searchFrom r s 0.

(** *** Pattern constructors *)

Definition char (c : ascii) : re := Chr (Ascii.eqb c).
Definition any : re := Chr (fun _ => true).                 (* [\s\S] *)
Definition noneOf (cs : list ascii) : re :=
  Chr (fun c => negb (existsb (Ascii.eqb c) cs)).          (* [^...] *)
Definition star (a : re) : re := Star true a.              (* a* *)
Definition lazy (a : re) : re := Star false a.              (* a*? *)
Definition plus (a : re) : re := Seq a (Star true a).       (* a+ *)

(** A literal with at least one character. *)
Fixpoint lit_after (c : ascii) (s : string) : re :=
  match s with
  | EmptyString => char c
  | String d s' => Seq (char c) (lit_after d s')
  end.

Definition lit (s : string) : re :=
  match s with
  | String c s' => lit_after c s'
  | EmptyString => Star true (Chr (fun _ => false))
  end.

Fixpoint seqs (rs : list re) : re :=
  match rs with
  | [] => Star true (Chr (fun _ => false))
  | [r] => r
  | r :: rs' => Seq r (seqs rs')
  end.

Fixpoint alts (rs : list re) : re :=
  match rs with
  | [] => Chr (fun _ => false)
  | [r] => r
  | r :: rs' => Alt r (alts rs')
  end.

(** [\s]: one white-space character, whatever bytes encode it. *)
Definition ws : re := alts (map lit whiteSpace).

End Regex.

(** ** JSON values *)

Module Json.

(** The value [JSON.parse] builds.  A number keeps its lexeme; an object
    keeps its members in source order (the last binding of a key wins). *)
#[warnings="-register-all"] Inductive Json : Type :=
| JNull
| JBool (b : bool)
| JNum (lexeme : string)
| JStr (s : string)
| JArr (items : list Json)
| JObj (members : list (string * Json)).

Fixpoint lookupLast (k : string) (members : list (string * Json)) : option Json :=
  match members with
  | [] => None
  | (k', v) :: rest =>
      match lookupLast k rest with
      | Some v' => Some v'
      | None => if String.eqb k k' then Some v else None
      end
  end.

(** [v.k] for one of the keys the parser reads ([message], [actions],
    [thinking]): a TypeError on [null], [undefined] ([None]) when absent. *)
Definition getProp (v : Json) (k : string) : Exc (option Json) :=
  match v with
  | JNull => Throw (ErrorObj "Cannot read properties of null")
  | JObj members => Ok (lookupLast k members)
  | _ => Ok None
  end.

(** A number lexeme denotes zero when its mantissa has no non-zero digit. *)
Fixpoint zeroMantissa (s : string) : bool :=
  match s with
  | EmptyString => true
  | String c s' =>
      if Ascii.eqb c "e" || Ascii.eqb c "E" then true
      else if Ascii.eqb c "-" || Ascii.eqb c "." || Ascii.eqb c "0" then zeroMantissa s'
      else false
  end.

(** ToBoolean on the result of a property read. *)
Definition truthy (v : option Json) : bool :=
  match v with
  | None => false
  | Some JNull => false
  | Some (JBool b) => b
  | Some (JNum lexeme) => negb (zeroMantissa lexeme)
  | Some (JStr s) => negb (String.eqb s EmptyString)
  | Some (JArr _) => true
  | Some (JObj _) => true
  end.

(** [typeof v === "string"] *)
Definition isString (v : option Json) : bool :=
  match v with
  | Some (JStr _) => true
  | _ => false
  end.

End Json.

Import Json.

(** ** A reader of JSON text

    The parser below takes [JSON.parse] as a parameter; [JsonText.parse] is a
    recursive-descent reader of the JSON grammar used to run the parser on
    concrete replies. *)

Module JsonText.

Definition dquote : ascii := ascii_of_nat 34.
Definition backslash : ascii := ascii_of_nat 92.

(** Writes a JSON text with ' for the double quote. *)
Fixpoint q (s : string) : string :=
  match s with
  | EmptyString => EmptyString
  | String c s' => String (if Ascii.eqb c "'" then dquote else c) (q s')
  end.

Definition isJsonWs (c : ascii) : bool :=
  let n := nat_of_ascii c in
  (n =? 32) || (n =? 9) || (n =? 10) || (n =? 13).

Fixpoint skipWs (s : string) : string :=
  match s with
  | String c s' => if isJsonWs c then skipWs s' else s
  | EmptyString => EmptyString
  end.

Definition isDigit (c : ascii) : bool :=
  let n := nat_of_ascii c in (48 <=? n) && (n <=? 57).

Definition hexVal (c : ascii) : option nat :=
  let n := nat_of_ascii c in
  if (48 <=? n) && (n <=? 57) then Some (n - 48)
  else if (65 <=? n) && (n <=? 70) then Some (n - 55)
  else if (97 <=? n) && (n <=? 102) then Some (n - 87)
  else None.

(** UTF-8 bytes of a code unit of the Basic Multilingual Plane. *)
Definition utf8 (n : nat) : string :=
  if n <? 128 then String (ascii_of_nat n) EmptyString
  else if n <? 2048 then
    String (ascii_of_nat (192 + n / 64)) (String (ascii_of_nat (128 + n mod 64)) EmptyString)
  else
    String (ascii_of_nat (224 + n / 4096))
      (String (ascii_of_nat (128 + (n / 64) mod 64))
         (String (ascii_of_nat (128 + n mod 64)) EmptyString)).

(** The characters of a string literal after its opening quote. *)
Fixpoint stringBody (s : string) : option (string * string) :=
  match s with
  | EmptyString => None
  | String c s' =>
      if Ascii.eqb c dquote then Some (EmptyString, s')
      else if Ascii.eqb c backslash then
        match s' with
        | EmptyString => None
        | String e s'' =>
            let keep (d : string) :=
              match stringBody s'' with
              | Some (body, rest) => Some ((d ++ body)%string, rest)
              | None => None
              end in
            if Ascii.eqb e dquote then keep (String dquote EmptyString)
            else if Ascii.eqb e backslash then keep (String backslash EmptyString)
            else if Ascii.eqb e "/" then keep "/"
            else if Ascii.eqb e "b" then keep (String (ascii_of_nat 8) EmptyString)
            else if Ascii.eqb e "f" then keep (String (ascii_of_nat 12) EmptyString)
            else if Ascii.eqb e "n" then keep (String (ascii_of_nat 10) EmptyString)
            else if Ascii.eqb e "r" then keep (String (ascii_of_nat 13) EmptyString)
            else if Ascii.eqb e "t" then keep (String (ascii_of_nat 9) EmptyString)
            else if Ascii.eqb e "u" then
              match s'' with
              | String h1 (String h2 (String h3 (String h4 s4))) =>
                  match hexVal h1, hexVal h2, hexVal h3, hexVal h4 with
                  | Some a, Some b, Some c', Some d =>
                      match stringBody s4 with
                      | Some (body, rest) =>
                          Some ((utf8 (((a * 16 + b) * 16 + c') * 16 + d) ++ body)%string, rest)
                      | None => None
                      end
                  | _, _, _, _ => None
                  end
              | _ => None
              end
            else None
        end
      else if nat_of_ascii c <? 32 then None
      else
        match stringBody s' with
        | Some (body, rest) => Some (String c body, rest)
        | None => None
        end
  end.

Fixpoint digits (s : string) : string * string :=
  match s with
  | String c s' =>
      if isDigit c then let (d, rest) := digits s' in (String c d, rest)
      else (EmptyString, s)
  | EmptyString => (EmptyString, EmptyString)
  end.

(** A number lexeme: an optional minus sign, an integer part without a
    leading zero, an optional fraction and an optional exponent. *)
Definition number (s : string) : option (string * string) :=
  let (sign, s1) :=
    match s with
    | String c s' => if Ascii.eqb c "-" then ("-", s') else (EmptyString, s)
    | EmptyString => (EmptyString, s)
    end in
  let (int, s2) := digits s1 in
  let intOk :=
    match int with
    | EmptyString => false
    | String c EmptyString => true
    | String c _ => negb (Ascii.eqb c "0")
    end in
  if negb intOk then None
  else
    let fracPart :=
      match s2 with
      | String c s' =>
          if Ascii.eqb c "." then
            let (f, s3) := digits s' in
            match f with
            | EmptyString => None
            | _ => Some (("." ++ f)%string, s3)
            end
          else Some (EmptyString, s2)
      | EmptyString => Some (EmptyString, s2)
      end in
    match fracPart with
    | None => None
    | Some (frac, s3) =>
        let expPart :=
          match s3 with
          | String c s' =>
              if Ascii.eqb c "e" || Ascii.eqb c "E" then
                let (esign, s4) :=
                  match s' with
                  | String d s'' =>
                      if Ascii.eqb d "+" || Ascii.eqb d "-"
                      then (String d EmptyString, s'') else (EmptyString, s')
                  | EmptyString => (EmptyString, s')
                  end in
                let (e, s5) := digits s4 in
                match e with
                | EmptyString => None
                | _ => Some (String c (esign ++ e)%string, s5)
                end
              else Some (EmptyString, s3)
          | EmptyString => Some (EmptyString, s3)
          end in
        match expPart with
        | None => None
        | Some (ex, s5) => Some ((sign ++ int ++ frac ++ ex)%string, s5)
        end
    end.

Definition keyword (w : string) (v : Json) (s : string) : option (Json * string) :=
  if prefix w s then Some (v, substring (length w) (length s - length w) s) else None.

Fixpoint value (fuel : nat) (s : string) : option (Json * string) :=
  match fuel with
  | 0 => None
  | S fuel' =>
      match skipWs s with
      | EmptyString => None
      | String c s' =>
          if Ascii.eqb c "{" then
            match skipWs s' with
            | String d s'' =>
                if Ascii.eqb d "}" then Some (JObj [], s'')
                else
                  match members fuel' (skipWs s') with
                  | Some (ms, rest) => Some (JObj ms, rest)
                  | None => None
                  end
            | EmptyString => None
            end
          else if Ascii.eqb c "[" then
            match skipWs s' with
            | String d s'' =>
                if Ascii.eqb d "]" then Some (JArr [], s'')
                else
                  match elements fuel' s' with
                  | Some (vs, rest) => Some (JArr vs, rest)
                  | None => None
                  end
            | EmptyString => None
            end
          else if Ascii.eqb c dquote then
            match stringBody s' with
            | Some (str, rest) => Some (JStr str, rest)
            | None => None
            end
          else if Ascii.eqb c "t" then keyword "true" (JBool true) (String c s')
          else if Ascii.eqb c "f" then keyword "false" (JBool false) (String c s')
          else if Ascii.eqb c "n" then keyword "null" JNull (String c s')
          else
            match number (String c s') with
            | Some (lexeme, rest) => Some (JNum lexeme, rest)
            | None => None
            end
      end
  end
with elements (fuel : nat) (s : string) : option (list Json * string) :=
  match fuel with
  | 0 => None
  | S fuel' =>
      match value fuel' s with
      | None => None
      | Some (v, rest) =>
          match skipWs rest with
          | String c rest' =>
              if Ascii.eqb c "]" then Some ([v], rest')
              else if Ascii.eqb c "," then
                match elements fuel' rest' with
                | Some (vs, rest'') => Some (v :: vs, rest'')
                | None => None
                end
              else None
          | EmptyString => None
          end
      end
  end
with members (fuel : nat) (s : string) : option (list (string * Json) * string) :=
  match fuel with
  | 0 => None
  | S fuel' =>
      match skipWs s with
      | String c s' =>
          if Ascii.eqb c dquote then
            match stringBody s' with
            | None => None
            | Some (key, rest) =>
                match skipWs rest with
                | String d rest' =>
                    if Ascii.eqb d ":" then
                      match value fuel' rest' with
                      | None => None
                      | Some (v, rest'') =>
                          match skipWs rest'' with
                          | String e rest3 =>
                              if Ascii.eqb e "}" then Some ([(key, v)], rest3)
                              else if Ascii.eqb e "," then
                                match members fuel' rest3 with
                                | Some (ms, rest4) => Some ((key, v) :: ms, rest4)
                                | None => None
                                end
                              else None
                          | EmptyString => None
                          end
                      end
                    else None
                | EmptyString => None
                end
            end
          else None
      | EmptyString => None
      end
  end.

(** [JSON.parse]: one value, white space around it, nothing else; a
    SyntaxError otherwise. *)
Definition parse (s : string) : Exc Json :=
  match value (2 * length s + 2) s with
  | Some (v, rest) =>
      match skipWs rest with
      | EmptyString => Ok v
      | _ => Throw (ErrorObj "SyntaxError")
      end
  | None => Throw (ErrorObj "SyntaxError")
  end.

End JsonText.

(** ** The response parser (webSearchService.ts) *)

Module Parser.

Import Regex.

(** [StructuredResponse]: [actions] holds the raw parsed values. *)
Record StructuredResponse : Type := {
  message : string;
  actions : option (list Json);
  thinking : option Json
}.

(** The five patterns of [parseStructuredResponse], in source order; in
    the comments ' stands for the double quote. *)

(* /```json\s*([\s\S]*?)\s*```/ *)
Definition jsonBlockRe : re :=
  seqs [lit "```json"; star ws; Group (lazy any); star ws; lit "```"].

(* /```\s*([\s\S]*?)\s*```/ *)
Definition codeBlockRe : re :=
  seqs [lit "```"; star ws; Group (lazy any); star ws; lit "```"].

(* /\{[^{}]*'type'\s*:\s*'calc'[^{}]*\}/ *)
Definition jsonCalcRe : re :=
  seqs [char "{"; star (noneOf ["{"; "}"]%char); lit (JsonText.q "'type'"); star ws;
        char ":"; star ws; lit (JsonText.q "'calc'"); star (noneOf ["{"; "}"]%char);
        char "}"].

(* /\{[\s\S]*'message'[\s\S]*'actions'[\s\S]*\}/ *)
Definition jsonObjectRe : re :=
  seqs [char "{"; star any; lit (JsonText.q "'message'"); star any;
        lit (JsonText.q "'actions'"); star any; char "}"].

(* /\{'type'\s*:\s*'[^']+'/ *)
Definition actionRe : re :=
  seqs [lit (JsonText.q "{'type'"); star ws; char ":"; star ws; char JsonText.dquote;
        plus (noneOf [JsonText.dquote]); char JsonText.dquote].

(** The brace-counting loop of strategy 5, run over the text from
    [startIdx] on; [None] when the loop ends without a [break]. *)
Fixpoint braceScan (s : string) (i : nat) (braceCount : Z) : option nat :=
  match s with
  | EmptyString => None
  | String c s' =>
      let braceCount := if Ascii.eqb c "{" then (braceCount + 1)%Z else braceCount in
      let braceCount := if Ascii.eqb c "}" then (braceCount - 1)%Z else braceCount in
      if (braceCount =? 0)%Z then Some (i + 1) else braceScan s' (i + 1) braceCount
  end.

(** [content.substring(0, content.indexOf(needle))]: a miss ([-1]) gives the
    empty string. *)
Definition textBeforeFirst (content needle : string) : string :=
  match indexOf content needle with
  | Some i => substringJs content 0 i
  | None => EmptyString
  end.

Section WithJsonParse.

(** [JSON.parse] of the platform. *)
Variable JSON_parse : string -> Exc Json.

Local Open Scope exc_scope.

Definition tryParseJson (jsonStr : string) : Exc (option StructuredResponse) :=
  tryCatch
    (parsed <- JSON_parse jsonStr ;;
     msg <- getProp parsed "message" ;;
     if truthy msg && isString msg then
       acts <- getProp parsed "actions" ;;
       th <- getProp parsed "thinking" ;;
       Ok (Some {| message := match msg with Some (JStr m) => m | _ => EmptyString end;
                   actions := match acts with Some (JArr l) => Some l | _ => None end;
                   thinking := th |})
     else Ok None)
    (fun _ => Ok None).

(** Estrategia 1: a fenced block tagged json. *)
Definition strategy1 (content : string) : Exc (option StructuredResponse) :=
  match search jsonBlockRe content with
  | Some m =>
      match group1 m with
      | Some g => tryParseJson g
      | None => tryParseJson "undefined"
      end
  | None => Ok None
  end.

(** Estrategia 2: any fenced block whose trimmed content starts with a
    brace.  [codeBlockMatch[1].trim()] is outside every try block. *)
Definition strategy2 (content : string) : Exc (option StructuredResponse) :=
  match search codeBlockRe content with
  | Some m =>
      match group1 m with
      | Some g => if startsWith (trim g) "{" then tryParseJson g else Ok None
      | None => Throw (ErrorObj "Cannot read properties of undefined")
      end
  | None => Ok None
  end.

(** Estrategia 3: an inline object with the calc tag, wrapped. *)
Definition strategy3 (content : string) : Exc (option StructuredResponse) :=
  match search jsonCalcRe content with
  | Some m =>
      tryCatch
        (action <- JSON_parse (whole m) ;;
         let textBefore := trim (textBeforeFirst content (whole m)) in
         Ok (Some {| message := orString textBefore "Procesando cálculo...";
                     actions := Some [action];
                     thinking := None |}))
        (fun _ => Ok None)
  | None => Ok None
  end.

(** Estrategia 4: an inline object with message and actions. *)
Definition strategy4 (content : string) : Exc (option StructuredResponse) :=
  match search jsonObjectRe content with
  | Some m => tryParseJson (whole m)
  | None => Ok None
  end.

(** The candidate text of strategy 5: from the first occurrence of the
    matched prefix to the balancing brace. *)
Definition actionCandidate (content : string) (m : Match) : nat * string :=
  let startIdx := match indexOf content (whole m) with Some i => i | None => 0 end in
  let endIdx :=
    match braceScan (substring startIdx (length content - startIdx) content) startIdx 0%Z with
    | Some e => e
    | None => startIdx
    end in
  (startIdx, substringJs content startIdx endIdx).

(** Estrategia 5: a bare action, wrapped. *)
Definition strategy5 (content : string) : Exc (option StructuredResponse) :=
  match search actionRe content with
  | Some m =>
      let (startIdx, jsonStr) := actionCandidate content m in
      tryCatch
        (action <- JSON_parse jsonStr ;;
         let textBefore := trim (substringJs content 0 startIdx) in
         Ok (Some {| message := orString textBefore "Procesando...";
                     actions := Some [action];
                     thinking := None |}))
        (fun _ => Ok None)
  | None => Ok None
  end.

(** Estrategia 6: the whole trimmed reply. *)
Definition strategy6 (content : string) : Exc (option StructuredResponse) :=
  let trimmed := trim content in
  if startsWith trimmed "{" && endsWith trimmed "}" then tryParseJson trimmed
  else Ok None.

(** [if (result) return result;] then the rest of the function. *)
Definition orElse {A} (m : Exc (option A)) (rest : Exc A) : Exc A :=
  r <- m ;;
  match r with
  | Some x => Ok x
  | None => rest
  end.

Definition parseStructuredResponse (content : string) : Exc StructuredResponse :=
  orElse (strategy1 content)
  (orElse (strategy2 content)
  (orElse (strategy3 content)
  (orElse (strategy4 content)
  (orElse (strategy5 content)
  (orElse (strategy6 content)
  (Ok {| message := content; actions := None; thinking := None |})))))).

End WithJsonParse.

End Parser.

(** ** The host document

    The document model the add-in talks to, as far as the execution engine
    uses it: the values of the active worksheet, its used range, other
    worksheets by name, and request contexts whose queued commands take
    effect at [context.sync()].  Any [sync] may fail: [faults] lists what the
    coming synchronisations throw. *)

Module Excel.

(** [type CellValue = string | number | boolean | null]; the engine only
    asks whether a number is zero, so the integers stand for the numbers. *)
Inductive CellValue : Type :=
| VStr (s : string)
| VNum (n : Z)
| VBool (b : bool)
| VNull.

Definition Matrix : Type := list (list CellValue).

(** A rectangular region: 1-based top row and left column, and its size. *)
Record Rect : Type := {
  top : nat;
  left : nat;
  rowCount : nat;
  columnCount : nat
}.

(** Cell values by row and column. *)
Definition Sheet : Type := nat -> nat -> CellValue.

Inductive Command : Type :=
| SetValues (r : Rect) (m : Matrix)
| SetFormulas (r : Rect) (m : list (list string)).

Record Host : Type := {
  activeName : string;
  cells : Sheet;
  usedRange : option Rect;
  otherSheets : string -> option Sheet;
  calc : Sheet -> string -> CellValue;
  faults : list (option Thrown);
  queue : list Command;
  written : list Rect
}.

Definition withCells (h : Host) (c : Sheet) (u : option Rect) (w : list Rect) : Host :=
  {| activeName := activeName h; cells := c; usedRange := u;
     otherSheets := otherSheets h; calc := calc h; faults := faults h;
     queue := queue h; written := w |}.

Definition withFaults (h : Host) (f : list (option Thrown)) : Host :=
  {| activeName := activeName h; cells := cells h; usedRange := usedRange h;
     otherSheets := otherSheets h; calc := calc h; faults := f;
     queue := queue h; written := written h |}.

Definition withQueue (h : Host) (q : list Command) : Host :=
  {| activeName := activeName h; cells := cells h; usedRange := usedRange h;
     otherSheets := otherSheets h; calc := calc h; faults := faults h;
     queue := q; written := written h |}.

(** *** Regions and addresses *)

Definition inRect (r : Rect) (row col : nat) : bool :=
  (top r <=? row) && (row <? top r + rowCount r) &&
  (left r <=? col) && (col <? left r + columnCount r).

(** [range.values]: the rows of the region, top to bottom. *)
Definition readRect (c : Sheet) (r : Rect) : Matrix :=
  map (fun i => map (fun j => c (top r + i) (left r + j)) (seq 0 (columnCount r)))
      (seq 0 (rowCount r)).

(** The smallest region holding both. *)
Definition cover (u : option Rect) (r : Rect) : option Rect :=
  match u with
  | None => Some r
  | Some a =>
      let t := min (top a) (top r) in
      let l := min (left a) (left r) in
      let b := max (top a + rowCount a) (top r + rowCount r) in
      let e := max (left a + columnCount a) (left r + columnCount r) in
      Some {| top := t; left := l; rowCount := b - t; columnCount := e - l |}
  end.

Definition isLetter (c : ascii) : bool :=
  let n := nat_of_ascii c in
  ((65 <=? n) && (n <=? 90)) || ((97 <=? n) && (n <=? 122)).

Definition letterValue (c : ascii) : nat :=
  let n := nat_of_ascii c in
  if n <=? 90 then n - 64 else n - 96.

(** Column letters to the column number (A = 1, Z = 26, AA = 27). *)
Fixpoint columnNumber (acc : nat) (s : string) : nat :=
  match s with
  | EmptyString => acc
  | String c s' => columnNumber (acc * 26 + letterValue c) s'
  end.

(** The leading letters of a cell reference, and what follows. *)
Fixpoint splitLetters (s : string) : string * string :=
  match s with
  | String c s' =>
      if isLetter c then let (l, r) := splitLetters s' in (String c l, r)
      else (EmptyString, s)
  | EmptyString => (EmptyString, EmptyString)
  end.

Definition parseNat (s : string) : option nat :=
  match s with
  | EmptyString => None
  | _ => option_map Nat.of_uint (NilEmpty.uint_of_string s)
  end.

(** A cell reference: column letters, then a row number from 1. *)
Definition parseCell (s : string) : option (nat * nat) :=
  let (l, d) := splitLetters s in
  match l with
  | EmptyString => None
  | _ =>
      match parseNat d with
      | Some row => if 1 <=? row then Some (row, columnNumber 0 l) else None
      | None => None
      end
  end.

(** The text after the first colon, when there is one. *)
Fixpoint afterColon (s : string) : option string :=
  match s with
  | EmptyString => None
  | String c s' => if Ascii.eqb c ":" then Some s' else afterColon s'
  end.

(** How the host resolves an A1-style address: a cell, or two corner cells
    around a colon.  Other forms of reference are not part of this model and
    are refused like any malformed address. *)
Definition resolve (address : string) : option Rect :=
  match parseCell (beforeColon address) with
  | None => None
  | Some (r1, c1) =>
      match afterColon address with
      | None => Some {| top := r1; left := c1; rowCount := 1; columnCount := 1 |}
      | Some rest =>
          match parseCell rest with
          | None => None
          | Some (r2, c2) =>
              Some {| top := min r1 r2; left := min c1 c2;
                      rowCount := max r1 r2 - min r1 r2 + 1;
                      columnCount := max c1 c2 - min c1 c2 + 1 |}
          end
      end
  end.

(** *** Applying queued commands *)

Definition hasShape {A} (r : Rect) (m : list (list A)) : bool :=
  (List.length m =? rowCount r) && forallb (fun row => List.length row =? columnCount r) m.

Definition cellOf {A} (m : list (list A)) (i j : nat) : option A :=
  match nth_error m i with
  | Some row => nth_error row j
  | None => None
  end.

(** Assigning [range.values]: a [null] entry leaves its cell as it is. *)
Definition setValues (c : Sheet) (r : Rect) (m : Matrix) : Sheet :=
  fun row col =>
    if inRect r row col then
      match cellOf m (row - top r) (col - left r) with
      | Some VNull => c row col
      | Some v => v
      | None => c row col
      end
    else c row col.

(** Assigning [range.formulas]: each cell shows what its formula evaluates
    to on the sheet as it was. *)
Definition setFormulas (ev : Sheet -> string -> CellValue) (c : Sheet) (r : Rect)
    (m : list (list string)) : Sheet :=
  fun row col =>
    if inRect r row col then
      match cellOf m (row - top r) (col - left r) with
      | Some f => ev c f
      | None => c row col
      end
    else c row col.

Definition invalidArgument : Thrown :=
  ErrorObj "The number of rows or columns in the input array doesn't match the size or dimensions of the range.".

(** One command: refused when the array does not have the shape of the
    range. *)
Definition applyCommand (h : Host) (cmd : Command) : Exc Host :=
  match cmd with
  | SetValues r m =>
      if hasShape r m
      then Ok (withCells h (setValues (cells h) r m) (cover (usedRange h) r) (written h ++ [r]))
      else Throw invalidArgument
  | SetFormulas r m =>
      if hasShape r m
      then Ok (withCells h (setFormulas (calc h) (cells h) r m) (cover (usedRange h) r)
                 (written h ++ [r]))
      else Throw invalidArgument
  end.

Fixpoint applyCommands (h : Host) (cmds : list Command) : Exc Host * Host :=
  match cmds with
  | [] => (Ok h, h)
  | cmd :: rest =>
      match applyCommand h cmd with
      | Ok h' => applyCommands h' rest
      | Throw t => (Throw t, h)
      end
  end.

(** *** The request monad *)

Definition Excel (A : Type) : Type := Host -> Exc A * Host.

Definition ret {A} (a : A) : Excel A := fun h => (Ok a, h).

Definition bind {A B} (m : Excel A) (f : A -> Excel B) : Excel B :=
  fun h =>
    match m h with
    | (Ok a, h') => f a h'
    | (Throw t, h') => (Throw t, h')
    end.

Definition throw {A} (t : Thrown) : Excel A := fun h => (Throw t, h).

(** [try { m } catch (error) { handler error }] *)
Definition tryCatch {A} (m : Excel A) (handler : Thrown -> Excel A) : Excel A :=
  fun h =>
    match m h with
    | (Ok a, h') => (Ok a, h')
    | (Throw t, h') => handler t h'
    end.

(** [Excel.run(async (context) => body)]: a fresh request context. *)
Definition run {A} (body : Excel A) : Excel A :=
  fun h => body (withQueue h []).

(** [await context.sync()]: throws what [faults] schedules and drops the
    queue, or else applies the queued commands in order. *)
Definition sync : Excel unit :=
  fun h =>
    let h1 := withFaults h (tl (faults h)) in
    match faults h with
    | Some t :: _ => (Throw t, withQueue h1 [])
    | _ =>
        match applyCommands (withQueue h1 []) (queue h1) with
        | (Ok _, h2) => (Ok tt, h2)
        | (Throw t, h2) => (Throw t, h2)
        end
    end.

Definition enqueue (cmd : Command) : Excel unit :=
  fun h => (Ok tt, withQueue h (queue h ++ [cmd])).

(** [sheet.getRange(address)] on the active worksheet. *)
Definition getRange (address : string) : Excel Rect :=
  match resolve address with
  | Some r => ret r
  | None => throw (ErrorObj "The argument is invalid or missing or has an incorrect format.")
  end.

(** [range.getResizedRange(deltaRows, deltaCols)]: the bottom-right corner
    moves; a region keeps at least one row and one column. *)
Definition getResizedRange (r : Rect) (deltaRows deltaCols : Z) : Excel Rect :=
  let rows := (Z.of_nat (rowCount r) + deltaRows)%Z in
  let cols := (Z.of_nat (columnCount r) + deltaCols)%Z in
  if ((1 <=? rows) && (1 <=? cols))%Z
  then ret {| top := top r; left := left r;
              rowCount := Z.to_nat rows; columnCount := Z.to_nat cols |}
  else throw (ErrorObj "The argument is invalid or missing or has an incorrect format.").

(** [range.values] of a loaded range, after the [sync]. *)
Definition valuesOf (r : Rect) : Excel Matrix :=
  fun h => (Ok (readRect (cells h) r), h).

(** [sheet.getUsedRangeOrNullObject()] once loaded: [None] is the null
    object. *)
Definition getUsedRangeOrNullObject : Excel (option Rect) :=
  fun h => (Ok (usedRange h), h).

(** [worksheets.getItem(name)] or the active worksheet. *)
Definition sheetValues (name : option string) : Excel Sheet :=
  fun h =>
    match name with
    | None => (Ok (cells h), h)
    | Some n =>
        if String.eqb n (activeName h) then (Ok (cells h), h)
        else
          match otherSheets h n with
          | Some s => (Ok s, h)
          | None => (Throw (ErrorObj "The requested resource doesn't exist."), h)
          end
    end.

End Excel.

Declare Scope excel_scope.
Delimit Scope excel_scope with excel.
Notation "x <- m ;; k" := (Excel.bind m (fun x => k))
  (at level 61, m at next level, right associativity) : excel_scope.
Notation "m ;;; k" := (Excel.bind m (fun _ => k))
  (at level 61, right associativity) : excel_scope.

(** ** The Excel service: collision guard, dispatch and validation *)

Module ExcelService.

Import Excel.
Local Open Scope excel_scope.

(** [ExcelAction], with the fields the write and formula kinds read; the
    configuration fields of the other kinds are left to their branches. *)
Record ExcelAction : Type := {
  type : string;
  range : string;
  value : option CellValue;
  values : option Matrix;
  formula : option string;
  formulas : option (list (list string));
  allowOverwrite : bool;
  sheetName : option string
}.

Record OverwriteCheckResult : Type := {
  hasData : bool;
  nonEmptyCells : nat;
  totalCells : nat
}.

(** How the validator words its verdict; each constructor is one message
    template of [validateWriteAction] with the counts it interpolates. *)
Inductive ValidationMessage : Type :=
| NoDataWritten (finalRange : string) (emptyCount total : nat)
| IncompleteTable (emptyCount total : nat)
| AllFormulasErrored (errorCount : nat)
| ValidationOk (withData total : nat)
| CouldNotValidate.

Record ValidationResult : Type := {
  passed : bool;
  vmessage : ValidationMessage;
  vactualValues : option Matrix
}.

Record ActionResult : Type := {
  success : bool;
  action : ExcelAction;
  message : string;
  error : option string;
  validated : option bool;
  validationPassed : option bool;
  validationMessage : option ValidationMessage;
  actualValues : option Matrix
}.

(** [cell !== null && cell !== undefined && cell !== ""] *)
Definition isNonEmpty (cell : CellValue) : bool :=
  match cell with
  | VNull => false
  | VStr s => negb (String.eqb s EmptyString)
  | _ => true
  end.

Definition allEmpty (m : Matrix) : bool :=
  forallb (forallb (fun cell => negb (isNonEmpty cell))) m.

Definition countCells (p : CellValue -> bool) (m : Matrix) : nat :=
  List.length (filter p (List.concat m)).

(** [a || b] on numbers that are array lengths. *)
Definition orNum (a : option nat) (b : nat) : nat :=
  match a with
  | Some (S n) => S n
  | _ => b
  end.

(** [m?.[0]?.length] *)
Definition firstRowLength {A} (m : option (list (list A))) : option nat :=
  match m with
  | Some (row :: _) => Some (List.length row)
  | _ => None
  end.

(** [numberToColumn]: the while loop runs at most [num] times. *)
Fixpoint numberToColumn_loop (fuel n : nat) (result : string) : string :=
  match fuel with
  | 0 => result
  | S fuel' =>
      if 0 <? n then
        let n := n - 1 in
        numberToColumn_loop fuel' (n / 26) (String (ascii_of_nat (65 + n mod 26)) result)
      else result
  end.

Definition numberToColumn (num : nat) : string :=
  numberToColumn_loop num num EmptyString.

Definition checkRangeForData (address : string) (numRows numCols : nat)
    : Excel OverwriteCheckResult :=
  tryCatch
    (run (
       let startAddress := beforeColon address in
       startCell <- getRange startAddress ;;
       targetRange <- getResizedRange startCell (Z.of_nat numRows - 1) (Z.of_nat numCols - 1) ;;
       sync ;;;
       vals <- valuesOf targetRange ;;
       let nonEmptyCells := countCells isNonEmpty vals in
       let totalCells := numRows * numCols in
       ret {| hasData := 0 <? nonEmptyCells;
              nonEmptyCells := nonEmptyCells;
              totalCells := totalCells |}))
    (fun _ => ret {| hasData := false; nonEmptyCells := 0; totalCells := 0 |}).

(** The address of the strip tested at a column offset. *)
Definition candidateRange (used : Rect) (offset numRows numCols : nat) : string :=
  let startCol := columnCount used + offset in
  (numberToColumn startCol ++ "1:" ++ numberToColumn (startCol + numCols - 1)
   ++ showNat (max numRows (rowCount used)))%string.

Definition candidateStart (used : Rect) (offset : nat) : string :=
  (numberToColumn (columnCount used + offset) ++ "1")%string.

(** [for (let offset = 3; offset <= 20; offset++)] *)
Fixpoint searchRight (used : Rect) (numRows numCols : nat) (offsets : list nat)
    : Excel (option string) :=
  match offsets with
  | [] => ret None
  | offset :: rest =>
      newTestRange <- getRange (candidateRange used offset numRows numCols) ;;
      sync ;;;
      vals <- valuesOf newTestRange ;;
      if allEmpty vals then ret (Some (candidateStart used offset))
      else searchRight used numRows numCols rest
  end.

Definition findEmptyRangeForData (numRows numCols : nat) : Excel (option string) :=
  tryCatch
    (run (
       sync ;;;
       usedRange <- getUsedRangeOrNullObject ;;
       match usedRange with
       | None => ret (Some "A1")
       | Some used =>
           testRange <- getRange (candidateRange used 2 numRows numCols) ;;
           sync ;;;
           vals <- valuesOf testRange ;;
           if allEmpty vals then ret (Some (candidateStart used 2))
           else searchRight used numRows numCols (seq 3 18)
       end))
    (fun _ => ret None).

(** *** Post-execution validation *)

(** [String(cell || "")] *)
Definition cellString (cell : CellValue) : string :=
  match cell with
  | VStr s => s
  | VNum n => if (n =? 0)%Z then EmptyString else NilEmpty.string_of_int (Z.to_int n)
  | VBool true => "true"
  | VBool false => EmptyString
  | VNull => EmptyString
  end.

Definition isErrorSentinel (cell : CellValue) : bool :=
  let cellStr := cellString cell in
  startsWith cellStr "#" &&
  (includes cellStr "ERROR" || includes cellStr "REF" || includes cellStr "VALUE"
   || includes cellStr "NAME" || includes cellStr "DIV").

(** [action.formula] as a condition: a non-empty string. *)
Definition hasFormula (a : ExcelAction) : bool :=
  match formula a with
  | Some f => negb (String.eqb f EmptyString)
  | None => false
  end.

Definition nonEmptyArray {A} (m : option (list A)) : bool :=
  match m with
  | Some l => 0 <? List.length l
  | None => false
  end.

Definition expectedData (a : ExcelAction) : bool :=
  if String.eqb (type a) "write" then nonEmptyArray (values a)
  else hasFormula a || nonEmptyArray (formulas a).

Definition moreThanOneRow (a : ExcelAction) : bool :=
  match values a with
  | Some l => 1 <? List.length l
  | None => false
  end.

(** The verdict on the values read back.  [emptyRatio > 0.3] is
    [emptyCount / totalCells > 3 / 10], decided on the integers. *)
Definition classify (a : ExcelAction) (finalRange : string) (actualValues : Matrix)
    : ValidationResult :=
  let hasData := existsb isNonEmpty (List.concat actualValues) in
  let emptyCount := countCells (fun cell => negb (isNonEmpty cell)) actualValues in
  let totalCells := List.length (List.concat actualValues) in
  if expectedData a && negb hasData then
    {| passed := false;
       vmessage := NoDataWritten finalRange emptyCount totalCells;
       vactualValues := Some actualValues |}
  else if String.eqb (type a) "write" && moreThanOneRow a
          && (3 * totalCells <? 10 * emptyCount) && (3 <? emptyCount) then
    {| passed := false;
       vmessage := IncompleteTable emptyCount totalCells;
       vactualValues := Some actualValues |}
  else
    let errorCount := countCells isErrorSentinel actualValues in
    if String.eqb (type a) "formula" && (0 <? errorCount) && (errorCount =? totalCells) then
      {| passed := false;
         vmessage := AllFormulasErrored errorCount;
         vactualValues := Some actualValues |}
    else
      {| passed := true;
         vmessage := ValidationOk (totalCells - emptyCount) totalCells;
         vactualValues := Some actualValues |}.

(** The read-back of [validateWriteAction]. *)
Definition reread (a : ExcelAction) (finalRange : string) : Excel Matrix :=
  run (
    if String.eqb (type a) "write" then
      match values a with
      | Some vs =>
          let numRows := List.length vs in
          let numCols := orNum (firstRowLength (values a)) 1 in
          let startAddress := beforeColon finalRange in
          startCell <- getRange startAddress ;;
          targetRange <- getResizedRange startCell (Z.of_nat numRows - 1) (Z.of_nat numCols - 1) ;;
          sync ;;;
          valuesOf targetRange
      | None => ret []
      end
    else if String.eqb (type a) "formula" then
      range <- getRange finalRange ;;
      sync ;;;
      valuesOf range
    else ret []).

Definition validateWriteAction (a : ExcelAction) (finalRange : string)
    : Excel ValidationResult :=
  tryCatch
    (actualValues <- reread a finalRange ;;
     ret (classify a finalRange actualValues))
    (fun _ => ret {| passed := true; vmessage := CouldNotValidate; vactualValues := None |}).

(** *** Dispatch *)

(** The kinds of the switch other than write and formula. *)
Definition otherKinds : list string :=
  ["format"; "merge"; "columnWidth"; "rowHeight"; "autofit"; "table"; "chart";
   "createSheet"; "activateSheet"; "deleteSheet"; "pivotTable"; "read"; "calc";
   "filter"; "clearFilter"; "search"; "sort"; "conditionalFormat"; "dataValidation";
   "comment"; "hyperlink"; "namedRange"; "protect"; "unprotect"; "freezePanes";
   "unfreezePane"; "groupRows"; "groupColumns"; "ungroupRows"; "ungroupColumns";
   "hideRows"; "hideColumns"; "showRows"; "showColumns"; "removeDuplicates";
   "textToColumns"].

(** [f && !f.startsWith("=") ? `=${f}` : f] *)
Definition normalizeFormula (f : string) : string :=
  if negb (String.eqb f EmptyString) && negb (startsWith f "=") then ("=" ++ f)%string else f.

Section Dispatch.

(** What the branch of one of [otherKinds] does inside the request: any
    sequence of document-model calls, ending in the message it sets. *)
Variable otherBranch : ExcelAction -> Excel string.

Definition dispatch (a : ExcelAction) (finalRange overwriteWarning : string) : Excel string :=
  if String.eqb (type a) "write" then
    match values a with
    | Some (row0 :: rest) =>
        let startAddress := beforeColon finalRange in
        startCell <- getRange startAddress ;;
        let numRows := List.length (row0 :: rest) in
        let numCols := orNum (Some (List.length row0)) 1 in
        targetRange <- getResizedRange startCell (Z.of_nat numRows - 1) (Z.of_nat numCols - 1) ;;
        enqueue (SetValues targetRange (row0 :: rest)) ;;;
        ret (overwriteWarning ++ "Datos escritos (" ++ showNat numRows ++ "x"
             ++ showNat numCols ++ ") desde " ++ startAddress)%string
    | _ =>
        match value a with
        | Some v =>
            range <- getRange finalRange ;;
            enqueue (SetValues range [[v]]) ;;;
            ret (overwriteWarning ++ "Valor escrito en " ++ finalRange)%string
        | None => ret ("Sin datos para escribir en " ++ finalRange)%string
        end
    end
  else if String.eqb (type a) "formula" then
    match formulas a with
    | Some fs =>
        range <- getRange finalRange ;;
        enqueue (SetFormulas range (map (map normalizeFormula) fs)) ;;;
        ret (overwriteWarning ++ "Fórmulas escritas en " ++ finalRange)%string
    | None =>
        if hasFormula a then
          range <- getRange finalRange ;;
          let f := match formula a with Some f => f | None => EmptyString end in
          enqueue (SetFormulas range [[if startsWith f "=" then f else ("=" ++ f)%string]]) ;;;
          ret (overwriteWarning ++ "Fórmula escrita en " ++ finalRange)%string
        else ret ("Sin fórmula para escribir en " ++ finalRange)%string
    end
  else if existsb (String.eqb (type a)) otherKinds then otherBranch a
  else ret ("Acción desconocida: " ++ type a)%string.

Definition isWriteKind (a : ExcelAction) : bool :=
  String.eqb (type a) "write" || String.eqb (type a) "formula".

Definition guardRows (a : ExcelAction) : nat :=
  orNum (option_map (@List.length _) (values a))
        (orNum (option_map (@List.length _) (formulas a)) 1).

Definition guardCols (a : ExcelAction) : nat :=
  orNum (firstRowLength (values a)) (orNum (firstRowLength (formulas a)) 1).

(** The outcome of the overwrite protection: the range to use and the
    warning, or the result to return at once. *)
Definition protect (a : ExcelAction) : Excel (string * string + ActionResult) :=
  if isWriteKind a && negb (allowOverwrite a) then
    let numRows := guardRows a in
    let numCols := guardCols a in
    let startAddress := beforeColon (range a) in
    overwriteCheck <- checkRangeForData startAddress numRows numCols ;;
    if hasData overwriteCheck then
      emptyRange <- findEmptyRangeForData numRows numCols ;;
      match emptyRange with
      | Some e =>
          if String.eqb e EmptyString then
            ret (inr {| success := false; action := a;
                        message := ("No se puede escribir: el rango " ++ startAddress
                                    ++ " contiene " ++ showNat (nonEmptyCells overwriteCheck)
                                    ++ " celdas con datos")%string;
                        error := Some "El rango contiene datos existentes. Seleccione un rango vacío o use allowOverwrite para forzar la escritura.";
                        validated := None; validationPassed := None;
                        validationMessage := None; actualValues := None |})
          else
            ret (inl (e, ("⚠️ Se evitó sobreescribir " ++ showNat (nonEmptyCells overwriteCheck)
                          ++ " celdas. ")%string))
      | None =>
          ret (inr {| success := false; action := a;
                      message := ("No se puede escribir: el rango " ++ startAddress
                                  ++ " contiene " ++ showNat (nonEmptyCells overwriteCheck)
                                  ++ " celdas con datos")%string;
                      error := Some "El rango contiene datos existentes. Seleccione un rango vacío o use allowOverwrite para forzar la escritura.";
                      validated := None; validationPassed := None;
                      validationMessage := None; actualValues := None |})
      end
    else ret (inl (range a, EmptyString))
  else ret (inl (range a, EmptyString)).

Definition executeSingleAction (a : ExcelAction) : Excel ActionResult :=
  tryCatch
    (guard <- protect a ;;
     match guard with
     | inr refused => ret refused
     | inl (finalRange, overwriteWarning) =>
         message <- run (message <- dispatch a finalRange overwriteWarning ;;
                         sync ;;;
                         ret message) ;;
         if isWriteKind a then
           validationResult <- validateWriteAction a finalRange ;;
           ret {| success := true; action := a; message := message; error := None;
                  validated := Some true;
                  validationPassed := Some (passed validationResult);
                  validationMessage := Some (vmessage validationResult);
                  actualValues := vactualValues validationResult |}
         else
           ret {| success := true; action := a; message := message; error := None;
                  validated := Some false; validationPassed := None;
                  validationMessage := None; actualValues := None |}
     end)
    (fun error =>
       ret {| success := false; action := a;
              message := ("Error en " ++ range a)%string;
              error := Some (messageOr "Error desconocido" error);
              validated := Some false; validationPassed := None;
              validationMessage := None; actualValues := None |}).

(** One action after the other, a result for each. *)
Fixpoint executeActions (actions : list ExcelAction) : Excel (list ActionResult) :=
  match actions with
  | [] => ret []
  | a :: rest =>
      result <- executeSingleAction a ;;
      results <- executeActions rest ;;
      ret (result :: results)
  end.

End Dispatch.

(** *** Reading a range back *)

(** The non-empty cells of a range in row order, each under the offset of
    its cell (the source keys them by address; distinct cells have distinct
    addresses). *)
Definition nonEmptyEntries (m : Matrix) : list (nat * nat * CellValue) :=
  List.concat (map (fun ir : nat * list CellValue =>
                 let (i, row) := ir in
                 List.concat (map (fun jc : nat * CellValue =>
                                let (j, cell) := jc in
                                if isNonEmpty cell then [(i, j, cell)] else [])
                             (combine (seq 0 (List.length row)) row)))
              (combine (seq 0 (List.length m)) m)).

(** [readRange(range, sheetName)]: the [cells] of its [ReadResult], read
    on the worksheet named [sheetName] when that is a truthy string and on
    the active worksheet otherwise; any failure is rethrown as an
    [ExcelServiceError]. *)
Definition readRange (range : string) (sheetName : option string)
    : Excel (list (nat * nat * CellValue)) :=
  tryCatch
    (run (
       sheet <- sheetValues (match sheetName with
                             | Some EmptyString => None
                             | name => name
                             end) ;;
       targetRange <- getRange range ;;
       sync ;;;
       ret (nonEmptyEntries (readRect sheet targetRange))))
    (fun _ => throw (ErrorObj ("Error al leer rango " ++ range)%string)).

End ExcelService.

(** ** The task pane: verification of results and the correction loop *)

Module Taskpane.

Import Excel ExcelService.

(** What [verifyFormulaResults] reports about one formula action; each
    constructor is one of its message templates with what it interpolates. *)
Inductive Anomaly : Type :=
| ExcelErrors (range : string) (firstErrors : list string)
| AllZero (range : string) (count : nat) (formulaText : string + list string)
| MostlyZero (range : string) (zeroCount count : nat).

Definition numbersOf (vs : list CellValue) : list Z :=
  List.concat (map (fun v => match v with VNum n => [n] | _ => [] end) vs).

Definition stringsOf (vs : list CellValue) : list string :=
  List.concat (map (fun v => match v with VStr s => [s] | _ => [] end) vs).

(** [v.startsWith("#") || v.includes("ERROR") || v.includes("¡")] *)
Definition looksLikeError (v : string) : bool :=
  startsWith v "#" || includes v "ERROR" || includes v "¡".

Definition isZero (n : Z) : bool := (n =? 0)%Z.

(** [action.formula || (action.formulas ? JSON.stringify(action.formulas[0])
    : "desconocida")], then [.substring(0, 100)]: a TypeError when
    [formulas] is an empty array, whose first row is undefined. *)
Definition formulaText (a : ExcelAction) : Exc (string + list string) :=
  if hasFormula a then
    Ok (inl (match formula a with Some f => substring 0 100 f | None => EmptyString end))
  else
    match formulas a with
    | Some (row :: _) => Ok (inr row)
    | Some [] => Throw (ErrorObj "Cannot read properties of undefined (reading 'substring')")
    | None => Ok (inl "desconocida")
    end.

(** The checks on the values read for one action: the body of the inner
    try block after the read.  [zeroPercentage > 90] is decided on the
    integers. *)
Definition inspect (a : ExcelAction) (values : list CellValue) : Exc (option Anomaly) :=
  let numericValues := numbersOf values in
  let stringValues := stringsOf values in
  let errorValues := filter looksLikeError stringValues in
  if 0 <? List.length errorValues then
    Ok (Some (ExcelErrors (range a) (firstn 3 errorValues)))
  else if (5 <? List.length numericValues) && forallb isZero numericValues then
    Js.bind (formulaText a) (fun text =>
      Ok (Some (AllZero (range a) (List.length numericValues) text)))
  else if 10 <? List.length numericValues then
    let zeroCount := List.length (filter isZero numericValues) in
    if 90 * List.length numericValues <? 100 * zeroCount then
      Ok (Some (MostlyZero (range a) zeroCount (List.length numericValues)))
    else Ok None
  else Ok None.

Local Open Scope excel_scope.

(** One turn of the loop over the formula actions. *)
Definition verifyOne (a : ExcelAction) : Excel (option Anomaly) :=
  tryCatch
    (data <- readRange (range a) (sheetName a) ;;
     match inspect a (map snd data) with
     | Ok r => ret r
     | Throw t => throw t
     end)
    (fun _ => ret None).

Fixpoint verifyLoop (formulaActions : list ExcelAction) (anomalies : list Anomaly)
    : Excel (list Anomaly) :=
  match formulaActions with
  | [] => ret anomalies
  | a :: rest =>
      found <- verifyOne a ;;
      verifyLoop rest (match found with
                       | Some x => anomalies ++ [x]
                       | None => anomalies
                       end)
  end.

(** [{ needsCorrection, feedback }] *)
Definition verifyFormulaResults (formulaActions : list ExcelAction)
    : Excel (bool * list Anomaly) :=
  tryCatch
    (anomalies <- verifyLoop formulaActions [] ;;
     if 0 <? List.length anomalies then ret (true, anomalies) else ret (false, []))
    (fun _ => ret (false, [])).

(** *** The correction loop *)

(** What the agent answers to a request, parsed. *)
Record Response : Type := {
  reply : string;
  newActions : option (list ExcelAction)
}.

Inductive Event : Type :=
| Toast (text : string)
| Said (role text : string)
| ShowedResults (results : list ActionResult)
| AskedErrorCorrection (failed : list ActionResult) (context : option string)
| AskedResultCorrection (feedback : list Anomaly) (originalRequest : string)
    (context : option string).

(** The add-in during one chat turn: the document, the agent's answers to
    the requests still to come, and the task pane's state. *)
Record World : Type := {
  host : Host;
  agent : nat -> Exc Response;
  requests : nat;
  pendingActions : list ExcelAction;
  autoMode : bool;
  lastActionResults : list ActionResult;
  lastUserMessage : string;
  loading : bool;
  events : list Event
}.

Definition update (w : World) (h : Host) (n : nat) (p : list ExcelAction)
    (r : list ActionResult) (l : bool) (e : list Event) : World :=
  {| host := h; agent := agent w; requests := n; pendingActions := p;
     autoMode := autoMode w; lastActionResults := r;
     lastUserMessage := lastUserMessage w; loading := l; events := e |}.

(** An asynchronous function of the task pane; [None] when the run has not
    ended within the steps granted. *)
Definition Task (A : Type) : Type := World -> option (Exc A * World).

Definition tret {A} (a : A) : Task A := fun w => Some (Ok a, w).

Definition tbind {A B} (m : Task A) (f : A -> Task B) : Task B :=
  fun w =>
    match m w with
    | Some (Ok a, w') => f a w'
    | Some (Throw t, w') => Some (Throw t, w')
    | None => None
    end.

Definition ttry {A} (m : Task A) (handler : Thrown -> Task A) : Task A :=
  fun w =>
    match m w with
    | Some (Ok a, w') => Some (Ok a, w')
    | Some (Throw t, w') => handler t w'
    | None => None
    end.

(** A call of the Excel service. *)
Definition excel {A} (m : Excel A) : Task A :=
  fun w =>
    let (r, h) := m (host w) in
    Some (r, update w h (requests w) (pendingActions w) (lastActionResults w)
               (loading w) (events w)).

Definition emit (e : Event) : Task unit :=
  fun w => Some (Ok tt, update w (host w) (requests w) (pendingActions w)
                          (lastActionResults w) (loading w) (events w ++ [e])).

Definition setLoading (l : bool) : Task unit :=
  fun w => Some (Ok tt, update w (host w) (requests w) (pendingActions w)
                          (lastActionResults w) l (events w)).

Definition showPendingActions (actions : list ExcelAction) : Task unit :=
  fun w => Some (Ok tt, update w (host w) (requests w) actions
                          (lastActionResults w) (loading w) (events w)).

Definition hidePendingActions : Task unit := showPendingActions [].

Definition setLastActionResults (results : list ActionResult) : Task unit :=
  fun w => Some (Ok tt, update w (host w) (requests w) (pendingActions w)
                          results (loading w) (events w)).

Definition get {A} (f : World -> A) : Task A := fun w => Some (Ok (f w), w).

(** [azureOpenAIService.sendMessageStructured]: the next answer of the
    agent, or the transport error it raises. *)
Definition sendMessageStructured : Task Response :=
  fun w =>
    Some (agent w (requests w),
          update w (host w) (S (requests w)) (pendingActions w)
                 (lastActionResults w) (loading w) (events w)).

End Taskpane.

Declare Scope task_scope.
Delimit Scope task_scope with task.
Notation "x <- m ;; k" := (Taskpane.tbind m (fun x => k))
  (at level 61, m at next level, right associativity) : task_scope.
Notation "m ;;; k" := (Taskpane.tbind m (fun _ => k))
  (at level 61, right associativity) : task_scope.

Module Orchestrator.

Import Excel ExcelService Taskpane.
Local Open Scope task_scope.

Section Loop.

Variable otherBranch : ExcelAction -> Excel string.

(** Collaborators of the loop that only read the document: the highlight
    of the first range and the context sent along with a request. *)
Variable LightweightDataIndex : Type.
Variable highlightRange : string -> Excel unit.
Variable getUsedRangeInfo : Excel (option string).
Variable buildLightweightIndex : bool -> Excel (option LightweightDataIndex).
Variable formatLightweightIndexForContext : LightweightDataIndex -> string.

(** [response.actions && response.actions.length > 0], then the shared
    tail of both correction requests. *)
Definition resume (acceptAllActions : Task unit) (response : Response) : Task unit :=
  match newActions response with
  | Some (a :: rest) =>
      emit (Said "assistant" (reply response)) ;;;
      showPendingActions (a :: rest) ;;;
      auto <- get autoMode ;;
      if auto then acceptAllActions else setLoading false
  | _ =>
      emit (Said "assistant" (reply response)) ;;;
      setLoading false
  end.

Definition requestErrorCorrection (acceptAllActions : Task unit)
    (results : list ActionResult) : Task unit :=
  let failedActions := filter (fun r => negb (success r)) results in
  match failedActions with
  | [] => tret tt
  | _ =>
      setLoading true ;;;
      ttry
        (usedRange <- excel getUsedRangeInfo ;;
         context <- match usedRange with
                    | Some _ =>
                        lightweightIndex <- excel (buildLightweightIndex true) ;;
                        tret (match lightweightIndex with
                              | Some i => formatLightweightIndexForContext i
                              | None => EmptyString
                              end)
                    | None => tret EmptyString
                    end ;;
         emit (Said "user" "⚠️ Corrigiendo errores...") ;;;
         emit (AskedErrorCorrection failedActions
                 (if String.eqb context EmptyString then None else Some context)) ;;;
         response <- sendMessageStructured ;;
         resume acceptAllActions response)
        (fun _ =>
           emit (Toast "Error al solicitar corrección") ;;;
           setLoading false)
  end.

Definition requestResultCorrection (acceptAllActions : Task unit)
    (feedback : list Anomaly) (originalRequest : string) : Task unit :=
  setLoading true ;;;
  ttry
    (lightweightIndex <- excel (buildLightweightIndex true) ;;
     let context := match lightweightIndex with
                    | Some i => formatLightweightIndexForContext i
                    | None => EmptyString
                    end in
     emit (Said "assistant"
             "⚠️ Los resultados parecen incorrectos (muchos ceros). Analizando y corrigiendo...") ;;;
     emit (AskedResultCorrection feedback originalRequest
             (if String.eqb context EmptyString then None else Some context)) ;;;
     response <- sendMessageStructured ;;
     resume acceptAllActions response)
    (fun _ =>
       emit (Toast "Error al solicitar corrección") ;;;
       setLoading false).

Definition isFormula (a : ExcelAction) : bool := String.eqb (type a) "formula".

(** How the try block of [acceptAllActions] is left: by falling through to
    the final clean-up, by the [return] after the awaited result correction,
    or by the [return] after starting [requestErrorCorrection], which is
    called without [await] and so runs outside the try block. *)
Inductive Exit : Type :=
| FallThrough
| Returned
| StartedErrorCorrection (results : list ActionResult).

(** [acceptAllActions]; [fuel] bounds the depth of its re-entries through
    the correction requests.  The correction started without [await] is run
    to its end in place. *)
Fixpoint acceptAllActions (fuel : nat) : Task unit :=
  match fuel with
  | 0 => fun _ => None
  | S fuel' =>
      pending <- get pendingActions ;;
      match pending with
      | [] => tret tt
      | _ =>
          setLoading true ;;;
          exit <- ttry
            (results <- excel (executeActions otherBranch pending) ;;
             setLastActionResults results ;;;
             let successCount := List.length (filter success results) in
             let errorCount := List.length results - successCount in
             emit (ShowedResults results) ;;;
             if errorCount =? 0 then
               emit (Toast (showNat successCount ++ " acciones completadas")%string) ;;;
               match results with
               | first :: _ =>
                   if success first
                   then ttry (excel (highlightRange (range (action first)))) (fun _ => tret tt)
                   else tret tt
               | [] => tret tt
               end ;;;
               let formulaActions := filter isFormula pending in
               match formulaActions with
               | [] => tret FallThrough
               | _ =>
                   verificationResult <- excel (verifyFormulaResults formulaActions) ;;
                   if fst verificationResult then
                     emit (Toast "⚠️ Detectados resultados anómalos, solicitando corrección...") ;;;
                     setLoading false ;;;
                     hidePendingActions ;;;
                     original <- get lastUserMessage ;;
                     requestResultCorrection (acceptAllActions fuel')
                       (snd verificationResult) original ;;;
                     tret Returned
                   else tret FallThrough
               end
             else
               emit (Toast (showNat successCount ++ " OK, " ++ showNat errorCount
                            ++ " errores - reintentando...")%string) ;;;
               setLoading false ;;;
               tret (StartedErrorCorrection results))
            (fun _ =>
               emit (Toast "Error al ejecutar acciones") ;;;
               hidePendingActions ;;;
               setLoading false ;;;
               tret FallThrough) ;;
          match exit with
          | FallThrough => hidePendingActions ;;; setLoading false
          | Returned => tret tt
          | StartedErrorCorrection results =>
              requestErrorCorrection (acceptAllActions fuel') results
          end
      end
  end.

End Loop.

(** The correction requests sent to the agent during a run. *)
Definition isCorrectionRequest (e : Event) : bool :=
  match e with
  | AskedErrorCorrection _ _ => true
  | AskedResultCorrection _ _ _ => true
  | _ => false
  end.

Definition correctionRounds (w : World) : nat :=
  List.length (filter isCorrectionRequest (events w)).

End Orchestrator.

(** ** Sample documents and actions *)

Module Samples.

Import Excel ExcelService Taskpane.

(** A sheet given by its non-empty cells; the other cells read as the
    empty string, as Excel reports them. *)
Definition sheetOf (l : list (nat * nat * CellValue)) : Sheet :=
  fun row col =>
    match find (fun e => (fst (fst e) =? row) && (snd (fst e) =? col)) l with
    | Some e => snd e
    | None => VStr EmptyString
    end.

(** A document on one worksheet; formulas show their own text. *)
Definition document (l : list (nat * nat * CellValue)) (used : option Rect)
    (f : list (option Thrown)) : Host :=
  {| activeName := "Hoja1"; cells := sheetOf l; usedRange := used;
     otherSheets := fun _ => None; calc := fun _ f => VStr f;
     faults := f; queue := []; written := [] |}.

Definition writeValues (range : string) (vs : Matrix) : ExcelAction :=
  {| type := "write"; range := range; value := None; values := Some vs;
     formula := None; formulas := None; allowOverwrite := false; sheetName := None |}.

Definition writeFormula (range f : string) : ExcelAction :=
  {| type := "formula"; range := range; value := None; values := None;
     formula := Some f; formulas := None; allowOverwrite := false; sheetName := None |}.

Definition writeFormulas (range : string) (fs : list (list string)) : ExcelAction :=
  {| type := "formula"; range := range; value := None; values := None;
     formula := None; formulas := Some fs; allowOverwrite := false; sheetName := None |}.

(** The other kinds do nothing to the document in the samples. *)
Definition noOther : ExcelAction -> Excel string := fun _ => Excel.ret "ok".

Definition region (t l rows cols : nat) : Rect :=
  {| top := t; left := l; rowCount := rows; columnCount := cols |}.

(** A sheet whose only data is the text old in A2. *)
Definition oldInA2 (f : list (option Thrown)) : Host :=
  document [(2, 1, VStr "old")] (Some (region 2 1 1 1)) f.

(** The write of the specification's scenario: three rows of one column
    addressed to A2:A2. *)
Definition threeRows : ExcelAction :=
  writeValues "A2:A2" [[VStr "x"]; [VStr "y"]; [VStr "z"]].

(** A sheet whose only data is the text old in A1. *)
Definition oldInA1 (f : list (option Thrown)) : Host :=
  document [(1, 1, VStr "old")] (Some (region 1 1 1 1)) f.

(** Three formulas of one column addressed to a range written from its
    last cell to its first. *)
Definition threeFormulas : ExcelAction :=
  writeFormulas "A3:A1" [["=1"]; ["=2"]; ["=3"]].

(** A sheet whose data fills C1:E5. *)
Definition dataInCtoE (f : list (option Thrown)) : Host :=
  document
    (List.concat (map (fun row => map (fun col => (row, col, VNum 1)) [3; 4; 5])
                      [1; 2; 3; 4; 5]))
    (Some (region 1 3 5 3)) f.

(** A write to an address the host cannot resolve: it fails on every
    document. *)
Definition badWrite : ExcelAction :=
  {| type := "write"; range := "??"; value := Some (VNum 1); values := None;
     formula := None; formulas := None; allowOverwrite := false; sheetName := None |}.

Definition retry : Response := {| reply := "retry"; newActions := Some [badWrite] |}.

Definition giveUp : Response := {| reply := "sorry"; newActions := None |}.

(** An agent that answers its first [n] requests with [badWrite] again,
    and then without actions. *)
Definition stubborn (n : nat) : nat -> Exc Response :=
  fun k => if k <? n then Ok retry else Ok giveUp.

(** An agent that answers every request with [badWrite] again. *)
Definition insistent : nat -> Exc Response := fun _ => Ok retry.

(** A chat turn that starts with [badWrite] pending, in automatic mode. *)
Definition turn (ag : nat -> Exc Response) (h : Host) : World :=
  {| host := h; agent := ag; requests := 0; pendingActions := [badWrite];
     autoMode := true; lastActionResults := []; lastUserMessage := "suma las ventas";
     loading := false; events := [] |}.

(** The loop with collaborators that find no used range and build no
    index. *)
Definition loop : nat -> Task unit :=
  Orchestrator.acceptAllActions noOther (fun _ => Excel.ret tt) (Excel.ret None)
    (fun _ => Excel.ret (@None unit)) (fun _ => EmptyString).

End Samples.

(** * Further parts of the add-in

    The helpers around the engine above: the column-letter converters and
    the column queries of the Excel service, the rewriting of formula
    references for the calculation sheet, the conversation history of the
    Azure OpenAI service, the fetching of web content, and the text helpers of
    the task pane. *)

(** ** Column letters *)

Module ColumnLetters.

(** [columnLetterToNumber]: [charCodeAt(i) - 64] is taken for every code
    unit, letter or not, so the result is an integer. *)
Fixpoint columnLetterToNumber_loop (result : Z) (column : string) : Z :=
  match column with
  | EmptyString => result
  | String c rest =>
      columnLetterToNumber_loop (result * 26 + (Z.of_nat (nat_of_ascii c) - 64)) rest
  end.

Definition columnLetterToNumber (column : string) : Z :=
  columnLetterToNumber_loop 0 column.

(** [numberToColumnLetter]: the while loop runs at most [num] times. *)
Fixpoint numberToColumnLetter_loop (fuel : nat) (num : Z) (result : string) : string :=
  match fuel with
  | 0 => result
  | S fuel' =>
      if (0 <? num)%Z then
        let remainder := ((num - 1) mod 26)%Z in
        numberToColumnLetter_loop fuel' ((num - 1) / 26)%Z
          (String (ascii_of_nat (Z.to_nat (65 + remainder))) result)
      else result
  end.

Definition numberToColumnLetter (num : Z) : string :=
  numberToColumnLetter_loop (Z.to_nat num) num EmptyString.

(** [columnIndexToLetter], from a 0-based index: the loop ends when the
    index falls to -1. *)
Fixpoint columnIndexToLetter_loop (fuel : nat) (index : Z) (letter : string) : string :=
  match fuel with
  | 0 => letter
  | S fuel' =>
      if (0 <=? index)%Z then
        columnIndexToLetter_loop fuel' (index / 26 - 1)%Z
          (String (ascii_of_nat (Z.to_nat (index mod 26 + 65))) letter)
      else letter
  end.

Definition columnIndexToLetter (index : Z) : string :=
  columnIndexToLetter_loop (S (Z.to_nat index)) index EmptyString.

Definition isUpper (c : ascii) : bool :=
  (65 <=? nat_of_ascii c) && (nat_of_ascii c <=? 90).

End ColumnLetters.

(** ** String methods of the text helpers *)

Module Text.

Definition newline : string := String (ascii_of_nat 10) EmptyString.

(** [s.replace(/c/g, r)] for a pattern that is one literal character. *)
Fixpoint replaceAllChar (c : ascii) (r : string) (s : string) : string :=
  match s with
  | EmptyString => EmptyString
  | String x s' =>
      if Ascii.eqb x c then (r ++ replaceAllChar c r s')%string
      else String x (replaceAllChar c r s')
  end.

(** [s.split(sep)] for a separator of one character; the result is never
    empty, and the empty string splits into one empty piece. *)
Fixpoint split (sep : ascii) (s : string) : list string :=
  match s with
  | EmptyString => [EmptyString]
  | String c s' =>
      if Ascii.eqb c sep then EmptyString :: split sep s'
      else
        match split sep s' with
        | first :: rest => String c first :: rest
        | [] => [String c EmptyString]
        end
  end.

(** [pieces.join(sep)] *)
Fixpoint join (sep : string) (pieces : list string) : string :=
  match pieces with
  | [] => EmptyString
  | [x] => x
  | x :: rest => (x ++ sep ++ join sep rest)%string
  end.

(** [pieces.pop()] right after a [split]: the last piece. *)
Definition pop (pieces : list string) : string := last pieces EmptyString.

(** [s.substring(a, b)]: each index is clamped to [0, s.length], and the
    two are swapped when the first is the larger. *)
Definition substring (s : string) (a b : Z) : string :=
  let len := Z.of_nat (String.length s) in
  let a' := Z.min (Z.max a 0) len in
  let b' := Z.min (Z.max b 0) len in
  let from := Z.min a' b' in
  let to := Z.max a' b' in
  String.substring (Z.to_nat from) (Z.to_nat (to - from)) s.

Definition lengthZ (s : string) : Z := Z.of_nat (String.length s).

End Text.

(** ** Text helpers of the task pane *)

Module Markup.

Import Regex Text.

(** [escapeHtml]: five replacements, one after the other, the ampersand
    first. *)
Definition escapeHtml (text : string) : string :=
  replaceAllChar ">" "&gt;"
    (replaceAllChar "<" "&lt;"
       (replaceAllChar "'" "&#39;"
          (replaceAllChar JsonText.dquote "&quot;"
             (replaceAllChar "&" "&amp;" text)))).



Definition parseTableRow (line : string) : list string :=
  let trimmed := trim line in
  let withoutBorders := substring trimmed 1 (lengthZ trimmed - 1) in
  map trim (split "|" withoutBorders).

Definition parseAlignments (line : string) : list string :=
  let cells := parseTableRow line in
  map (fun cell =>
         let trimmed := trim cell in
         let hasLeft := startsWith trimmed ":" in
         let hasRight := endsWith trimmed ":" in
         if hasLeft && hasRight then "center"
         else if hasRight then "right"
         else "left")
      cells.

(** [line.trim().startsWith('|') && line.trim().endsWith('|')] *)
Definition isTableLine (line : string) : bool :=
  startsWith (trim line) "|" && endsWith (trim line) "|".

(** The class of the separator row, [[\s\-:|]]: a white-space character,
    a hyphen, a colon or a bar. *)
Definition separatorChar : re :=
  Alt ws (Chr (fun c => Ascii.eqb c "-" || Ascii.eqb c ":" || Ascii.eqb c "|")).

(** The pattern of the separator row between its two anchors: a bar, one
    or more characters of the class, a bar. *)
Definition separatorRe : re :=
  Seq (char "|") (Seq (plus separatorChar) (char "|")).

(** [separator.test(s)]: the pattern is anchored at both ends, so the match
    starts at the first character and must use up the text. *)
Definition isSeparatorRow (s : string) : bool :=
  match mt separatorRe s None
          (fun rest _ => match rest with EmptyString => Some tt | _ => None end) with
  | Some _ => true
  | None => false
  end.

(** [nextLine && separator.test(nextLine.trim())], where [lines[i + 1]] is
    [undefined] past the last line. *)
Definition separatorFollows (rest : list string) : bool :=
  match rest with
  | nextLine :: _ =>
      negb (String.eqb nextLine EmptyString) && isSeparatorRow (trim nextLine)
  | [] => false
  end.

(** The inner loop: the table lines at the front, and the lines after them. *)
Fixpoint takeTable (lines : list string) : list string * list string :=
  match lines with
  | line :: rest =>
      if isTableLine line then let (t, r) := takeTable rest in (line :: t, r)
      else ([], lines)
  | [] => ([], [])
  end.

Section Tables.

(** The rendering of one table; its cells go through locale-dependent number
    formatting, which is left to the host. *)
Variable markdownTableToHtml : list string -> string.

(** The outer loop, on the lines from index [i] on; every round moves [i]
    forward, so the number of lines bounds the rounds. *)
Fixpoint convertLines (fuel : nat) (lines : list string) : list string :=
  match fuel with
  | 0 => []
  | S fuel' =>
      match lines with
      | [] => []
      | line :: rest =>
          if isTableLine line && separatorFollows rest then
            let (tableLines, after) := takeTable rest in
            markdownTableToHtml (line :: tableLines) :: convertLines fuel' after
          else line :: convertLines fuel' rest
      end
  end.

Definition convertMarkdownTables (content : string) : string :=
  let lines := split (ascii_of_nat 10) content in
  join newline (convertLines (List.length lines) lines).

End Tables.

End Markup.

(** ** Configuration (config.ts) *)

Module Config.

(** The variables webpack generates from the environment; an unset variable
    is [None]. *)
Record Env : Type := {
  AVAILABLE_MODELS : option string;
  DEFAULT_MODEL_ID : option string;
  AZURE_OPENAI_ENDPOINT : option string;
  AZURE_OPENAI_API_KEY : option string;
  SEARXNG_PROXY_URL : option string
}.

(** [description] is whatever truthy value the entry holds, the empty
    string otherwise. *)
Record ModelDefinition : Type := {
  id : string;
  name : string;
  description : Json
}.

Record AzureOpenAIConfig : Type := {
  endpoint : string;
  apiKey : string;
  deploymentName : string;
  apiVersion : string
}.

Record AppConfig : Type := {
  azureOpenAI : AzureOpenAIConfig;
  maxTokens : string;      (* the numbers, as written in the source *)
  temperature : string
}.

Record Validation : Type := {
  isValid : bool;
  errors : list string
}.

(** [x || ""] on a variable of the environment. *)
Definition orEmpty (x : option string) : string :=
  match x with
  | Some s => s
  | None => EmptyString
  end.

Definition stringOf (v : option Json) : string :=
  match v with
  | Some (JStr s) => s
  | _ => EmptyString
  end.

Section WithJsonParse.

Variable JSON_parse : string -> Exc Json.

Local Open Scope exc_scope.

(** The test of the filter: [m.id && m.name && typeof m.id === "string" &&
    typeof m.name === "string"]. *)
Definition isModel (m : Json) : Exc bool :=
  mid <- getProp m "id" ;;
  if negb (truthy mid) then Ok false else
  mname <- getProp m "name" ;;
  Ok (truthy mname && isString mid && isString mname).

Fixpoint filterModels (items : list Json) : Exc (list Json) :=
  match items with
  | [] => Ok []
  | m :: rest =>
      keep <- isModel m ;;
      kept <- filterModels rest ;;
      Ok (if keep then m :: kept else kept)
  end.

(** The function of the map: [{id: m.id, name: m.name, description:
    m.description || ""}]. *)
Definition toModel (m : Json) : Exc ModelDefinition :=
  mid <- getProp m "id" ;;
  mname <- getProp m "name" ;;
  mdescription <- getProp m "description" ;;
  Ok {| id := stringOf mid;
        name := stringOf mname;
        description := match mdescription with
                       | Some d => if truthy mdescription then d else JStr EmptyString
                       | None => JStr EmptyString
                       end |}.

Fixpoint mapModels (items : list Json) : Exc (list ModelDefinition) :=
  match items with
  | [] => Ok []
  | m :: rest =>
      d <- toModel m ;;
      models <- mapModels rest ;;
      Ok (d :: models)
  end.

Definition parseModelsFromEnv (env : Env) : Exc (list ModelDefinition) :=
  match AVAILABLE_MODELS env with
  | None => Ok []
  | Some EmptyString => Ok []
  | Some envModels =>
      tryCatch
        (parsed <- JSON_parse envModels ;;
         match parsed with
         | JArr (m :: rest) =>
             kept <- filterModels (m :: rest) ;;
             mapModels kept
         | _ => Ok []
         end)
        (fun _ => Ok [])
  end.

(** The module constant [availableModels]; loading the module fails if
    [parseModelsFromEnv] throws. *)
Definition availableModels (env : Env) : list ModelDefinition :=
  match parseModelsFromEnv env with
  | Ok models => models
  | Throw _ => []
  end.

(** [ENV.DEFAULT_MODEL_ID || availableModels[0]?.id || ""] *)
Definition defaultModelId (env : Env) : string :=
  orString (orEmpty (DEFAULT_MODEL_ID env))
    (orString (match availableModels env with m :: _ => id m | [] => EmptyString end)
       EmptyString).

Definition config (env : Env) : AppConfig :=
  {| azureOpenAI := {| endpoint := orEmpty (AZURE_OPENAI_ENDPOINT env);
                       apiKey := orEmpty (AZURE_OPENAI_API_KEY env);
                       deploymentName := defaultModelId env;
                       apiVersion := "2024-12-01-preview" |};
     maxTokens := "16000";
     temperature := "0.7" |}.

(** [availableModels.find((m) => m.id === modelId)] *)
Definition getModelById (env : Env) (modelId : string) : option ModelDefinition :=
  find (fun m => String.eqb (id m) modelId) (availableModels env).

Definition isEmpty (s : string) : bool := String.eqb s EmptyString.

Definition validateConfig (env : Env) : Validation :=
  let errors := [] in
  let errors :=
    if isEmpty (endpoint (azureOpenAI (config env)))
    then errors ++ ["AZURE_OPENAI_ENDPOINT no está configurado en .env"] else errors in
  let errors :=
    if isEmpty (apiKey (azureOpenAI (config env)))
    then errors ++ ["AZURE_OPENAI_API_KEY no está configurado en .env"] else errors in
  let errors :=
    if isEmpty (deploymentName (azureOpenAI (config env)))
    then errors ++ ["El nombre del deployment/modelo no está configurado"] else errors in
  {| isValid := List.length errors =? 0; errors := errors |}.

End WithJsonParse.

End Config.

(** ** The conversation with the model (AzureOpenAIService)

    The service keeps the conversation history and the selected model;
    [fetch] is the network: [network] lists what the coming requests resolve
    to or are rejected with, and [sent] logs the requests made. *)

Module ServiceState.

Import Parser Config Text.

Inductive Role : Type := system | user | assistant.

(** [content] is a string for the messages the service writes; for the
    reply it is whatever the response holds at
    [choices[0].message.content], [None] standing for [undefined]. *)
Record ChatMessage : Type := {
  role : Role;
  content : option Json
}.

(** What a throw carries: an [AzureOpenAIError], or any other value. *)
Inductive Raised : Type :=
| AzureOpenAIError (message : string) (statusCode : option nat) (details : option string)
| Other (t : Thrown).

Inductive Outcome (A : Type) : Type :=
| Done (a : A)
| Raise (e : Raised).

Arguments Done {A} a.
Arguments Raise {A} e.

(** A [Response] of [fetch]: [text()] and [json()] may reject. *)
Record HttpResponse : Type := {
  ok : bool;
  status : nat;
  text : Exc string;
  json : Exc Json
}.

Inductive BodyValue : Type :=
| Messages (l : list ChatMessage)
| Number (lexeme : string)
| Null.

Record Request : Type := {
  url : string;
  api_key : string;
  body : list (string * BodyValue)
}.

Record Service : Type := {
  conversationHistory : list ChatMessage;
  currentModelId : string;
  network : list (Exc HttpResponse);
  sent : list Request
}.

Definition withHistory (s : Service) (h : list ChatMessage) : Service :=
  {| conversationHistory := h; currentModelId := currentModelId s;
     network := network s; sent := sent s |}.

Definition withModel (s : Service) (modelId : string) : Service :=
  {| conversationHistory := conversationHistory s; currentModelId := modelId;
     network := network s; sent := sent s |}.

Definition maxHistoryLength : nat := 20.

(** *** The service monad: state and exceptions *)

Definition M (A : Type) : Type := Service -> Outcome A * Service.

Definition ret {A} (a : A) : M A := fun s => (Done a, s).

Definition bind {A B} (m : M A) (f : A -> M B) : M B :=
  fun s =>
    match m s with
    | (Done a, s') => f a s'
    | (Raise e, s') => (Raise e, s')
    end.

Definition throw {A} (e : Raised) : M A := fun s => (Raise e, s).

(** [try { m } catch (error) { handler error }] *)
Definition tryCatch {A} (m : M A) (handler : Raised -> M A) : M A :=
  fun s =>
    match m s with
    | (Done a, s') => (Done a, s')
    | (Raise e, s') => handler e s'
    end.

(** A computation of the platform that returns or throws. *)
Definition lift {A} (x : Exc A) : M A :=
  match x with
  | Ok a => ret a
  | Throw t => throw (Other t)
  end.

(** [fetch(url, init)]: the next answer of the network; with none left the
    request is rejected. *)
Definition fetch (r : Request) : M HttpResponse :=
  fun s =>
    let s' := {| conversationHistory := conversationHistory s;
                 currentModelId := currentModelId s;
                 network := tl (network s); sent := sent s ++ [r] |} in
    match network s with
    | Ok response :: _ => (Done response, s')
    | Throw t :: _ => (Raise (Other t), s')
    | [] => (Raise (Other (ErrorObj "Failed to fetch")), s')
    end.

Definition push (m : ChatMessage) : M unit :=
  fun s => (Done tt, withHistory s (conversationHistory s ++ [m])).

Definition pop : M unit :=
  fun s => (Done tt, withHistory s (removelast (conversationHistory s))).

Definition get {A} (f : Service -> A) : M A := fun s => (Done (f s), s).

End ServiceState.

Declare Scope service_scope.
Delimit Scope service_scope with service.
Notation "x <- m ;; k" := (ServiceState.bind m (fun x => k))
  (at level 61, m at next level, right associativity) : service_scope.
Notation "m ;;; k" := (ServiceState.bind m (fun _ => k))
  (at level 61, right associativity) : service_scope.

Module AzureOpenAIService.

Import Parser Config Text ServiceState.
Local Open Scope service_scope.

(** *** Property reads on a parsed response *)

(** [v.k] where [v] may be [undefined]. *)
Definition prop (v : option Json) (k : string) : Exc (option Json) :=
  match v with
  | None => Throw (ErrorObj "Cannot read properties of undefined")
  | Some j => getProp j k
  end.

(** [v.length === 0] for a truthy [v]. *)
Definition lengthIsZero (v : Json) : bool :=
  match v with
  | JArr items => match items with [] => true | _ => false end
  | JStr s => String.eqb s EmptyString
  | JObj members =>
      match lookupLast "length" members with
      | Some (JNum lexeme) => zeroMantissa lexeme
      | _ => false
      end
  | _ => false
  end.

(** [v[0]] *)
Definition first (v : Json) : option Json :=
  match v with
  | JArr items => hd_error items
  | JStr (String c _) => Some (JStr (String c EmptyString))
  | JObj members => lookupLast "0" members
  | _ => None
  end.

(** [s.replace(/\/$/, "")]: one slash at the end is dropped. *)
Fixpoint dropFinalSlash (s : string) : string :=
  match s with
  | EmptyString => EmptyString
  | String c EmptyString => if Ascii.eqb c "/" then EmptyString else s
  | String c rest => String c (dropFinalSlash rest)
  end.

(** The last [n] items: [items.slice(-n)]. *)
Definition lastItems {A} (n : nat) (items : list A) : list A :=
  skipn (List.length items - n) items.

Definition trimmed (history : list ChatMessage) : list ChatMessage :=
  if maxHistoryLength <? List.length history then
    match history with
    | systemMessage :: _ => systemMessage :: lastItems (maxHistoryLength - 1) history
    | [] => history
    end
  else history.

Definition trimHistory : M unit :=
  fun s => (Done tt, withHistory s (trimmed (conversationHistory s))).

(** [history[history.length - 1]?.role === "user"] *)
Definition lastIsUser (history : list ChatMessage) : bool :=
  match last (map Some history) None with
  | Some m => match role m with user => true | _ => false end
  | None => false
  end.

Section Service.

Variable JSON_parse : string -> Exc Json.
Variable env : Env.

(** The text of the system prompt. *)
Variable ENHANCED_SYSTEM_PROMPT : string.

(** [String(v)] for a value that is not a string, as the [Error]
    constructor applies it to its message. *)
Variable ToString : Json -> string.

Definition initialHistory : list ChatMessage :=
  [ {| role := system; content := Some (JStr ENHANCED_SYSTEM_PROMPT) |} ].

(** A service as its constructor leaves it. *)
Definition newService (answers : list (Exc HttpResponse)) : Service :=
  {| conversationHistory := initialHistory;
     currentModelId := defaultModelId JSON_parse env;
     network := answers; sent := [] |}.

Definition clearHistory : M unit :=
  fun s => (Done tt, withHistory s initialHistory).

Definition getHistory : M (list ChatMessage) :=
  get (fun s => filter (fun msg => match role msg with system => false | _ => true end)
                  (conversationHistory s)).

Definition getCurrentModelName : M string :=
  get (fun s => match getModelById JSON_parse env (currentModelId s) with
                | Some model => orString (name model) (currentModelId s)
                | None => currentModelId s
                end).

Definition setModel (modelId : string) : M bool :=
  fun s =>
    match getModelById JSON_parse env modelId with
    | Some _ => (Done true, withModel s modelId)
    | None => (Done false, s)
    end.

Definition buildApiUrl (s : Service) : string :=
  let baseUrl := dropFinalSlash (endpoint (azureOpenAI (config JSON_parse env))) in
  (baseUrl ++ "/openai/deployments/" ++ currentModelId s
   ++ "/chat/completions?api-version=" ++ apiVersion (azureOpenAI (config JSON_parse env)))%string.

Definition isNewModel (modelId : string) : bool :=
  startsWith modelId "o3" || startsWith modelId "o4"
  || includes modelId "5.2" || includes modelId "5.3".

Definition requestBody (s : Service) : list (string * BodyValue) :=
  if isNewModel (currentModelId s) then
    [("messages", Messages (conversationHistory s));
     ("max_completion_tokens", Number (maxTokens (config JSON_parse env)))]
  else
    [("messages", Messages (conversationHistory s));
     ("max_tokens", Number (maxTokens (config JSON_parse env)));
     ("temperature", Number (temperature (config JSON_parse env)));
     ("top_p", Number "0.95");
     ("frequency_penalty", Number "0");
     ("presence_penalty", Number "0");
     ("stop", Null)].

(** The message of the error for a response that is not [ok]:
    [errorJson.error?.message || errorMessage] inside the try, and
    [errorText || errorMessage] in its catch. *)
Definition apiErrorMessage (statusCode : nat) (errorText : string) : string :=
  let errorMessage := ("Error de API: " ++ showNat statusCode)%string in
  match Js.bind (JSON_parse errorText) (fun errorJson => getProp errorJson "error") with
  | Ok e =>
      let m := match e with
               | None => None
               | Some JNull => None
               | Some v => match getProp v "message" with Ok m => m | Throw _ => None end
               end in
      match m with
      | Some (JStr str) => orString str errorMessage
      | Some v => if truthy m then ToString v else errorMessage
      | None => errorMessage
      end
  | Throw _ => orString errorText errorMessage
  end.

(** [parseStructuredResponse(assistantMessage)]: [content.match] is a
    TypeError on anything but a string. *)
Definition parseReply (assistantMessage : option Json) : Exc StructuredResponse :=
  match assistantMessage with
  | Some (JStr content) => parseStructuredResponse JSON_parse content
  | _ => Throw (ErrorObj "content.match is not a function")
  end.

Definition fullMessage (userMessage : string) (excelContext : option string) : string :=
  match excelContext with
  | None => userMessage
  | Some EmptyString => userMessage
  | Some context =>
      ("Contexto de Excel (selección actual):" ++ newline ++ "```" ++ newline ++ context
       ++ newline ++ "```" ++ newline ++ newline ++ "Petición: " ++ userMessage)%string
  end.

Definition sendMessageStructured (userMessage : string) (excelContext : option string)
    : M StructuredResponse :=
  let validation := validateConfig JSON_parse env in
  if negb (isValid validation) then
    throw (AzureOpenAIError
             ("Configuración incompleta: " ++ join ", " (errors validation))%string
             None None)
  else
    push {| role := user; content := Some (JStr (fullMessage userMessage excelContext)) |} ;;;
    trimHistory ;;;
    tryCatch
      (request <- get (fun s => {| url := buildApiUrl s;
                                   api_key := apiKey (azureOpenAI (config JSON_parse env));
                                   body := requestBody s |}) ;;
       response <- fetch request ;;
       if negb (ok response) then
         errorText <- lift (text response) ;;
         let errorMessage := apiErrorMessage (status response) errorText in
         pop ;;;
         throw (AzureOpenAIError errorMessage (Some (status response)) (Some errorText))
       else
         data <- lift (json response) ;;
         choices <- lift (getProp data "choices") ;;
         if negb (truthy choices)
            || match choices with Some c => lengthIsZero c | None => false end
         then
           pop ;;;
           throw (AzureOpenAIError "No se recibió respuesta del modelo" None None)
         else
           message <- lift (prop (match choices with Some c => first c | None => None end)
                              "message") ;;
           assistantMessage <- lift (prop message "content") ;;
           push {| role := assistant; content := assistantMessage |} ;;;
           lift (parseReply assistantMessage))
      (fun error =>
         match error with
         | AzureOpenAIError _ _ _ => throw error
         | Other t =>
             history <- get conversationHistory ;;
             (if lastIsUser history then pop else ret tt) ;;;
             throw (AzureOpenAIError
                      ("Error de conexión: " ++ messageOr "Error desconocido" t)%string
                      None None)
         end).

(** [sendMessage]: the message of the structured response. *)
Definition sendMessage (userMessage : string) (excelContext : option string) : M string :=
  response <- sendMessageStructured userMessage excelContext ;;
  ret (Parser.message response).

End Service.

End AzureOpenAIService.

(** ** Sample services *)

Module ServiceSamples.

Import Parser Config Text ServiceState AzureOpenAIService.

Definition env : Env :=
  {| AVAILABLE_MODELS := Some (JsonText.q "[{'id':'gpt-4o','name':'GPT-4o'}]");
     DEFAULT_MODEL_ID := None;
     AZURE_OPENAI_ENDPOINT := Some "https://example.openai.azure.com/";
     AZURE_OPENAI_API_KEY := Some "secret";
     SEARXNG_PROXY_URL := None |}.

Definition prompt : string := "Eres un EXPERTO PROFESIONAL en Microsoft Excel".

Definition render (v : Json) : string := "[object Object]".

(** A response whose first choice carries [content]. *)
Definition replyWith (content : Json) : HttpResponse :=
  {| ok := true; status := 200; text := Ok EmptyString;
     json := Ok (JObj [("choices", JArr [JObj [("message", JObj [("content", content)])]])]) |}.

(** A response with the body [body], read by [JsonText.parse]. *)
Definition replyOf (body : string) : HttpResponse :=
  {| ok := true; status := 200; text := Ok body; json := JsonText.parse body |}.

(** The body of a completion whose text the content filter withheld. *)
Definition filtered : string :=
  JsonText.q "{'id':'chatcmpl-1','object':'chat.completion','choices':[{'index':0,'finish_reason':'content_filter','message':{'role':'assistant','content':null}}],'usage':{'total_tokens':12}}".

Definition unavailable : HttpResponse :=
  {| ok := false; status := 503;
     text := Ok (JsonText.q "{'error':{'message':'The service is unavailable'}}");
     json := Throw (ErrorObj "body used already") |}.

Definition fresh (answers : list (Exc HttpResponse)) : Service :=
  newService JsonText.parse env prompt answers.

Definition earlier : ChatMessage := {| role := user; content := Some (JStr "first question") |}.

Definition filler : ChatMessage := {| role := assistant; content := Some (JStr "ok") |}.

(** A service whose history holds 20 messages. *)
Definition full (answers : list (Exc HttpResponse)) : Service :=
  {| conversationHistory :=
       {| role := system; content := Some (JStr prompt) |} :: earlier :: repeat filler 18;
     currentModelId := "gpt-4o";
     network := answers;
     sent := [] |}.

End ServiceSamples.

(** ** Fetching web content (webSearchService.ts)

    The proxy is reached through [fetch]; [answers] lists what the coming
    requests resolve to or are rejected with, and [requested] logs their
    URLs.  A body is taken to have the shape its TypeScript type declares. *)

Module WebContent.

Record WebTable : Type := {
  headers : list string;
  rows : list (list string)
}.

Record DownloadLink : Type := {
  linkText : string;
  linkUrl : string;
  linkType : string
}.

Inductive ContentType : Type := html | json.

(** [WebContentResponse]; an optional field that is absent is [None]. *)
Record WebContentResponse : Type := {
  type : ContentType;
  url : string;
  title : option string;
  textContent : option (list string);
  tables : option (list WebTable);
  downloadLinks : option (list DownloadLink);
  fetchedAt : string;
  error : option string
}.

Record ProxyResponse : Type := {
  ok : bool;
  status : nat;
  statusText : string;
  body : Exc (option WebContentResponse)
    (* [response.json()]; [None] when the body is the JSON value [null] *)
}.

Record Net : Type := {
  answers : list (Exc ProxyResponse);
  requested : list string
}.

Definition Web (A : Type) : Type := Net -> Exc A * Net.

Definition ret {A} (a : A) : Web A := fun n => (Ok a, n).

Definition bind {A B} (m : Web A) (f : A -> Web B) : Web B :=
  fun n =>
    match m n with
    | (Ok a, n') => f a n'
    | (Throw t, n') => (Throw t, n')
    end.

Definition throw {A} (t : Thrown) : Web A := fun n => (Throw t, n).

Definition tryCatch {A} (m : Web A) (handler : Thrown -> Web A) : Web A :=
  fun n =>
    match m n with
    | (Ok a, n') => (Ok a, n')
    | (Throw t, n') => handler t n'
    end.

Definition lift {A} (x : Exc A) : Web A := fun n => (x, n).

(** [fetch(fetchUrl, init)]; with no answer left the request is rejected. *)
Definition fetch (fetchUrl : string) : Web ProxyResponse :=
  fun n =>
    let n' := {| answers := tl (answers n); requested := requested n ++ [fetchUrl] |} in
    match answers n with
    | x :: _ => (x, n')
    | [] => (Throw (ErrorObj "Failed to fetch"), n')
    end.

(** [x] is truthy: a string that is present and not empty. *)
Definition given (x : option string) : bool :=
  match x with
  | Some (String _ _) => true
  | _ => false
  end.

(** [items?.length || 0] *)
Definition count {A} (items : option (list A)) : nat :=
  match items with
  | Some l => List.length l
  | None => 0
  end.

Section Proxy.

(** [SEARXNG_CONFIG.baseUrl], [encodeURIComponent] and the clock read
    by [new Date().toISOString()]. *)
Variable baseUrl : string.
Variable encodeURIComponent : string -> string.
Variable now : string.

Definition fetchUrlOf (target : string) (useJsRendering : bool) : string :=
  let endpoint := if useJsRendering then "/fetch-js" else "/fetch" in
  (baseUrl ++ endpoint ++ "?url=" ++ encodeURIComponent target)%string.

Definition fetchWebContent (target : string) (useJsRendering : bool)
    : Web (option WebContentResponse) :=
  tryCatch
    (bind (fetch (fetchUrlOf target useJsRendering)) (fun response =>
     if negb (ok response) then
       throw (ErrorObj ("HTTP " ++ showNat (status response) ++ ": "
                        ++ statusText response)%string)
     else
       bind (lift (body response)) (fun data => ret data)))
    (fun error =>
       ret (Some {| type := html; url := target; title := None; textContent := None;
                    tables := None; downloadLinks := None; fetchedAt := now;
                    error := Some (messageOr "Error desconocido" error) |})).

(** [!r.error && ((r.textContent && r.textContent.length > 3) ||
    (r.tables && r.tables.length > 0))] *)
Definition hasUsefulContent (r : WebContentResponse) : bool :=
  negb (given (error r))
  && ((match textContent r with Some l => 3 <? List.length l | None => false end)
      || (match tables r with Some l => 0 <? List.length l | None => false end)).

(** [r.error] on what [fetchWebContent] returned: a TypeError on [null]. *)
Definition nullResult : Thrown :=
  ErrorObj "Cannot read properties of null (reading 'error')".

(** [fetchWebContentSmart]; the reads of [staticResult.error] and of
    [jsResult.error] are outside every try block. *)
Definition fetchWebContentSmart (target : string) : Web WebContentResponse :=
  bind (fetchWebContent target false) (fun staticResult =>
  match staticResult with
  | None => throw nullResult
  | Some static =>
      if negb (hasUsefulContent static) then
        bind (fetchWebContent target true) (fun jsResult =>
        match jsResult with
        | None => throw nullResult
        | Some js =>
            if negb (given (error js))
               && (count (textContent static) <? count (textContent js))
            then ret js
            else ret static
        end)
      else ret static
  end).

End Proxy.

(** [getPdfLinksFromContent]; [toLowerCase] is the case mapping of the
    platform. *)
Definition getPdfLinksFromContent (toLowerCase : string -> string)
    (content : WebContentResponse) : list DownloadLink :=
  match downloadLinks content with
  | None => []
  | Some links => filter (fun link => String.eqb (toLowerCase (linkType link)) "pdf") links
  end.

End WebContent.

(** ** Column queries of the Excel service *)

Module ColumnQueries.

Import Excel ExcelService.
Local Open Scope excel_scope.

Record UniqueValues : Type := {
  values : list string;
  hasMore : bool
}.

Section Printing.

(** [String(n)] for a number: the text Number::toString gives it, which is
    the decimal numeral for the numbers of moderate size and a numeral with
    an exponent for the others. *)
Variable numberToString : Z -> string.

(** [String(val)] for a cell value. *)
Definition stringOfValue (val : CellValue) : string :=
  match val with
  | VStr s => s
  | VNum n => numberToString n
  | VBool true => "true"
  | VBool false => "false"
  | VNull => "null"
  end.

(** [String(val || "")]: a falsy value gives the empty string. *)
Definition textOf (val : CellValue) : string :=
  match val with
  | VStr s => s
  | VNum n => if (n =? 0)%Z then EmptyString else numberToString n
  | VBool true => "true"
  | VBool false => EmptyString
  | VNull => EmptyString
  end.

(** [uniqueSet.add(v)]: a set keeps its members in the order they came. *)
Definition add (v : string) (uniqueSet : list string) : list string :=
  if existsb (String.eqb v) uniqueSet then uniqueSet else uniqueSet ++ [v].

(** The loop over [columnRange.values], with its [break]. *)
Fixpoint collect (limit : Z) (rows : Matrix) (uniqueSet : list string) : list string :=
  match rows with
  | [] => uniqueSet
  | row :: rest =>
      match hd_error row with
      | Some val =>
          if isNonEmpty val then
            let uniqueSet := add (stringOfValue val) uniqueSet in
            if (limit <=? Z.of_nat (List.length uniqueSet))%Z then uniqueSet
            else collect limit rest uniqueSet
          else collect limit rest uniqueSet
      | None => collect limit rest uniqueSet
      end
  end.

(** The address of the data cells of a column: from row 2 to [totalRows]. *)
Definition dataCells (column : string) (totalRows : nat) : string :=
  (column ++ "2:" ++ column ++ showNat totalRows)%string.

Definition getUniqueValues (column : string) (limit : Z) : Excel UniqueValues :=
  tryCatch
    (run (
       sync ;;;
       usedRange <- getUsedRangeOrNullObject ;;
       match usedRange with
       | None => ret {| values := []; hasMore := false |}
       | Some used =>
           let totalRows := rowCount used in
           columnRange <- getRange (dataCells column totalRows) ;;
           sync ;;;
           vals <- valuesOf columnRange ;;
           let uniqueSet := collect limit vals [] in
           ret {| values := uniqueSet;
                  hasMore := (limit <=? Z.of_nat (List.length uniqueSet))%Z |}
       end))
    (fun _ => ret {| values := []; hasMore := false |}).

(** *** Counting by category *)

Record CategoryCount : Type := {
  category : string;
  count : nat
}.

(** [counts.set(category, (counts.get(category) || 0) + 1)] on a [Map],
    which keeps its keys in the order they were first set. *)
Fixpoint increment (category : string) (counts : list (string * nat)) : list (string * nat) :=
  match counts with
  | [] => [(category, 1)]
  | (k, v) :: rest =>
      if String.eqb k category then (k, v + 1) :: rest
      else (k, v) :: increment category rest
  end.

(** [String(row[0] || "").trim()] *)
Definition firstText (row : list CellValue) : string :=
  trim (match hd_error row with
        | Some cell => textOf cell
        | None => EmptyString
        end).

(** [array.sort((a, b) => b.count - a.count)]: the sort is stable, so an
    entry goes before the first entry with a smaller count. *)
Fixpoint insertByCount (x : CategoryCount) (sorted : list CategoryCount)
    : list CategoryCount :=
  match sorted with
  | [] => [x]
  | y :: rest =>
      if count y <? count x then x :: y :: rest
      else y :: insertByCount x rest
  end.

Definition sortByCount (entries : list CategoryCount) : list CategoryCount :=
  fold_left (fun sorted x => insertByCount x sorted) entries [].

(** The worksheet a blank sheet reports as its used range: its first
    cell. *)
Definition firstCell : Rect := {| top := 1; left := 1; rowCount := 1; columnCount := 1 |}.

Section Categories.

(** The used range of the worksheets other than the active one, and the
    case mapping of the platform. *)
Variable otherUsedRange : string -> option Rect.
Variable toUpperCase : string -> string.

(** The worksheet of the query: the one named [sheetName] when there is
    one, the active one otherwise; its values and its used range. *)
Definition pickSheet (sheetName : option string) : Excel (Sheet * option Rect) :=
  match sheetName with
  | Some (String c n) =>
      sync ;;;
      (fun h =>
         if String.eqb (String c n) (activeName h) then (Ok (cells h, usedRange h), h)
         else
           match otherSheets h (String c n) with
           | Some s => (Ok (s, otherUsedRange (String c n)), h)
           | None => (Ok (cells h, usedRange h), h)
           end)
  | _ => fun h => (Ok (cells h, usedRange h), h)
  end.

(** The loop over [categoryValues], from index [i] on. *)
Fixpoint tally (categoryValues : Matrix) (i : nat) (filter : option (Matrix * string))
    (counts : list (string * nat)) : Exc (list (string * nat)) :=
  match categoryValues with
  | [] => Ok counts
  | row :: rest =>
      let category := firstText row in
      if String.eqb category EmptyString then tally rest (S i) filter counts
      else
        match filter with
        | Some (filterValues, filterValue) =>
            match nth_error filterValues i with
            | Some filterRow =>
                let filterVal := toUpperCase (firstText filterRow) in
                if String.eqb filterVal (toUpperCase filterValue)
                then tally rest (S i) filter (increment category counts)
                else tally rest (S i) filter counts
            | None => Throw (ErrorObj "Cannot read properties of undefined")
            end
        | None => tally rest (S i) filter (increment category counts)
        end
  end.

(** [filterColumn && filterValue] *)
Definition filterOf (filterColumn filterValue : option string) : option (string * string) :=
  match filterColumn, filterValue with
  | Some (String c1 s1), Some (String c2 s2) => Some (String c1 s1, String c2 s2)
  | _, _ => None
  end.

Definition getUniqueCountsByCategory (categoryColumn : string)
    (filterColumn filterValue sheetName : option string) : Excel (list CategoryCount) :=
  tryCatch
    (run (
       ws <- pickSheet sheetName ;;
       sync ;;;
       let lastRow := rowCount (match snd ws with Some used => used | None => firstCell end) in
       categoryRange <- getRange (dataCells categoryColumn lastRow) ;;
       filterRange <- match filterOf filterColumn filterValue with
                      | Some (column, v) =>
                          r <- getRange (dataCells column lastRow) ;; ret (Some (r, v))
                      | None => ret None
                      end ;;
       sync ;;;
       let categoryValues := readRect (fst ws) categoryRange in
       let filter := match filterRange with
                     | Some (r, v) => Some (readRect (fst ws) r, v)
                     | None => None
                     end in
       match tally categoryValues 0 filter [] with
       | Ok counts =>
           ret (sortByCount (map (fun kv => {| category := fst kv; count := snd kv |}) counts))
       | Throw t => throw t
       end))
    (fun _ => throw (ErrorObj "No se pudieron obtener las categorías únicas")).

End Categories.

End Printing.

(** The decimal numeral of a number. *)
Definition decimal (n : Z) : string := NilEmpty.string_of_int (Z.to_int n).

End ColumnQueries.

(** ** Patterns with alternatives

    The matcher of the patterns that need an optional part: single code
    units, sequence, ordered alternatives and greedy repetition, with the
    backtracking order of ECMAScript.  [a?] is the alternative of [a] and the
    empty pattern, tried in that order. *)

Module Pattern.

Inductive pat : Type :=
| Eps
| Chr (p : ascii -> bool)
| Seq (a b : pat)
| Alt (a b : pat)
| Star (a : pat).

Section Matcher.
Variable R : Type.

(** Greedy repetition: one more iteration that consumes something, or the
    continuation. *)
Fixpoint starLoop (ma : string -> (string -> option R) -> option R)
    (k : string -> option R) (n : nat) (s : string) {struct n} : option R :=
  match n with
  | 0 => k s
  | S n' =>
      match ma s (fun s' =>
              if String.length s' <? String.length s then starLoop ma k n' s' else None) with
      | Some x => Some x
      | None => k s
      end
  end.

(** [mt r s k]: match [r] at the front of [s], then continue with [k] on
    the rest. *)
Fixpoint mt (r : pat) (s : string) (k : string -> option R) : option R :=
  match r with
  | Eps => k s
  | Chr p =>
      match s with
      | String c s' => if p c then k s' else None
      | EmptyString => None
      end
  | Seq a b => mt a s (fun s' => mt b s' k)
  | Alt a b =>
      match mt a s k with
      | Some x => Some x
      | None => mt b s k
      end
  | Star a => starLoop (mt a) k (String.length s) s
  end.

End Matcher.

Definition opt (a : pat) : pat := Alt a Eps.                 (* a? *)
Definition plus (a : pat) : pat := Seq a (Star a).           (* a+ *)
Definition char (c : ascii) : pat := Chr (Ascii.eqb c).

Fixpoint seqs (rs : list pat) : pat :=
  match rs with
  | [] => Eps
  | [r] => r
  | r :: rs' => Seq r (seqs rs')
  end.

(** The number of characters the pattern takes at the front of [s]. *)
Definition matchAt (r : pat) (s : string) : option nat :=
  mt r s (fun rest => Some (String.length s - String.length rest)).

(** The text after the first [n] characters. *)
Fixpoint skip (n : nat) (s : string) : string :=
  match n, s with
  | S n', String _ s' => skip n' s'
  | _, _ => s
  end.

(** [s.replace(r, f)] for a pattern with the [g] flag and a function [f] of
    the matched text: the matches are sought from left to right, each after
    the end of the one before; after an empty match the next character is
    copied. *)
Fixpoint replaceAll (fuel : nat) (r : pat) (f : string -> string) (s : string) : string :=
  match fuel with
  | 0 => s
  | S fuel' =>
      let copy := match s with
                  | EmptyString => EmptyString
                  | String c s' => String c (replaceAll fuel' r f s')
                  end in
      match matchAt r s with
      | Some (S n) => (f (String.substring 0 (S n) s) ++ replaceAll fuel' r f (skip (S n) s))%string
      | Some 0 => (f EmptyString ++ copy)%string
      | None => copy
      end
  end.

Definition replace (r : pat) (f : string -> string) (s : string) : string :=
  replaceAll (S (String.length s)) r f s.

(** [s.match(r)[0]] for a pattern with the [g] flag: the leftmost match, or
    [None] for [null]. *)
Fixpoint firstMatch (r : pat) (s : string) : option string :=
  match matchAt r s with
  | Some n => Some (String.substring 0 n s)
  | None =>
      match s with
      | EmptyString => None
      | String _ s' => firstMatch r s'
      end
  end.

End Pattern.

(** ** References of the formulas of the calculation sheet *)

Module FormulaReferences.

Import Pattern.

Definition dquote : ascii := JsonText.dquote.
Definition backslash : ascii := JsonText.backslash.

Definition isDigit (c : ascii) : bool :=
  (48 <=? nat_of_ascii c) && (nat_of_ascii c <=? 57).

(** [a-zA-Z0-9_] *)
Definition isWordChar (c : ascii) : bool :=
  Excel.isLetter c || isDigit c || Ascii.eqb c "_".

Fixpoint existsChar (p : ascii -> bool) (s : string) : bool :=
  match s with
  | EmptyString => false
  | String c s' => p c || existsChar p s'
  end.

(** The name between apostrophes when it has a blank or any character that
    is not a letter, a digit or an underscore. *)
Definition escapedSheetName (sheetName : string) : string :=
  if includes sheetName " " || existsChar (fun c => negb (isWordChar c)) sheetName
  then ("'" ++ sheetName ++ "'")%string
  else sheetName.

(** One corner of a reference: an optional dollar, letters, an optional
    dollar, digits.  The pattern has the [i] flag, so the letters are of
    either case. *)
Definition cellPattern : pat :=
  seqs [opt (char "$"); plus (Chr Excel.isLetter); opt (char "$"); plus (Chr isDigit)].

(** The pattern of the references: a corner, and optionally a colon and a
    second corner. *)
Definition rangePattern : pat :=
  Seq cellPattern (opt (Seq (char ":") cellPattern)).

(** The loop that cuts the formula at its double quotes; [prev] is the
    character before the current one, [None] at index 0. *)
Fixpoint splitQuotes (prev : option ascii) (formula : string) (parts : list string)
    (current : string) (inQuotes : bool) : list string :=
  match formula with
  | EmptyString =>
      match current with
      | EmptyString => parts
      | _ => parts ++ [current]
      end
  | String c rest =>
      if Ascii.eqb c dquote
         && match prev with
            | None => true
            | Some p => negb (Ascii.eqb p backslash)
            end
      then
        if inQuotes then
          splitQuotes (Some c) rest
            (parts ++ [(String dquote current ++ String dquote EmptyString)%string])
            EmptyString (negb inQuotes)
        else
          match current with
          | EmptyString => splitQuotes (Some c) rest parts current (negb inQuotes)
          | _ => splitQuotes (Some c) rest (parts ++ [current]) EmptyString (negb inQuotes)
          end
      else splitQuotes (Some c) rest parts (current ++ String c EmptyString) inQuotes
  end.

(** What the map does to one part. *)
Definition processPart (escaped : string) (part : string) : string :=
  if startsWith part (String dquote EmptyString) then part
  else
    replace rangePattern
      (fun m => if includes part "!" then m else (escaped ++ "!" ++ m)%string)
      part.

Definition adjustFormulaReferences (formula sheetName : string) : string :=
  let escaped := escapedSheetName sheetName in
  let parts := splitQuotes None formula [] EmptyString false in
  Text.join EmptyString (map (processPart escaped) parts).

End FormulaReferences.

(** ** URLs in a message (webSearchService.ts) *)

Module Urls.

Import Pattern.

Definition lower (c : ascii) : ascii :=
  let n := nat_of_ascii c in
  if (65 <=? n) && (n <=? 90) then ascii_of_nat (n + 32) else c.

(** A letter of the pattern under the [i] flag. *)
Definition letter (c : ascii) : pat := Chr (fun x => Ascii.eqb (lower x) c).

(** The class that ends a URL: white space and the characters the
    pattern lists. *)
Definition endsUrl (c : ascii) : bool :=
  isWhiteSpace c
  || existsb (Ascii.eqb c)
       ["<"; ">"; JsonText.dquote; "{"; "}"; "|"; JsonText.backslash; "^"; "`"; "["; "]"]%char.

(** The pattern of a URL: http, an optional s, a colon and two slashes,
    then one or more characters outside the class above. *)
Definition urlPattern : pat :=
  seqs [letter "h"; letter "t"; letter "t"; letter "p"; opt (letter "s");
        char ":"; char "/"; char "/"; plus (Chr (fun c => negb (endsUrl c)))].

Definition extractUrlFromMessage (message : string) : option string :=
  firstMatch urlPattern message.

End Urls.

(** ** Direct reads and writes of the Excel service *)

Module DirectAccess.

Import Excel ExcelService.
Local Open Scope excel_scope.

Record UsedRangeInfo : Type := {
  address : string;
  lastRow : nat;
  lastColumn : string
}.

Section Addresses.

(** [range.address] as the host reports it for a region of the active
    worksheet, the name of the worksheet in front. *)
Variable addressOf : Rect -> string.

(** [parts.length > 1 ? parts[1] : whole] for the parts around the
    exclamation marks. *)
Definition withoutSheet (whole : string) : string :=
  match Text.split "!" whole with
  | _ :: second :: _ => second
  | _ => whole
  end.

(** [getUsedRangeInfo]; the loop that writes [lastColumn] is the loop of
    [numberToColumn], run on the column count. *)
Definition getUsedRangeInfo : Excel (option UsedRangeInfo) :=
  tryCatch
    (run (
       sync ;;;
       usedRange <- getUsedRangeOrNullObject ;;
       match usedRange with
       | None => ret None
       | Some used =>
           ret (Some {| address := withoutSheet (addressOf used);
                        lastRow := rowCount used;
                        lastColumn := numberToColumn (columnCount used) |})
       end))
    (fun _ => ret None).

Definition writeToRange (target : string) (values : Matrix) : Excel string :=
  tryCatch
    (run (
       range <- getRange target ;;
       enqueue (SetValues range values) ;;;
       sync ;;;
       ret (addressOf range)))
    (fun _ => throw (ErrorObj ("Error al escribir en el rango " ++ target)%string)).

Definition writeFormulasToRange (target : string) (formulas : list (list string))
    : Excel string :=
  tryCatch
    (run (
       range <- getRange target ;;
       let normalizedFormulas := map (map normalizeFormula) formulas in
       enqueue (SetFormulas range normalizedFormulas) ;;;
       sync ;;;
       ret (addressOf range)))
    (fun _ => throw (ErrorObj ("Error al escribir fórmulas en " ++ target)%string)).

End Addresses.

End DirectAccess.

(** * Properties of the response parser *)

Module RegexFacts.

Import Regex.

(** A pattern that records the capture group on every match. *)
Fixpoint setsGroup (r : re) : bool :=
  match r with
  | Chr _ => false
  | Seq a b => setsGroup a || setsGroup b
  | Alt a b => setsGroup a && setsGroup b
  | Star _ _ => false
  | Group _ => true
  end.

(** The test the first character of any match has to pass, when there is
    one. *)
Fixpoint firstChar (r : re) : option (ascii -> bool) :=
  match r with
  | Chr p => Some p
  | Seq a _ => firstChar a
  | Alt a b =>
      match firstChar a, firstChar b with
      | Some p, Some q => Some (fun c => p c || q c)
      | _, _ => None
      end
  | Star _ _ => None
  | Group a => firstChar a
  end.

Fixpoint noneSat (p : ascii -> bool) (s : string) : bool :=
  match s with
  | EmptyString => true
  | String c s' => negb (p c) && noneSat p s'
  end.

Section Inversion.
Variable R : Type.

Definition reaches (k : string -> option string -> option R) (x : R)
    (ok : option string -> Prop) : Prop :=
  exists s' cap', k s' cap' = Some x /\ ok cap'.

Lemma starLoop_inv (ma : Matcher R) (greedy : bool)
    (Hma : forall s cap k x, ma s cap k = Some x ->
             reaches k x (fun cap' => cap <> None -> cap' <> None)) :
  forall k n s cap x,
    starLoop ma greedy k n s cap = Some x ->
    reaches k x (fun cap' => cap <> None -> cap' <> None).
Proof.
  intros k n; induction n as [|n IH]; intros s cap x H; simpl in H.
  - exists s, cap; auto.
  - assert (Hstep : forall y,
      ma s cap (fun s' cap' =>
        if length s' <? length s then starLoop ma greedy k n s' cap' else None) = Some y ->
      reaches k y (fun cap' => cap <> None -> cap' <> None)).
    { intros y Hy. apply Hma in Hy. destruct Hy as (s1 & c1 & Hk & Hc).
      destruct (length s1 <? length s); [|discriminate].
      apply IH in Hk. destruct Hk as (s2 & c2 & Hk & Hc2).
      exists s2, c2; split; auto. }
    destruct greedy.
    + destruct (ma s cap _) eqn:E.
      * inversion H; subst. apply Hstep. reflexivity.
      * exists s, cap; auto.
    + destruct (k s cap) eqn:E.
      * inversion H; subst. exists s, cap; auto.
      * apply Hstep. exact H.
Qed.

(** Every result of the matcher comes from its continuation, and the
    capture is never lost on the way. *)
Lemma mt_inv (r : re) :
  forall s cap k x,
    mt r s cap k = Some x ->
    reaches k x (fun cap' =>
      (cap <> None -> cap' <> None) /\ (setsGroup r = true -> cap' <> None)).
Proof.
  induction r as [p|a IHa b IHb|a IHa b IHb|g a IHa|a IHa]; intros s cap k x H; simpl in H.
  - destruct s as [|c s']; [discriminate|].
    destruct (p c); [|discriminate].
    exists s', cap; repeat split; auto; simpl; discriminate.
  - apply IHa in H. destruct H as (s1 & c1 & H1 & Hc1 & Hg1).
    apply IHb in H1. destruct H1 as (s2 & c2 & H2 & Hc2 & Hg2).
    exists s2, c2; repeat split; auto.
    simpl. intro Hs. apply orb_true_iff in Hs. destruct Hs; auto.
  - assert (Hone : mt a s cap k = Some x \/ mt b s cap k = Some x).
    { destruct (mt a s cap k); [left; exact H|right; exact H]. }
    destruct Hone as [Ha|Hb]; [apply IHa in Ha|apply IHb in Hb].
    + destruct Ha as (s1 & c1 & H1 & Hc1 & Hg1). exists s1, c1; repeat split; auto.
      simpl. intro Hs. apply andb_true_iff in Hs. destruct Hs; auto.
    + destruct Hb as (s1 & c1 & H1 & Hc1 & Hg1). exists s1, c1; repeat split; auto.
      simpl. intro Hs. apply andb_true_iff in Hs. destruct Hs; auto.
  - apply starLoop_inv in H.
    + destruct H as (s1 & c1 & H1 & Hc1). exists s1, c1; repeat split; auto.
      simpl; discriminate.
    + intros s0 cap0 k0 x0 H0. apply IHa in H0.
      destruct H0 as (s1 & c1 & H1 & Hc1 & _). exists s1, c1; auto.
  - apply IHa in H. destruct H as (s1 & c1 & H1 & _).
    eexists _, _; split; [exact H1|]. split; intros; discriminate.
Qed.

Lemma mt_first (r : re) :
  forall p, firstChar r = Some p ->
  forall s cap (k : string -> option string -> option R),
    match s with
    | EmptyString => True
    | String c _ => p c = false
    end ->
    mt r s cap k = None.
Proof.
  induction r as [q|a IHa b IHb|a IHa b IHb|g a IHa|a IHa]; intros p Hp s cap k Hs;
    simpl in *.
  - inversion Hp; subst. destruct s as [|c s']; [reflexivity|]. now rewrite Hs.
  - now apply IHa with (p := p).
  - destruct (firstChar a) as [pa|]; [|discriminate].
    destruct (firstChar b) as [pb|]; [|discriminate].
    inversion Hp; subst p; clear Hp.
    rewrite (IHa pa eq_refl s cap k), (IHb pb eq_refl s cap k); [reflexivity| |];
      destruct s as [|c s']; auto; apply orb_false_iff in Hs; tauto.
  - discriminate.
  - now apply IHa with (p := p).
Qed.

End Inversion.

(** A match of a pattern with a capture group has its first group. *)
Lemma search_group (r : re) (s : string) (m : Match) :
  setsGroup r = true -> search r s = Some m -> group1 m <> None.
Proof.
  intros Hg. unfold search. generalize 0 as pos.
  induction s as [|c s IH]; intros pos H; simpl in H.
  - destruct (matchHere r EmptyString pos) eqn:E; [|discriminate].
    inversion H; subst. unfold matchHere in E. apply mt_inv in E.
    destruct E as (s1 & c1 & E & _ & Hc). inversion E; subst; simpl. auto.
  - destruct (matchHere r (String c s) pos) eqn:E.
    + inversion H; subst. unfold matchHere in E. apply mt_inv in E.
      destruct E as (s1 & c1 & E & _ & Hc). inversion E; subst; simpl. auto.
    + eapply IH; eauto.
Qed.

(** No match in a text none of whose characters can start one. *)
Lemma search_none (r : re) (p : ascii -> bool) (s : string) :
  firstChar r = Some p -> noneSat p s = true -> search r s = None.
Proof.
  intros Hp. unfold search. generalize 0 as pos.
  induction s as [|c s IH]; intros pos H; simpl in *.
  - unfold matchHere. erewrite mt_first; eauto.
  - apply andb_true_iff in H. destruct H as [Hc Hs].
    unfold matchHere. erewrite mt_first; eauto.
    now apply negb_true_iff.
Qed.

End RegexFacts.

Module ParserFacts.

Import Regex RegexFacts Parser.

(** The six strategies in the order [parseStructuredResponse] tries them. *)
Definition strategies (JSON_parse : string -> Exc Json)
    : list (string -> Exc (option StructuredResponse)) :=
  [strategy1 JSON_parse; strategy2 JSON_parse; strategy3 JSON_parse;
   strategy4 JSON_parse; strategy5 JSON_parse; strategy6 JSON_parse].

(** The text strategy number [k] (from 0) hands to [JSON.parse], when its
    pattern or test selects one. *)
Definition candidate (k : nat) (content : string) : option string :=
  match k with
  | 0 =>
      match search jsonBlockRe content with
      | Some m => Some (match group1 m with Some g => g | None => "undefined" end)
      | None => None
      end
  | 1 =>
      match search codeBlockRe content with
      | Some m =>
          match group1 m with
          | Some g => if startsWith (trim g) "{" then Some g else None
          | None => None
          end
      | None => None
      end
  | 2 => option_map whole (search jsonCalcRe content)
  | 3 => option_map whole (search jsonObjectRe content)
  | 4 => option_map (fun m => snd (actionCandidate content m)) (search actionRe content)
  | 5 =>
      let trimmed := trim content in
      if startsWith trimmed "{" && endsWith trimmed "}" then Some trimmed else None
  | _ => None
  end.

(** Strategies 1, 2, 4 and 6 go through [tryParseJson]; 3 and 5 wrap what
    [JSON.parse] returns. *)
Definition validates (k : nat) : bool :=
  match k with
  | 2 | 4 => false
  | _ => true
  end.

(** The text parses to a value whose [message] is a non-empty string. *)
Definition hasStringMessage (JSON_parse : string -> Exc Json) (text : string) : Prop :=
  exists v m, JSON_parse text = Ok v /\ getProp v "message" = Ok (Some (JStr m))
              /\ m <> EmptyString.

Definition fallback (content : string) : StructuredResponse :=
  {| message := content; actions := None; thinking := None |}.

Lemma noneSat_app (p : ascii -> bool) (a b : string) :
  noneSat p (a ++ b) = noneSat p a && noneSat p b.
Proof.
  induction a as [|c a IH]; cbn [append noneSat]; [reflexivity|].
  now rewrite IH, andb_assoc.
Qed.

(** What [trimStart] returns is the end of its argument. *)
Lemma trimStart_suffix (s : string) : exists pre, s = (pre ++ trimStart s)%string.
Proof.
  assert (H : forall n s, length s <= n -> exists pre, s = (pre ++ trimStart s)%string).
  { clear s. induction n as [|n IH]; intros s Hn.
    - destruct s; [exists EmptyString; reflexivity|simpl in Hn; lia].
    - destruct s as [|a s1]; [exists EmptyString; reflexivity|].
      cbn [trimStart]. cbn [length] in Hn.
      destruct (isWhiteSpaceChar (String a EmptyString)).
      { destruct (IH s1) as (pre & E); [lia|]. exists (String a pre). cbn. now rewrite <- E. }
      destruct s1 as [|b s2]; [exists EmptyString; reflexivity|]. cbn [length] in Hn.
      destruct (isWhiteSpaceChar (String a (String b EmptyString))).
      { destruct (IH s2) as (pre & E); [lia|]. exists (String a (String b pre)).
        cbn. now rewrite <- E. }
      destruct s2 as [|c s3]; [exists EmptyString; reflexivity|]. cbn [length] in Hn.
      destruct (isWhiteSpaceChar (String a (String b (String c EmptyString)))).
      { destruct (IH s3) as (pre & E); [lia|]. exists (String a (String b (String c pre))).
        cbn. now rewrite <- E. }
      exists EmptyString; reflexivity. }
  apply (H (length s)). lia.
Qed.

Lemma noneSat_trimStart (p : ascii -> bool) (s : string) :
  noneSat p s = true -> noneSat p (trimStart s) = true.
Proof.
  destruct (trimStart_suffix s) as (pre & E). intros H.
  rewrite E, noneSat_app in H. apply andb_true_iff in H. tauto.
Qed.

Lemma noneSat_trimEnd (p : ascii -> bool) (s : string) :
  noneSat p s = true -> noneSat p (trimEnd s) = true.
Proof.
  induction s as [|c s IH]; [reflexivity|]. intros H.
  cbn [trimEnd]. destruct (trimStart (String c s)); [reflexivity|].
  cbn [noneSat] in *. apply andb_true_iff in H. destruct H as [Hc Hs].
  now rewrite Hc, IH.
Qed.

Section Facts.

Variable JSON_parse : string -> Exc Json.

Lemma tryParseJson_cases (s : string) :
  (tryParseJson JSON_parse s = Ok None /\ ~ hasStringMessage JSON_parse s) \/
  (exists r, tryParseJson JSON_parse s = Ok (Some r) /\ hasStringMessage JSON_parse s
             /\ exists v, JSON_parse s = Ok v
                          /\ getProp v "message" = Ok (Some (JStr (message r)))).
Proof.
  unfold tryParseJson, hasStringMessage.
  destruct (JSON_parse s) as [v|t] eqn:Ev; simpl.
  2:{ left; split; [reflexivity|]. intros (v & m & H & _). discriminate. }
  destruct (getProp v "message") as [msg|t] eqn:Em; simpl.
  2:{ left; split; [reflexivity|]. intros (v' & m & H & H' & _).
      inversion H; subst. rewrite Em in H'. discriminate. }
  assert (Hrej : truthy msg && isString msg = false ->
          ~ (exists v0 m, Ok v = Ok v0 /\ getProp v0 "message" = Ok (Some (JStr m))
                          /\ m <> EmptyString)).
  { intros Hf (v' & m & H & H' & Hne). inversion H; subst v'.
    rewrite Em in H'. inversion H'; subst msg. simpl in Hf.
    rewrite andb_true_r in Hf. apply negb_false_iff in Hf.
    apply String.eqb_eq in Hf. contradiction. }
  destruct (truthy msg && isString msg) eqn:Et.
  - apply andb_true_iff in Et. destruct Et as [Ht Hs].
    destruct msg as [[| | |m| |]|]; try discriminate.
    assert (Hne : m <> EmptyString).
    { simpl in Ht. apply negb_true_iff in Ht. now apply String.eqb_neq. }
    destruct v; try discriminate; simpl in *.
    right. eexists; split; [reflexivity|]. split.
    + exists (JObj members), m; auto.
    + exists (JObj members); simpl; auto.
  - left; split; [reflexivity|]. now apply Hrej.
Qed.

Lemma tryParseJson_total (s : string) : exists o, tryParseJson JSON_parse s = Ok o.
Proof.
  destruct (tryParseJson_cases s) as [[H _]|(r & H & _)]; eauto.
Qed.

Lemma tryParseJson_invalid (s : string) (t : Thrown) :
  JSON_parse s = Throw t -> tryParseJson JSON_parse s = Ok None.
Proof. intros H. unfold tryParseJson. now rewrite H. Qed.

Lemma tryParseJson_accepts (s : string) (r : StructuredResponse) :
  tryParseJson JSON_parse s = Ok (Some r) -> hasStringMessage JSON_parse s.
Proof.
  intros H. destruct (tryParseJson_cases s) as [[H' _]|(r' & _ & Hm & _)]; [congruence|assumption].
Qed.

(** What each strategy does with its candidate. *)
Lemma strategy_candidate (k : nat) (st : string -> Exc (option StructuredResponse))
    (content : string) :
  nth_error (strategies JSON_parse) k = Some st ->
  match candidate k content with
  | None => st content = Ok None
  | Some cand =>
      if validates k then st content = tryParseJson JSON_parse cand
      else
        match JSON_parse cand with
        | Ok v => exists r, st content = Ok (Some r) /\ actions r = Some [v]
                            /\ thinking r = None
        | Throw _ => st content = Ok None
        end
  end.
Proof.
  intros Hk.
  destruct k as [|[|[|[|[|[|k]]]]]]; simpl in Hk;
    [| | | | | |destruct k; discriminate];
    inversion Hk; subst st; clear Hk; cbn [candidate validates].
  - unfold strategy1. destruct (search jsonBlockRe content) as [m|]; [|reflexivity].
    destruct (group1 m); reflexivity.
  - unfold strategy2. destruct (search codeBlockRe content) as [m|] eqn:E; [|reflexivity].
    destruct (group1 m) eqn:G.
    + destruct (startsWith (trim s) "{"); reflexivity.
    + exfalso. exact (@search_group codeBlockRe content m eq_refl E G).
  - unfold strategy3. destruct (search jsonCalcRe content) as [m|]; [|reflexivity].
    cbn [option_map]. destruct (JSON_parse (whole m)); simpl; eauto.
  - unfold strategy4. destruct (search jsonObjectRe content) as [m|]; reflexivity.
  - unfold strategy5. destruct (search actionRe content) as [m|]; [|reflexivity].
    cbn [option_map]. destruct (actionCandidate content m) as [startIdx jsonStr].
    cbn [snd]. destruct (JSON_parse jsonStr); simpl; eauto.
  - unfold strategy6. destruct (startsWith (trim content) "{" && endsWith (trim content) "}");
      reflexivity.
Qed.

Lemma strategy_total (k : nat) (st : string -> Exc (option StructuredResponse))
    (content : string) :
  nth_error (strategies JSON_parse) k = Some st -> exists o, st content = Ok o.
Proof.
  intros Hk. pose proof (strategy_candidate k content Hk) as H.
  destruct (candidate k content) as [cand|]; [|eauto].
  destruct (validates k).
  - rewrite H. apply tryParseJson_total.
  - destruct (JSON_parse cand); [destruct H as (r & H & _)|]; eauto.
Qed.

(** The cascade returns what the first accepting strategy returns, and the
    raw text when none accepts. *)
Lemma cascade (content : string) :
  (exists k st r,
      nth_error (strategies JSON_parse) k = Some st /\ st content = Ok (Some r)
      /\ (forall j st', j < k -> nth_error (strategies JSON_parse) j = Some st' ->
                        st' content = Ok None)
      /\ parseStructuredResponse JSON_parse content = Ok r)
  \/ ((forall j st', nth_error (strategies JSON_parse) j = Some st' -> st' content = Ok None)
      /\ parseStructuredResponse JSON_parse content = Ok (fallback content)).
Proof.
  assert (T : forall k st, nth_error (strategies JSON_parse) k = Some st ->
                           exists o, st content = Ok o)
    by (intros; eapply strategy_total; eauto).
  destruct (T 0 _ eq_refl) as [o1 E1]. destruct (T 1 _ eq_refl) as [o2 E2].
  destruct (T 2 _ eq_refl) as [o3 E3]. destruct (T 3 _ eq_refl) as [o4 E4].
  destruct (T 4 _ eq_refl) as [o5 E5]. destruct (T 5 _ eq_refl) as [o6 E6].
  unfold parseStructuredResponse, orElse.
  rewrite E1; simpl. destruct o1 as [r|].
  { left. exists 0, (strategy1 JSON_parse), r. repeat split; auto. intros; lia. }
  rewrite E2; simpl. destruct o2 as [r|].
  { left. exists 1, (strategy2 JSON_parse), r. repeat split; auto.
    intros j st' Hj Hn. destruct j as [|j]; [|lia]. now inversion Hn; subst. }
  rewrite E3; simpl. destruct o3 as [r|].
  { left. exists 2, (strategy3 JSON_parse), r. repeat split; auto.
    intros j st' Hj Hn. do 2 (destruct j as [|j]; [now inversion Hn; subst|]). lia. }
  rewrite E4; simpl. destruct o4 as [r|].
  { left. exists 3, (strategy4 JSON_parse), r. repeat split; auto.
    intros j st' Hj Hn. do 3 (destruct j as [|j]; [now inversion Hn; subst|]). lia. }
  rewrite E5; simpl. destruct o5 as [r|].
  { left. exists 4, (strategy5 JSON_parse), r. repeat split; auto.
    intros j st' Hj Hn. do 4 (destruct j as [|j]; [now inversion Hn; subst|]). lia. }
  rewrite E6; simpl. destruct o6 as [r|].
  { left. exists 5, (strategy6 JSON_parse), r. repeat split; auto.
    intros j st' Hj Hn. do 5 (destruct j as [|j]; [now inversion Hn; subst|]). lia. }
  right. split; [|reflexivity].
  intros j st' Hn. do 6 (destruct j as [|j]; [now inversion Hn; subst|]).
  destruct j; discriminate.
Qed.

(** The rest of the cascade after some strategies have declined. *)
Fixpoint firstOf (sts : list (string -> Exc (option StructuredResponse))) (content : string)
    : Exc StructuredResponse :=
  match sts with
  | [] => Ok (fallback content)
  | st :: rest => orElse (st content) (firstOf rest content)
  end.

Lemma fall_through (content : string) (k : nat) :
  (forall j st', j < k -> nth_error (strategies JSON_parse) j = Some st' ->
                 st' content = Ok None) ->
  parseStructuredResponse JSON_parse content
  = firstOf (skipn k (strategies JSON_parse)) content.
Proof.
  intros H.
  change (parseStructuredResponse JSON_parse content)
    with (firstOf (strategies JSON_parse) content).
  revert H. generalize (strategies JSON_parse) as sts.
  induction k as [|k IH]; intros sts H; [reflexivity|].
  destruct sts as [|st rest]; [reflexivity|]. simpl.
  rewrite (H 0 st); [|lia|reflexivity]. simpl. apply IH.
  intros j st' Hj Hn. apply (H (S j) st'); [lia|exact Hn].
Qed.

Lemma prefix_brace (s : string) :
  noneSat (Ascii.eqb "{") s = true -> startsWith s "{" = false.
Proof.
  unfold startsWith. destruct s as [|c s]; [reflexivity|].
  cbn [noneSat prefix]. intros H. apply andb_true_iff in H. destruct H as [H _].
  apply negb_true_iff in H. apply Ascii.eqb_neq in H.
  destruct (ascii_dec "{" c); [contradiction|reflexivity].
Qed.

(** A reply without a brace and without a backquote offers no candidate. *)
Lemma bare_prose_no_candidate (content : string) (k : nat) :
  noneSat (Ascii.eqb "{") content = true ->
  noneSat (Ascii.eqb "`") content = true ->
  candidate k content = None.
Proof.
  intros Hb Hq.
  destruct k as [|[|[|[|[|[|k]]]]]]; cbn [candidate]; try reflexivity.
  - now rewrite (@search_none jsonBlockRe _ content eq_refl Hq).
  - now rewrite (@search_none codeBlockRe _ content eq_refl Hq).
  - now rewrite (@search_none jsonCalcRe _ content eq_refl Hb).
  - now rewrite (@search_none jsonObjectRe _ content eq_refl Hb).
  - now rewrite (@search_none actionRe _ content eq_refl Hb).
  - rewrite prefix_brace; [reflexivity|].
    unfold trim. now apply noneSat_trimEnd, noneSat_trimStart.
Qed.

End Facts.

(** C3.  The response parser returns a [StructuredResponse] for every raw
    text and never throws; when no extraction strategy accepts, and in
    particular for prose without a brace or a backquote, the result is the
    raw text as [message] with [actions] undefined. *)
Theorem parseStructuredResponse_never_throws :
  forall (JSON_parse : string -> Exc Json) (content : string),
    (exists r, parseStructuredResponse JSON_parse content = Ok r) /\
    ((forall k st, nth_error (strategies JSON_parse) k = Some st -> st content = Ok None) ->
     parseStructuredResponse JSON_parse content = Ok (fallback content)) /\
    (noneSat (Ascii.eqb "{") content = true -> noneSat (Ascii.eqb "`") content = true ->
     parseStructuredResponse JSON_parse content
     = Ok {| message := content; actions := None; thinking := None |}).
Proof.
  intros JP content.
  assert (Hfb : (forall k st, nth_error (strategies JP) k = Some st -> st content = Ok None) ->
                parseStructuredResponse JP content = Ok (fallback content)).
  { intros H. rewrite (@fall_through JP content 6); [reflexivity|].
    intros j st' _ Hn. now apply (H j). }
  split; [|split].
  - destruct (cascade JP content) as [(k & st & r & _ & _ & _ & H)|[_ H]]; eauto.
  - exact Hfb.
  - intros Hb Hq. apply Hfb. intros k st Hk.
    pose proof (strategy_candidate JP k content Hk) as H.
    now rewrite (bare_prose_no_candidate content k Hb Hq) in H.
Qed.

(** The scenario of the specification: bare text is returned as it is. *)
Lemma parseStructuredResponse_bare_text :
  parseStructuredResponse JsonText.parse "The total is 42"
  = Ok {| message := "The total is 42"; actions := None; thinking := None |}.
Proof.
  apply (proj2 (proj2 (parseStructuredResponse_never_throws JsonText.parse "The total is 42")));
    reflexivity.
Defined.

(** C7, as stated, fails for the wrapping strategies: the calc strategy
    accepts an object that has no [message] at all. *)
Lemma calc_strategy_accepts_without_message :
  exists cand v r,
    candidate 2 (JsonText.q "Voy a calcular {'type':'calc','calcFormulas':['=SUM(A1:A3)']}")
      = Some cand
    /\ JsonText.parse cand = Ok v
    /\ getProp v "message" = Ok None
    /\ strategy3 JsonText.parse
         (JsonText.q "Voy a calcular {'type':'calc','calcFormulas':['=SUM(A1:A3)']}")
       = Ok (Some r)
    /\ message r = "Voy a calcular" /\ actions r = Some [v]
    /\ parseStructuredResponse JsonText.parse
         (JsonText.q "Voy a calcular {'type':'calc','calcFormulas':['=SUM(A1:A3)']}")
       = Ok r.
Proof.
  do 3 eexists. repeat split; vm_compute; reflexivity.
Qed.

(** C7, amended.  Every strategy declines when it has no candidate or when
    its candidate is not valid JSON, and the cascade then goes on with the
    strategies after it.  Strategies 1, 2, 4 and 6 accept a candidate exactly
    when it parses to a value whose [message] is a non-empty string.
    Strategies 3 and 5 do not look at [message]: they accept every candidate
    that is valid JSON and wrap the parsed value as the only action. *)
Theorem strategies_accept_and_fall_through :
  forall (JSON_parse : string -> Exc Json) (content : string) (k : nat)
         (st : string -> Exc (option StructuredResponse)),
    nth_error (strategies JSON_parse) k = Some st ->
    (exists o, st content = Ok o) /\
    (candidate k content = None -> st content = Ok None) /\
    (forall cand, candidate k content = Some cand ->
       (forall t, JSON_parse cand = Throw t -> st content = Ok None) /\
       (validates k = true ->
          (forall r, st content = Ok (Some r) -> hasStringMessage JSON_parse cand) /\
          (hasStringMessage JSON_parse cand -> exists r, st content = Ok (Some r)) /\
          (~ hasStringMessage JSON_parse cand -> st content = Ok None)) /\
       (validates k = false ->
          forall v, JSON_parse cand = Ok v ->
                    exists r, st content = Ok (Some r) /\ actions r = Some [v])) /\
    ((forall j st', j < S k -> nth_error (strategies JSON_parse) j = Some st' ->
                    st' content = Ok None) ->
     parseStructuredResponse JSON_parse content
     = firstOf (skipn (S k) (strategies JSON_parse)) content).
Proof.
  intros JP content k st Hk.
  pose proof (strategy_candidate JP k content Hk) as H.
  split; [eapply strategy_total; eauto|].
  split; [intros Hc; now rewrite Hc in H|].
  split; [|apply fall_through].
  intros cand Hc. rewrite Hc in H.
  split; [|split].
  - intros t Ht. destruct (validates k).
    + rewrite H. eapply tryParseJson_invalid; eauto.
    + now rewrite Ht in H.
  - intros Hv. rewrite Hv in H. rewrite H.
    destruct (tryParseJson_cases JP cand) as [[E Hn]|(r & E & Hm & _)]; rewrite E.
    + split; [discriminate|split; [contradiction|reflexivity]].
    + split; [auto|split; [eauto|contradiction]].
  - intros Hv v Ev. rewrite Hv, Ev in H. destruct H as (r & H1 & H2 & _). eauto.
Qed.

(** An instance: a reply that begins with a no-break space (U+00A0) and then
    holds an object with a message.  [trim] drops the space, so the sixth
    strategy has the object as its candidate and accepts it. *)
Lemma strategies_accept_and_fall_through_witness :
  nth_error (strategies JsonText.parse) 5 = Some (strategy6 JsonText.parse)
  /\ candidate 5 (utf8Bytes 160 ++ JsonText.q "{'message':'hi'}")
     = Some (JsonText.q "{'message':'hi'}")
  /\ exists r,
       strategy6 JsonText.parse (utf8Bytes 160 ++ JsonText.q "{'message':'hi'}")
       = Ok (Some r).
Proof.
  split; [reflexivity|]. split; [vm_compute; reflexivity|].
  destruct (strategies_accept_and_fall_through JsonText.parse
              (utf8Bytes 160 ++ JsonText.q "{'message':'hi'}") 5 eq_refl)
    as (_ & _ & Hcand & _).
  destruct (Hcand (JsonText.q "{'message':'hi'}")) as (_ & Hval & _);
    [vm_compute; reflexivity|].
  destruct (Hval eq_refl) as (_ & Haccept & _).
  apply Haccept. exists (JObj [("message", JStr "hi")]), "hi".
  split; [vm_compute; reflexivity|]. split; [reflexivity|discriminate].
Defined.

End ParserFacts.

(** * Properties of the Excel service *)

Module ValidatorFacts.

Import Excel ExcelService.

Definition cellsOf (m : Matrix) : list CellValue := List.concat m.

Definition isEmptyCell (cell : CellValue) : bool := negb (isNonEmpty cell).

Lemma filter_all {A} (p : A -> bool) (l : list A) :
  List.length (filter p l) = List.length l <-> forallb p l = true.
Proof.
  induction l as [|x l IH]; simpl; [tauto|].
  pose proof (filter_length_le p l) as Hle.
  destruct (p x); simpl.
  - rewrite <- IH. lia.
  - split; [lia|discriminate].
Qed.


Lemma readRect_size (c : Sheet) (r : Rect) :
  List.length (cellsOf (readRect c r)) = rowCount r * columnCount r.
Proof.
  unfold cellsOf, readRect.
  rewrite <- (length_seq (rowCount r) 0) at 2.
  generalize (seq 0 (rowCount r)) as rows.
  induction rows as [|i rows IH]; simpl; [reflexivity|].
  rewrite length_app, IH, length_map, length_seq. reflexivity.
Qed.

Lemma resolve_size (address : string) (r : Rect) :
  resolve address = Some r -> 1 <= rowCount r /\ 1 <= columnCount r.
Proof.
  unfold resolve. destruct (parseCell (beforeColon address)) as [[r1 c1]|]; [|discriminate].
  destruct (afterColon address) as [rest|].
  - destruct (parseCell rest) as [[r2 c2]|]; [|discriminate].
    intros H; inversion H; subst; simpl; lia.
  - intros H; inversion H; subst; simpl; lia.
Qed.

(** What a successful read-back of a formula action returns: the values of
    a region of at least one cell. *)
Lemma reread_formula (a : ExcelAction) (finalRange : string) (h h' : Host) (vals : Matrix) :
  String.eqb (type a) "formula" = true ->
  reread a finalRange h = (Ok vals, h') ->
  1 <= List.length (cellsOf vals).
Proof.
  intros Hf. apply String.eqb_eq in Hf.
  unfold reread, run. rewrite Hf. cbn [String.eqb Ascii.eqb Bool.eqb].
  unfold getRange, bind. destruct (resolve finalRange) as [r|] eqn:Er; [|discriminate].
  cbn [ret]. destruct (sync (withQueue h [])) as [[u|t] h1]; [|discriminate].
  unfold valuesOf. intros H; inversion H; subst.
  rewrite readRect_size. apply resolve_size in Er. nia.
Qed.


(** C10.  When the read-back of the validator throws, the verdict is
    passed, with the message that the action could not be validated: an
    error of the validation itself never fails an action, and never leaves
    [validateWriteAction] as an exception. *)
Theorem validateWriteAction_fails_open :
  forall (a : ExcelAction) (finalRange : string) (h h' : Host) (t : Thrown),
    reread a finalRange h = (Throw t, h') ->
    validateWriteAction a finalRange h
    = (Ok {| passed := true; vmessage := CouldNotValidate; vactualValues := None |}, h').
Proof.
  intros a finalRange h h' t Hr.
  unfold validateWriteAction, tryCatch, bind. now rewrite Hr.
Qed.

(** An instance: the synchronisation of the read-back fails. *)
Lemma validateWriteAction_fails_open_witness :
  fst (validateWriteAction (Samples.writeFormula "B2" "=SUM(A1:A2)") "B2"
         (Samples.document [] None [Some (ErrorObj "GeneralException")]))
  = Ok {| passed := true; vmessage := CouldNotValidate; vactualValues := None |}.
Proof.
  rewrite (@validateWriteAction_fails_open
             (Samples.writeFormula "B2" "=SUM(A1:A2)") "B2"
             (Samples.document [] None [Some (ErrorObj "GeneralException")])
             _ (ErrorObj "GeneralException") eq_refl).
  reflexivity.
Defined.

End ValidatorFacts.

(** ** Addresses built by the collision guard *)

Module AddressFacts.

Import Excel ExcelService.

Fixpoint allSat (p : ascii -> bool) (s : string) : bool :=
  match s with
  | EmptyString => true
  | String c s' => p c && allSat p s'
  end.

Definition notColon (c : ascii) : bool := negb (Ascii.eqb c ":").

Lemma append_assoc (a b c : string) : ((a ++ b) ++ c)%string = (a ++ (b ++ c))%string.
Proof. induction a as [|x a IH]; simpl; [reflexivity|now rewrite IH]. Qed.

Lemma allSat_app (p : ascii -> bool) (a b : string) :
  allSat p (a ++ b) = allSat p a && allSat p b.
Proof.
  induction a as [|x a IH]; simpl; [reflexivity|]. rewrite IH. now rewrite andb_assoc.
Qed.

Lemma columnNumber_app (a b : string) (acc : nat) :
  columnNumber acc (a ++ b) = columnNumber (columnNumber acc a) b.
Proof. revert acc; induction a as [|x a IH]; intros acc; simpl; [reflexivity|apply IH]. Qed.

(** The letter the loop of [numberToColumn] produces for a remainder. *)
Lemma letter_code (m : nat) :
  m < 26 -> nat_of_ascii (ascii_of_nat (65 + m)) = 65 + m.
Proof. intros H. apply nat_ascii_embedding. lia. Qed.

Lemma loop_app (fuel n : nat) (acc : string) :
  numberToColumn_loop fuel n acc
  = (numberToColumn_loop fuel n EmptyString ++ acc)%string.
Proof.
  revert n acc. induction fuel as [|fuel IH]; intros n acc;
    cbn [numberToColumn_loop]; [reflexivity|].
  destruct (0 <? n); [|reflexivity].
  rewrite IH. rewrite (IH _ (String _ EmptyString)). now rewrite append_assoc.
Qed.

Lemma loop_letters (fuel n : nat) (acc : string) :
  allSat isLetter acc = true ->
  allSat isLetter (numberToColumn_loop fuel n acc) = true
  /\ allSat notColon (numberToColumn_loop fuel n acc) = allSat notColon acc.
Proof.
  revert n acc. induction fuel as [|fuel IH]; intros n acc Hacc;
    cbn [numberToColumn_loop]; [auto|].
  destruct (0 <? n); [|auto].
  assert (Hm : (n - 1) mod 26 < 26) by (apply Nat.mod_upper_bound; lia).
  pose proof (letter_code Hm) as Hc.
  destruct (IH ((n - 1) / 26) (String (ascii_of_nat (65 + (n - 1) mod 26)) acc)) as [H1 H2].
  - cbn [allSat]. rewrite Hacc, andb_true_r. unfold isLetter. rewrite Hc.
    apply orb_true_iff; left. apply andb_true_iff; split; apply Nat.leb_le; lia.
  - split; [exact H1|]. rewrite H2. cbn [allSat].
    replace (notColon (ascii_of_nat (65 + (n - 1) mod 26))) with true; [reflexivity|].
    unfold notColon. symmetry. apply negb_true_iff. apply Ascii.eqb_neq.
    intros Heq. apply (f_equal nat_of_ascii) in Heq. rewrite Hc in Heq.
    change (nat_of_ascii ":") with 58 in Heq. lia.
Qed.

Lemma loop_number (fuel n : nat) (acc : string) :
  n <= fuel ->
  columnNumber 0 (numberToColumn_loop fuel n acc) = columnNumber n acc.
Proof.
  revert n acc. induction fuel as [|fuel IH]; intros n acc Hn; cbn [numberToColumn_loop].
  - now replace n with 0 by lia.
  - destruct (0 <? n) eqn:E.
    + apply Nat.ltb_lt in E.
      assert (Hm : (n - 1) mod 26 < 26) by (apply Nat.mod_upper_bound; lia).
      assert (Hd : (n - 1) / 26 <= fuel).
      { pose proof (Nat.Div0.div_le_upper_bound (n - 1) 26 fuel). lia. }
      rewrite IH by exact Hd. cbn [columnNumber]. f_equal.
      unfold letterValue. rewrite (letter_code Hm).
      replace (65 + (n - 1) mod 26 <=? 90) with true
        by (symmetry; apply Nat.leb_le; lia).
      pose proof (Nat.div_mod_eq (n - 1) 26). lia.
    + apply Nat.ltb_ge in E. now replace n with 0 by lia.
Qed.

(** [numberToColumn] writes the column in letters only, and the host reads
    the same column back. *)
Lemma numberToColumn_spec (n : nat) :
  allSat isLetter (numberToColumn n) = true
  /\ allSat notColon (numberToColumn n) = true
  /\ columnNumber 0 (numberToColumn n) = n
  /\ (1 <= n -> numberToColumn n <> EmptyString).
Proof.
  unfold numberToColumn.
  destruct (@loop_letters n n EmptyString eq_refl) as [H1 H2].
  pose proof (@loop_number n n EmptyString (le_n n)) as H3. cbn [columnNumber] in H3.
  repeat split; auto.
  intros Hn He. rewrite He in H3. cbn in H3. lia.
Qed.

(** *** Decimal numerals *)

Definition isDigit (c : ascii) : bool :=
  let n := nat_of_ascii c in (48 <=? n) && (n <=? 57).

Lemma string_of_uint_digits (d : Decimal.uint) :
  allSat isDigit (NilEmpty.string_of_uint d) = true.
Proof. induction d; simpl; auto. Qed.

Lemma to_uint_nonnil (n : nat) : Nat.to_uint n <> Decimal.Nil.
Proof.
  intros H. pose proof (DecimalNat.Unsigned.to_of (Nat.to_uint n)) as E.
  rewrite DecimalNat.Unsigned.of_to in E. rewrite H in E. discriminate.
Qed.

Lemma showNat_spec (n : nat) :
  allSat isDigit (showNat n) = true /\ parseNat (showNat n) = Some n.
Proof.
  unfold showNat, parseNat. split; [apply string_of_uint_digits|].
  destruct (NilEmpty.string_of_uint (Nat.to_uint n)) eqn:E.
  - exfalso. apply (to_uint_nonnil n). destruct (Nat.to_uint n); try discriminate. reflexivity.
  - rewrite <- E. rewrite NilEmpty.usu. simpl. now rewrite DecimalNat.Unsigned.of_to.
Qed.

Lemma digit_not_letter (c : ascii) : isDigit c = true -> isLetter c = false.
Proof.
  unfold isDigit, isLetter. intros H. apply andb_true_iff in H. destruct H as [H1 H2].
  apply Nat.leb_le in H1, H2.
  apply orb_false_iff; split; apply andb_false_iff; left; apply Nat.leb_gt; lia.
Qed.

Lemma digit_not_colon (c : ascii) : isDigit c = true -> notColon c = true.
Proof.
  unfold isDigit, notColon. intros H. apply andb_true_iff in H. destruct H as [H1 H2].
  apply Nat.leb_le in H1, H2. apply negb_true_iff, Ascii.eqb_neq.
  intros He; subst c. cbn in H2. lia.
Qed.

Lemma digits_not_colon (s : string) : allSat isDigit s = true -> allSat notColon s = true.
Proof.
  induction s as [|c s IH]; simpl; [reflexivity|]. intros H.
  apply andb_true_iff in H. destruct H as [H1 H2].
  now rewrite (digit_not_colon _ H1), IH.
Qed.

(** *** Reading a reference back *)

Lemma splitLetters_app (l d : string) :
  allSat isLetter l = true -> allSat isDigit d = true ->
  splitLetters (l ++ d) = (l, d).
Proof.
  intros Hl Hd. induction l as [|c l IH]; simpl.
  - destruct d as [|c d]; [reflexivity|]. simpl in *.
    apply andb_true_iff in Hd. destruct Hd as [Hc _].
    now rewrite (digit_not_letter _ Hc).
  - simpl in Hl. apply andb_true_iff in Hl. destruct Hl as [Hc Hl].
    rewrite Hc, (IH Hl). reflexivity.
Qed.

Lemma parseCell_built (col row : nat) :
  1 <= col -> 1 <= row ->
  parseCell (numberToColumn col ++ showNat row) = Some (row, col).
Proof.
  intros Hc Hr. unfold parseCell.
  destruct (numberToColumn_spec col) as (Hl & _ & Hn & Hne).
  destruct (showNat_spec row) as [Hd Hp].
  rewrite (splitLetters_app _ _ Hl Hd).
  destruct (numberToColumn col) eqn:E; [now exfalso; apply Hne|].
  rewrite Hp. replace (1 <=? row) with true by (symmetry; apply Nat.leb_le; lia).
  now rewrite Hn.
Qed.

Lemma beforeColon_app (a b : string) :
  allSat notColon a = true -> beforeColon (a ++ String ":" b) = a.
Proof.
  induction a as [|c a IH]; simpl; [reflexivity|]. intros H.
  apply andb_true_iff in H. destruct H as [Hc Ha].
  unfold notColon in Hc. apply negb_true_iff in Hc. rewrite Hc. now rewrite IH.
Qed.

Lemma beforeColon_none (a : string) :
  allSat notColon a = true -> beforeColon a = a /\ afterColon a = None.
Proof.
  induction a as [|c a IH]; simpl; [auto|]. intros H.
  apply andb_true_iff in H. destruct H as [Hc Ha].
  unfold notColon in Hc. apply negb_true_iff in Hc. rewrite Hc.
  destruct (IH Ha) as [H1 H2]. now rewrite H1, H2.
Qed.

Lemma afterColon_app (a b : string) :
  allSat notColon a = true -> afterColon (a ++ String ":" b) = Some b.
Proof.
  induction a as [|c a IH]; simpl; [reflexivity|]. intros H.
  apply andb_true_iff in H. destruct H as [Hc Ha].
  unfold notColon in Hc. apply negb_true_iff in Hc. rewrite Hc. now apply IH.
Qed.

Lemma reference_no_colon (col row : nat) :
  allSat notColon (numberToColumn col ++ showNat row) = true.
Proof.
  rewrite allSat_app. destruct (numberToColumn_spec col) as (_ & Hc & _).
  destruct (showNat_spec row) as [Hd _]. now rewrite Hc, (digits_not_colon _ Hd).
Qed.

(** The strip tested at an offset, as a region. *)
Definition candidateRect (used : Rect) (offset numRows numCols : nat) : Rect :=
  {| top := 1; left := columnCount used + offset;
     rowCount := max numRows (rowCount used); columnCount := numCols |}.

(** The host resolves the address of a candidate strip to that strip. *)
Lemma resolve_candidateRange (used : Rect) (offset numRows numCols : nat) :
  1 <= offset -> 1 <= numRows -> 1 <= numCols ->
  resolve (candidateRange used offset numRows numCols)
  = Some (candidateRect used offset numRows numCols).
Proof.
  intros Ho Hr Hc. unfold candidateRange, resolve.
  set (c1 := columnCount used + offset).
  set (rows := max numRows (rowCount used)).
  pose proof (reference_no_colon c1 1) as Hnc.
  change (numberToColumn c1 ++ "1:" ++ numberToColumn (c1 + numCols - 1) ++ showNat rows)%string
    with (numberToColumn c1 ++ String "1" (String ":" (numberToColumn (c1 + numCols - 1) ++ showNat rows)))%string.
  replace (numberToColumn c1 ++ String "1" (String ":" (numberToColumn (c1 + numCols - 1) ++ showNat rows)))%string
    with ((numberToColumn c1 ++ showNat 1) ++ String ":" (numberToColumn (c1 + numCols - 1) ++ showNat rows))%string
    by (rewrite append_assoc; reflexivity).
  rewrite (beforeColon_app _ _ Hnc), (afterColon_app _ _ Hnc).
  rewrite parseCell_built by (unfold c1; lia).
  rewrite parseCell_built by (unfold c1, rows; lia).
  unfold candidateRect. fold c1. fold rows. f_equal.
  assert (1 <= rows) by (unfold rows; lia).
  f_equal; lia.
Qed.

(** The host resolves the address returned for a strip to its top-left
    cell. *)
Lemma resolve_candidateStart (used : Rect) (offset : nat) :
  1 <= offset ->
  beforeColon (candidateStart used offset) = candidateStart used offset
  /\ resolve (candidateStart used offset)
     = Some {| top := 1; left := columnCount used + offset;
               rowCount := 1; columnCount := 1 |}
  /\ candidateStart used offset <> EmptyString.
Proof.
  intros Ho. unfold candidateStart.
  change (numberToColumn (columnCount used + offset) ++ "1")%string
    with (numberToColumn (columnCount used + offset) ++ showNat 1)%string.
  pose proof (reference_no_colon (columnCount used + offset) 1) as Hnc.
  destruct (beforeColon_none _ Hnc) as [Hb Ha].
  split; [exact Hb|]. split.
  - unfold resolve. rewrite Hb, Ha. rewrite parseCell_built by lia. reflexivity.
  - destruct (numberToColumn_spec (columnCount used + offset)) as (_ & _ & _ & Hne).
    intros He. destruct (numberToColumn (columnCount used + offset)); [apply Hne; [lia|reflexivity]|discriminate].
Qed.

End AddressFacts.

(** ** The collision guard *)

Module GuardFacts.

Import Excel ExcelService AddressFacts.

(** What a synchronisation is about to throw. *)
Definition nextFault (h : Host) : option Thrown :=
  match faults h with
  | Some t :: _ => Some t
  | _ => None
  end.

(** The host after a synchronisation that had nothing to apply. *)
Definition next (h : Host) : Host := withQueue (withFaults h (tl (faults h))) [].

(** The part of the host that reads and failed requests leave alone. *)
Definition document (h : Host) :=
  (activeName h, cells h, usedRange h, otherSheets h, calc h, written h).

Definition noData : OverwriteCheckResult :=
  {| hasData := false; nonEmptyCells := 0; totalCells := 0 |}.

(** A region of the given size at the top-left cell of [start]. *)
Definition grow (start : Rect) (numRows numCols : nat) : Rect :=
  {| top := top start; left := left start;
     rowCount := rowCount start + numRows - 1;
     columnCount := columnCount start + numCols - 1 |}.

Lemma sync_empty (h : Host) :
  queue h = [] ->
  sync h = (match nextFault h with Some t => Throw t | None => Ok tt end, next h).
Proof.
  intros Hq. unfold sync, nextFault, next.
  destruct (faults h) as [|[t|] rest]; cbn [tl]; try reflexivity;
    cbn [queue withFaults]; rewrite Hq; reflexivity.
Qed.

Lemma next_document (h : Host) : document (next h) = document h.
Proof. reflexivity. Qed.

Lemma next_queue (h : Host) : queue (next h) = [].
Proof. reflexivity. Qed.

Lemma getResized_grow (r : Rect) (numRows numCols : nat) :
  1 <= numRows -> 1 <= numCols -> 1 <= rowCount r -> 1 <= columnCount r ->
  getResizedRange r (Z.of_nat numRows - 1) (Z.of_nat numCols - 1)
  = ret (grow r numRows numCols).
Proof.
  intros. unfold getResizedRange, grow.
  replace ((1 <=? Z.of_nat (rowCount r) + (Z.of_nat numRows - 1))%Z
           && (1 <=? Z.of_nat (columnCount r) + (Z.of_nat numCols - 1))%Z) with true
    by (symmetry; apply andb_true_iff; split; apply Z.leb_le; lia).
  f_equal. f_equal; lia.
Qed.

Lemma beforeColon_idem (s : string) : beforeColon (beforeColon s) = beforeColon s.
Proof.
  induction s as [|c s IH]; simpl; [reflexivity|].
  destruct (Ascii.eqb c ":") eqn:E; [reflexivity|]. simpl. now rewrite E, IH.
Qed.

Lemma beforeColon_no_colon (s : string) : afterColon (beforeColon s) = None.
Proof.
  induction s as [|c s IH]; simpl; [reflexivity|].
  destruct (Ascii.eqb c ":") eqn:E; [reflexivity|]. simpl. now rewrite E.
Qed.

(** The start address resolves to a single cell. *)
Lemma resolve_start_cell (s : string) (r : Rect) :
  resolve (beforeColon s) = Some r -> rowCount r = 1 /\ columnCount r = 1.
Proof.
  unfold resolve. rewrite beforeColon_idem, beforeColon_no_colon.
  destruct (parseCell (beforeColon s)) as [[r1 c1]|]; [|discriminate].
  intros H; inversion H; subst; auto.
Qed.

(** What the occupancy probe returns, and the host it leaves. *)
Lemma checkRangeForData_spec (address : string) (numRows numCols : nat) (h : Host) :
  1 <= numRows -> 1 <= numCols ->
  checkRangeForData address numRows numCols h =
    match resolve (beforeColon address) with
    | None => (Ok noData, withQueue h [])
    | Some start =>
        (match nextFault h with
         | Some _ => Ok noData
         | None =>
             let n := countCells isNonEmpty
                        (readRect (cells h) (grow start numRows numCols)) in
             Ok {| hasData := 0 <? n; nonEmptyCells := n; totalCells := numRows * numCols |}
         end, next h)
    end.
Proof.
  intros Hr Hc. unfold checkRangeForData, tryCatch, run, bind, getRange.
  destruct (resolve (beforeColon address)) as [start|] eqn:E; [|reflexivity].
  destruct (resolve_start_cell _ E) as [H1 H2].
  cbn [ret]. rewrite getResized_grow by lia. cbn [ret].
  rewrite sync_empty by reflexivity.
  change (nextFault (withQueue h [])) with (nextFault h).
  change (next (withQueue h [])) with (next h).
  destruct (nextFault h); reflexivity.
Qed.

(** A strip the search accepted: its address, and that every cell of it was
    read as empty. *)
Definition acceptedStrip (h : Host) (used : Rect) (numRows numCols : nat)
    (offsets : list nat) (e : string) : Prop :=
  exists before off after,
    offsets = before ++ off :: after
    /\ e = candidateStart used off
    /\ allEmpty (readRect (cells h) (candidateRect used off numRows numCols)) = true
    /\ Forall (fun o =>
         allEmpty (readRect (cells h) (candidateRect used o numRows numCols)) = false) before.

Lemma searchRight_spec (used : Rect) (numRows numCols : nat) :
  1 <= numRows -> 1 <= numCols ->
  forall offsets h res h',
    queue h = [] ->
    Forall (fun o => 1 <= o) offsets ->
    searchRight used numRows numCols offsets h = (res, h') ->
    document h' = document h /\ queue h' = [] /\
    match res with
    | Ok (Some e) => acceptedStrip h used numRows numCols offsets e
    | Ok None =>
        Forall (fun o =>
          allEmpty (readRect (cells h) (candidateRect used o numRows numCols)) = false) offsets
    | Throw _ => True
    end.
Proof.
  intros Hr Hc offsets. induction offsets as [|off rest IH]; intros h res h' Hq Hpos H.
  - inversion H; subst. auto.
  - inversion Hpos as [|? ? Ho Hrest]; subst.
    cbn [searchRight] in H. unfold bind, getRange in H.
    rewrite resolve_candidateRange in H by assumption. cbn [ret] in H.
    rewrite sync_empty in H by exact Hq.
    destruct (nextFault h).
    { inversion H; subst. auto. }
    unfold valuesOf in H. change (cells (next h)) with (cells h) in H.
    destruct (allEmpty (readRect (cells h) (candidateRect used off numRows numCols))) eqn:E.
    + inversion H; subst. repeat split; auto.
      exists [], off, rest. repeat split; auto.
    + apply IH in H; [|reflexivity|assumption].
      destruct H as (Hd & Hq' & Hres). repeat split; auto.
      change (cells (next h)) with (cells h) in Hres.
      destruct res as [[e|]|t]; auto.
      destruct Hres as (before & o & after & E1 & E2 & E3 & E4).
      exists (off :: before), o, after. rewrite E1. repeat split; auto.
Qed.

(** What the search for an empty region returns: nothing, [A1] on a sheet
    without a used range, or the start of the first strip right of the used
    columns, among the offsets 2 to 20, that it read as empty. *)
Lemma findEmptyRangeForData_spec (numRows numCols : nat) (h : Host) :
  1 <= numRows -> 1 <= numCols ->
  forall res h',
    findEmptyRangeForData numRows numCols h = (res, h') ->
    document h' = document h /\
    exists found,
      res = Ok found /\
      match found with
      | None => True
      | Some e =>
          (usedRange h = None /\ e = "A1"%string) \/
          (exists used, usedRange h = Some used
                        /\ acceptedStrip h used numRows numCols (seq 2 19) e)
      end.
Proof.
  intros Hr Hc res h'. unfold findEmptyRangeForData, tryCatch, run, bind.
  rewrite sync_empty by reflexivity.
  change (nextFault (withQueue h [])) with (nextFault h).
  change (next (withQueue h [])) with (next h).
  destruct (nextFault h).
  { intros H; inversion H; subst. split; [reflexivity|]. exists None; auto. }
  unfold getUsedRangeOrNullObject. change (usedRange (next h)) with (usedRange h).
  destruct (usedRange h) as [used|] eqn:Eu.
  2:{ intros H; inversion H; subst. split; [reflexivity|]. exists (Some "A1"%string); auto. }
  destruct (searchRight used numRows numCols (seq 2 19) (next h)) as [res1 h1] eqn:Es.
  pose proof Es as Es'.
  apply searchRight_spec in Es'; try assumption; try reflexivity.
  2:{ apply Forall_forall. intros o Ho. apply in_seq in Ho. lia. }
  destruct Es' as (Hd & Hq & Hres).
  change (seq 2 19) with (2 :: seq 3 18) in Es. cbn [searchRight] in Es.
  unfold bind in Es. rewrite Es.
  destruct res1 as [found|t]; intros H; inversion H; subst.
  - split; [rewrite Hd; reflexivity|]. exists found. split; [reflexivity|].
    destruct found as [e|]; [|exact I]. right. exists used. split; [reflexivity|].
    exact Hres.
  - split; [rewrite Hd; reflexivity|]. exists None. auto.
Qed.

End GuardFacts.

(** ** The rules of the validator *)

Module RulesFacts.

Import Excel ExcelService GuardFacts ValidatorFacts.


















End RulesFacts.

(** ** The dispatch of write and formula actions *)

Module ExecutorFacts.

Import Excel ExcelService AddressFacts GuardFacts.

Definition invalidAddress : Thrown :=
  ErrorObj "The argument is invalid or missing or has an incorrect format.".

(** What the branch of a write or formula action asks of the host. *)
Inductive Plan : Type :=
| Refused
| Nothing (msg : string)
| Assign (cmd : Command) (msg : string).

Definition onRange (address : string) (k : Rect -> Plan) : Plan :=
  match resolve address with
  | Some r => k r
  | None => Refused
  end.

Definition plan (a : ExcelAction) (finalRange overwriteWarning : string) : Plan :=
  if String.eqb (type a) "write" then
    match values a with
    | Some (row0 :: rest) =>
        onRange (beforeColon finalRange) (fun start =>
          let numRows := List.length (row0 :: rest) in
          let numCols := orNum (Some (List.length row0)) 1 in
          Assign (SetValues (grow start numRows numCols) (row0 :: rest))
            (overwriteWarning ++ "Datos escritos (" ++ showNat numRows ++ "x"
             ++ showNat numCols ++ ") desde " ++ beforeColon finalRange)%string)
    | _ =>
        match value a with
        | Some v =>
            onRange finalRange (fun r =>
              Assign (SetValues r [[v]])
                (overwriteWarning ++ "Valor escrito en " ++ finalRange)%string)
        | None => Nothing ("Sin datos para escribir en " ++ finalRange)%string
        end
    end
  else
    match formulas a with
    | Some fs =>
        onRange finalRange (fun r =>
          Assign (SetFormulas r (map (map normalizeFormula) fs))
            (overwriteWarning ++ "Fórmulas escritas en " ++ finalRange)%string)
    | None =>
        if hasFormula a then
          onRange finalRange (fun r =>
            let f := match formula a with Some f => f | None => EmptyString end in
            Assign (SetFormulas r [[if startsWith f "=" then f else ("=" ++ f)%string]])
              (overwriteWarning ++ "Fórmula escrita en " ++ finalRange)%string)
        else Nothing ("Sin fórmula para escribir en " ++ finalRange)%string
    end.

(** The request that carries out a plan. *)
Definition carryOut (p : Plan) (h : Host) : Exc string * Host :=
  match p with
  | Refused => (Throw invalidAddress, withQueue h [])
  | Nothing msg =>
      (match nextFault h with Some t => Throw t | None => Ok msg end, next h)
  | Assign cmd msg =>
      match nextFault h with
      | Some t => (Throw t, next h)
      | None =>
          match applyCommand (next h) cmd with
          | Ok h' => (Ok msg, h')
          | Throw t => (Throw t, next h)
          end
      end
  end.

Lemma sync_one (h : Host) (cmd : Command) :
  sync (withQueue h [cmd]) =
    match nextFault h with
    | Some t => (Throw t, next h)
    | None =>
        match applyCommand (next h) cmd with
        | Ok h' => (Ok tt, h')
        | Throw t => (Throw t, next h)
        end
    end.
Proof.
  destruct h as [an c u os ca f q w].
  unfold sync, nextFault, next, withQueue, withFaults; cbn.
  destruct f as [|[t|] rest]; cbn; try reflexivity;
    match goal with |- context [applyCommand ?x cmd] => destruct (applyCommand x cmd) end;
    reflexivity.
Qed.

Section WithOtherBranch.

Variable otherBranch : ExcelAction -> Excel string.

(** The request of a write or formula action does what its plan says. *)
Lemma dispatch_spec (a : ExcelAction) (finalRange overwriteWarning : string) (h : Host) :
  isWriteKind a = true ->
  run (bind (dispatch otherBranch a finalRange overwriteWarning)
         (fun message => bind sync (fun _ => ret message))) h
  = carryOut (plan a finalRange overwriteWarning) h.
Proof.
  intros Hk. unfold isWriteKind in Hk. unfold dispatch, plan, run.
  destruct (String.eqb (type a) "write") eqn:Ew.
  - destruct (values a) as [[|row0 rest]|].
    + destruct (value a) as [v|].
      * unfold onRange, bind, getRange. destruct (resolve finalRange) as [r|]; [|reflexivity].
        cbn [ret enqueue carryOut]. cbn [queue withQueue app].
        change (withQueue (withQueue h []) [SetValues r [[v]]])
          with (withQueue h [SetValues r [[v]]]).
        rewrite sync_one. destruct (nextFault h); [reflexivity|].
        destruct (applyCommand (next h) (SetValues r [[v]])); reflexivity.
      * unfold bind. cbn [ret carryOut]. rewrite sync_empty by reflexivity.
        change (nextFault (withQueue h [])) with (nextFault h).
        change (next (withQueue h [])) with (next h).
        destruct (nextFault h); reflexivity.
    + unfold onRange, bind, getRange.
      destruct (resolve (beforeColon finalRange)) as [start|] eqn:Er; [|reflexivity].
      cbn [ret]. destruct (ValidatorFacts.resolve_size _ Er) as [H1 H2].
      rewrite getResized_grow; [|simpl; lia|destruct (List.length row0); simpl; lia|lia|lia].
      cbn [ret enqueue carryOut]. cbn [queue withQueue app].
      match goal with |- context [sync ?x] =>
        change x with (withQueue h [SetValues (grow start (List.length (row0 :: rest))
                                      (orNum (Some (List.length row0)) 1)) (row0 :: rest)])
      end.
      rewrite sync_one. destruct (nextFault h); [reflexivity|].
      match goal with |- context [applyCommand ?x ?c] => destruct (applyCommand x c) end;
        reflexivity.
    + destruct (value a) as [v|].
      * unfold onRange, bind, getRange. destruct (resolve finalRange) as [r|]; [|reflexivity].
        cbn [ret enqueue carryOut]. cbn [queue withQueue app].
        change (withQueue (withQueue h []) [SetValues r [[v]]])
          with (withQueue h [SetValues r [[v]]]).
        rewrite sync_one. destruct (nextFault h); [reflexivity|].
        destruct (applyCommand (next h) (SetValues r [[v]])); reflexivity.
      * unfold bind. cbn [ret carryOut]. rewrite sync_empty by reflexivity.
        change (nextFault (withQueue h [])) with (nextFault h).
        change (next (withQueue h [])) with (next h).
        destruct (nextFault h); reflexivity.
  - cbn [orb] in Hk. rewrite Hk.
    destruct (formulas a) as [fs|].
    + unfold onRange, bind, getRange. destruct (resolve finalRange) as [r|]; [|reflexivity].
      cbn [ret enqueue carryOut]. cbn [queue withQueue app].
      match goal with |- context [sync ?x] =>
        change x with (withQueue h [SetFormulas r (map (map normalizeFormula) fs)])
      end.
      rewrite sync_one. destruct (nextFault h); [reflexivity|].
      match goal with |- context [applyCommand ?x ?c] => destruct (applyCommand x c) end;
        reflexivity.
    + destruct (hasFormula a).
      * unfold onRange, bind, getRange. destruct (resolve finalRange) as [r|]; [|reflexivity].
        cbn [ret enqueue carryOut]. cbn [queue withQueue app].
        match goal with |- context [sync (withQueue _ [?c])] =>
          change (sync (withQueue (withQueue h []) [c])) with (sync (withQueue h [c]))
        end.
        rewrite sync_one. destruct (nextFault h); [reflexivity|].
        match goal with |- context [applyCommand ?x ?c] => destruct (applyCommand x c) end;
          reflexivity.
      * unfold bind. cbn [ret carryOut]. rewrite sync_empty by reflexivity.
        change (nextFault (withQueue h [])) with (nextFault h).
        change (next (withQueue h [])) with (next h).
        destruct (nextFault h); reflexivity.
Qed.

(** The read-back leaves the document as it is. *)
Lemma reread_document (a : ExcelAction) (finalRange : string) (h h' : Host)
    (res : Exc Matrix) :
  reread a finalRange h = (res, h') -> document h' = document h.
Proof.
  unfold reread, run.
  assert (Hgo : forall (r : Rect) (x : Exc Matrix) (h1 : Host),
            bind sync (fun _ => valuesOf r) (withQueue h []) = (x, h1) ->
            document h1 = document h).
  { intros r x h1. unfold bind. rewrite sync_empty by reflexivity.
    destruct (nextFault (withQueue h [])); unfold valuesOf;
      intros H; inversion H; subst; reflexivity. }
  destruct (String.eqb (type a) "write").
  - destruct (values a) as [vs|]; [|intros H; inversion H; subst; reflexivity].
    unfold bind at 1. unfold getRange.
    destruct (resolve (beforeColon finalRange)) as [start|];
      [|intros H; inversion H; subst; reflexivity].
    cbn [ret]. unfold bind at 1. unfold getResizedRange.
    match goal with |- context [if ?b then _ else _] => destruct b end;
      [|intros H; inversion H; subst; reflexivity].
    cbn [ret]. apply Hgo.
  - destruct (String.eqb (type a) "formula"); [|intros H; inversion H; subst; reflexivity].
    unfold bind at 1. unfold getRange.
    destruct (resolve finalRange) as [r|]; [|intros H; inversion H; subst; reflexivity].
    cbn [ret]. apply Hgo.
Qed.

(** The validator always returns a verdict and leaves the document as it
    is. *)
Lemma validateWriteAction_total (a : ExcelAction) (finalRange : string) (h : Host) :
  exists v h', validateWriteAction a finalRange h = (Ok v, h')
               /\ document h' = document h.
Proof.
  unfold validateWriteAction, tryCatch, bind.
  destruct (reread a finalRange h) as [[vals|t] h1] eqn:E;
    apply reread_document in E; unfold ret; eauto.
Qed.

(** *** Regions and what is read from them *)

Lemma readRect_In (c : Sheet) (r : Rect) (row col : nat) :
  inRect r row col = true -> In (c row col) (List.concat (readRect c r)).
Proof.
  unfold inRect. intros H.
  repeat (apply andb_true_iff in H; destruct H as [H ?]).
  apply Nat.leb_le in H. apply Nat.ltb_lt in H2. apply Nat.leb_le in H1.
  apply Nat.ltb_lt in H0.
  apply in_concat. unfold readRect.
  exists (map (fun j => c (top r + (row - top r)) (left r + j)) (seq 0 (columnCount r))).
  split.
  - apply in_map_iff. exists (row - top r). split; [reflexivity|]. apply in_seq. lia.
  - apply in_map_iff. exists (col - left r). split; [f_equal; lia|]. apply in_seq. lia.
Qed.

Lemma allEmpty_In (m : Matrix) (cell : CellValue) :
  allEmpty m = true -> In cell (List.concat m) -> isNonEmpty cell = false.
Proof.
  unfold allEmpty. intros H Hin. apply in_concat in Hin. destruct Hin as (row & Hr & Hc).
  rewrite forallb_forall in H. specialize (H row Hr).
  rewrite forallb_forall in H. specialize (H cell Hc). now apply negb_true_iff.
Qed.

Lemma countCells_pos (m : Matrix) (cell : CellValue) :
  In cell (List.concat m) -> isNonEmpty cell = true -> 0 < countCells isNonEmpty m.
Proof.
  unfold countCells. intros Hin Hne.
  assert (In cell (filter isNonEmpty (List.concat m))) by (apply filter_In; auto).
  destruct (filter isNonEmpty (List.concat m)); [contradiction|simpl; lia].
Qed.

Lemma guardRows_pos (a : ExcelAction) : 1 <= guardRows a.
Proof.
  unfold guardRows, orNum.
  destruct (values a) as [[|r l]|]; destruct (formulas a) as [[|r' l']|]; simpl; lia.
Qed.

Lemma guardCols_pos (a : ExcelAction) : 1 <= guardCols a.
Proof.
  unfold guardCols, orNum.
  destruct (firstRowLength (values a)) as [[|n]|];
    destruct (firstRowLength (formulas a)) as [[|k]|]; simpl; lia.
Qed.

(** The outcome of the overwrite protection when it does not apply or the
    probe reports no data: the requested range, unchanged. *)
Definition proceed (a : ExcelAction) : string * string + ActionResult :=
  inl (range a, EmptyString).

(** *** The result of a write or formula action *)

(** The result built in the catch block. *)
Definition failed (a : ExcelAction) (t : Thrown) : ActionResult :=
  {| success := false; action := a;
     message := ("Error en " ++ range a)%string;
     error := Some (messageOr "Error desconocido" t);
     validated := Some false; validationPassed := None;
     validationMessage := None; actualValues := None |}.

(** The result built after the validation. *)
Definition validatedResult (a : ExcelAction) (msg : string) (v : ValidationResult)
    : ActionResult :=
  {| success := true; action := a; message := msg; error := None;
     validated := Some true;
     validationPassed := Some (passed v);
     validationMessage := Some (vmessage v);
     actualValues := vactualValues v |}.

Lemma executeSingleAction_write (a : ExcelAction) (h : Host) :
  isWriteKind a = true ->
  executeSingleAction otherBranch a h =
    match protect a h with
    | (Ok (inr refused), h1) => (Ok refused, h1)
    | (Ok (inl (finalRange, overwriteWarning)), h1) =>
        match carryOut (plan a finalRange overwriteWarning) h1 with
        | (Ok msg, h2) =>
            match validateWriteAction a finalRange h2 with
            | (Ok v, h3) => (Ok (validatedResult a msg v), h3)
            | (Throw t, h3) => (Ok (failed a t), h3)
            end
        | (Throw t, h2) => (Ok (failed a t), h2)
        end
    | (Throw t, h1) => (Ok (failed a t), h1)
    end.
Proof.
  intros Hk. unfold executeSingleAction, tryCatch. unfold bind at 1.
  destruct (protect a h) as [[[[finalRange warn]|refused]|t] h1]; try reflexivity.
  unfold bind at 1. rewrite (@dispatch_spec a finalRange warn h1 Hk).
  destruct (carryOut (plan a finalRange warn) h1) as [[msg|t] h2]; [|reflexivity].
  rewrite Hk. unfold bind.
  destruct (validateWriteAction a finalRange h2) as [[v|t] h3]; reflexivity.
Qed.

(** The result of the overwrite protection when it refuses the action. *)
Definition refusal (a : ExcelAction) (n : nat) : ActionResult :=
  {| success := false; action := a;
     message := ("No se puede escribir: el rango " ++ beforeColon (range a)
                 ++ " contiene " ++ showNat n ++ " celdas con datos")%string;
     error := Some "El rango contiene datos existentes. Seleccione un rango vacío o use allowOverwrite para forzar la escritura.";
     validated := None; validationPassed := None;
     validationMessage := None; actualValues := None |}.

(** The overwrite protection when the probe finds data. *)
Lemma protect_occupied (a : ExcelAction) (h : Host) (start : Rect) :
  isWriteKind a = true -> allowOverwrite a = false ->
  resolve (beforeColon (range a)) = Some start ->
  nextFault h = None ->
  0 < countCells isNonEmpty (readRect (cells h) (grow start (guardRows a) (guardCols a))) ->
  let n := countCells isNonEmpty (readRect (cells h) (grow start (guardRows a) (guardCols a))) in
  protect a h =
    match findEmptyRangeForData (guardRows a) (guardCols a) (next h) with
    | (Ok (Some e), h2) =>
        if String.eqb e EmptyString then (Ok (inr (refusal a n)), h2)
        else (Ok (inl (e, ("⚠️ Se evitó sobreescribir " ++ showNat n ++ " celdas. ")%string)), h2)
    | (Ok None, h2) => (Ok (inr (refusal a n)), h2)
    | (Throw t, h2) => (Throw t, h2)
    end.
Proof.
  intros Hk Ha Hs Hf Hn n. unfold protect. rewrite Hk, Ha. cbn [negb andb].
  unfold bind at 1.
  rewrite checkRangeForData_spec by (apply guardRows_pos || apply guardCols_pos).
  rewrite beforeColon_idem, Hs, Hf. cbv zeta. fold n. cbn [hasData nonEmptyCells].
  replace (0 <? n) with true by (symmetry; apply Nat.ltb_lt; exact Hn).
  unfold bind.
  destruct (findEmptyRangeForData (guardRows a) (guardCols a) (next h)) as [[[e|]|t] h2];
    try reflexivity.
  destruct (String.eqb e EmptyString); reflexivity.
Qed.


(** *** Where an assignment lands *)

Definition commandRect (cmd : Command) : Rect :=
  match cmd with
  | SetValues r _ => r
  | SetFormulas r _ => r
  end.

Definition shapeOk (cmd : Command) : bool :=
  match cmd with
  | SetValues r m => hasShape r m
  | SetFormulas r m => hasShape r m
  end.

Lemma applyCommand_effect (h h3 : Host) (cmd : Command) :
  applyCommand h cmd = Ok h3 ->
  shapeOk cmd = true
  /\ written h3 = written h ++ [commandRect cmd]
  /\ (forall row col, inRect (commandRect cmd) row col = false ->
                      cells h3 row col = cells h row col).
Proof.
  destruct cmd as [r m|r m]; cbn [applyCommand shapeOk commandRect];
    destruct (hasShape r m); try discriminate; intros H; inversion H; subst;
    (split; [reflexivity|split; [reflexivity|]]); intros row col Hin; cbn [cells withCells].
  - unfold setValues. now rewrite Hin.
  - unfold setFormulas. now rewrite Hin.
Qed.

Lemma applyCommand_refused (h : Host) (cmd : Command) (t : Thrown) :
  applyCommand h cmd = Throw t -> shapeOk cmd = false.
Proof.
  destruct cmd as [r m|r m]; cbn [applyCommand shapeOk];
    destruct (hasShape r m); intros H; try discriminate; reflexivity.
Qed.

(** On a relocated single-cell address, an assignment the host accepts
    starts at that cell and is no larger than what the guard measured. *)
Lemma plan_fits (a : ExcelAction) (e warn msg : string) (cell : Rect) (cmd : Command) :
  isWriteKind a = true ->
  resolve e = Some cell -> beforeColon e = e ->
  rowCount cell = 1 -> columnCount cell = 1 ->
  plan a e warn = Assign cmd msg -> shapeOk cmd = true ->
  top (commandRect cmd) = top cell /\ left (commandRect cmd) = left cell
  /\ rowCount (commandRect cmd) <= guardRows a
  /\ columnCount (commandRect cmd) <= guardCols a.
Proof.
  intros Hk Hr Hb R1 C1 Hp Hs.
  pose proof (guardRows_pos a) as GR. pose proof (guardCols_pos a) as GC.
  unfold plan in Hp. rewrite Hb in Hp. unfold onRange in Hp. rewrite Hr in Hp.
  destruct (String.eqb (type a) "write").
  - destruct (values a) as [[|row0 rest]|] eqn:Ev.
    + destruct (value a); inversion Hp; subst; cbn [commandRect]; lia.
    + inversion Hp; subst; clear Hp. cbn [commandRect shapeOk] in *.
      unfold hasShape in Hs. apply andb_true_iff in Hs. destruct Hs as [Hl Hc].
      cbn [forallb] in Hc. apply andb_true_iff in Hc. destruct Hc as [Hc _].
      apply Nat.eqb_eq in Hl, Hc. cbn [grow rowCount columnCount top left] in *.
      unfold guardRows, guardCols. rewrite Ev. cbn [option_map firstRowLength orNum List.length].
      repeat split; try lia.
      unfold orNum in *. destruct (List.length row0); lia.
    + destruct (value a); inversion Hp; subst; cbn [commandRect]; lia.
  - destruct (formulas a).
    + inversion Hp; subst; cbn [commandRect]; lia.
    + destruct (hasFormula a); inversion Hp; subst; cbn [commandRect]; lia.
Qed.

Lemma inRect_bounds (r : Rect) (row col : nat) :
  inRect r row col = true ->
  top r <= row /\ row < top r + rowCount r /\ left r <= col /\ col < left r + columnCount r.
Proof.
  unfold inRect. intros H.
  repeat (apply andb_true_iff in H; destruct H as [H ?]).
  apply Nat.leb_le in H. apply Nat.ltb_lt in H2. apply Nat.leb_le in H1.
  apply Nat.ltb_lt in H0. auto.
Qed.

Lemma inRect_within (target strip : Rect) (row col : nat) :
  top target = top strip -> left target = left strip ->
  rowCount target <= rowCount strip -> columnCount target <= columnCount strip ->
  inRect target row col = true -> inRect strip row col = true.
Proof.
  unfold inRect. intros Ht Hl Hr Hc H.
  repeat (apply andb_true_iff in H; destruct H as [H ?]).
  apply Nat.leb_le in H. apply Nat.ltb_lt in H2. apply Nat.leb_le in H1.
  apply Nat.ltb_lt in H0.
  repeat (apply andb_true_iff; split);
    try (apply Nat.leb_le; lia); apply Nat.ltb_lt; lia.
Qed.

(** The sheet after an assignment the host accepts. *)
Definition assigned (h : Host) (cmd : Command) : Sheet :=
  match cmd with
  | SetValues r m => setValues (cells h) r m
  | SetFormulas r m => setFormulas (calc h) (cells h) r m
  end.

Lemma applyCommand_cells (h h3 : Host) (cmd : Command) :
  applyCommand h cmd = Ok h3 -> cells h3 = assigned h cmd.
Proof.
  destruct cmd as [r m|r m]; cbn [applyCommand assigned];
    destruct (hasShape r m); try discriminate; intros H; inversion H; reflexivity.
Qed.

Lemma hasShape_map {A B} (f : A -> B) (r : Rect) (m : list (list A)) :
  hasShape r (map (map f) m) = hasShape r m.
Proof.
  unfold hasShape. rewrite length_map. f_equal.
  induction m as [|row m IH]; cbn [map forallb]; [reflexivity|].
  now rewrite length_map, IH.
Qed.

Lemma readRect_In_inv (c : Sheet) (r : Rect) (cell : CellValue) :
  In cell (List.concat (readRect c r)) ->
  exists row col, inRect r row col = true /\ cell = c row col.
Proof.
  unfold readRect. intros H. apply in_concat in H. destruct H as (cellsOfRow & Hrow & Hcell).
  apply in_map_iff in Hrow. destruct Hrow as (i & <- & Hi).
  apply in_map_iff in Hcell. destruct Hcell as (j & <- & Hj).
  apply in_seq in Hi, Hj. exists (top r + i), (left r + j). split; [|reflexivity].
  unfold inRect. repeat (apply andb_true_iff; split);
    try (apply Nat.leb_le; lia); apply Nat.ltb_lt; lia.
Qed.

(** A region none of whose cells holds data counts no cell with data. *)
Lemma countCells_zero (c : Sheet) (r : Rect) :
  (forall row col, inRect r row col = true -> isNonEmpty (c row col) = false) ->
  countCells isNonEmpty (readRect c r) = 0.
Proof.
  intros H. unfold countCells.
  assert (Hall : forall cell, In cell (List.concat (readRect c r)) -> isNonEmpty cell = false).
  { intros cell Hin. apply readRect_In_inv in Hin. destruct Hin as (row & col & Hin & ->).
    now apply H. }
  induction (List.concat (readRect c r)) as [|cell l IH]; [reflexivity|].
  cbn [filter]. rewrite (Hall cell) by (left; reflexivity).
  apply IH. intros x Hx. apply Hall. now right.
Qed.

(** The overwrite protection when the probe completes and finds no data:
    the requested range, unchanged. *)
Lemma protect_clear (a : ExcelAction) (h : Host) (start : Rect) :
  isWriteKind a = true -> allowOverwrite a = false ->
  resolve (beforeColon (range a)) = Some start ->
  nextFault h = None ->
  (forall row col, inRect (grow start (guardRows a) (guardCols a)) row col = true ->
                   isNonEmpty (cells h row col) = false) ->
  protect a h = (Ok (proceed a), next h).
Proof.
  intros Hk Ha Hs Hf Hempty. unfold protect. rewrite Hk, Ha. cbn [negb andb].
  unfold bind at 1.
  rewrite checkRangeForData_spec by (apply guardRows_pos || apply guardCols_pos).
  rewrite beforeColon_idem, Hs, Hf. cbv zeta.
  rewrite (countCells_zero _ _ Hempty). reflexivity.
Qed.

(** The overwrite protection when the synchronisation of the probe
    throws. *)
Lemma protect_probe_fault (a : ExcelAction) (h : Host) (t : Thrown) (start : Rect) :
  isWriteKind a = true -> allowOverwrite a = false ->
  resolve (beforeColon (range a)) = Some start ->
  nextFault h = Some t ->
  checkRangeForData (beforeColon (range a)) (guardRows a) (guardCols a) h
  = (Ok noData, next h)
  /\ protect a h = (Ok (proceed a), next h).
Proof.
  intros Hk Ha Hs Hf.
  assert (Hprobe : checkRangeForData (beforeColon (range a)) (guardRows a) (guardCols a) h
                   = (Ok noData, next h)).
  { rewrite checkRangeForData_spec by (apply guardRows_pos || apply guardCols_pos).
    rewrite beforeColon_idem, Hs, Hf. reflexivity. }
  split; [exact Hprobe|].
  unfold protect. rewrite Hk, Ha. cbn [negb andb]. unfold bind. rewrite Hprobe. reflexivity.
Qed.

(** An action the protection lets through with its range, whose assignment
    the host accepts: the region of the assignment is written, whatever it
    held. *)
Lemma executeSingleAction_assigns (a : ExcelAction) (h h1 : Host) (cmd : Command)
    (msg : string) :
  isWriteKind a = true ->
  protect a h = (Ok (proceed a), h1) ->
  plan a (range a) EmptyString = Assign cmd msg ->
  nextFault h1 = None ->
  shapeOk cmd = true ->
  exists r h',
    executeSingleAction otherBranch a h = (Ok r, h')
    /\ success r = true
    /\ written h' = written h1 ++ [commandRect cmd]
    /\ cells h' = assigned h1 cmd.
Proof.
  intros Hk Hp Hplan Hf Hshape.
  rewrite executeSingleAction_write by exact Hk. rewrite Hp. unfold proceed.
  rewrite Hplan. cbn [carryOut]. rewrite Hf.
  destruct (applyCommand (next h1) cmd) as [h2|t] eqn:Ea.
  2:{ apply applyCommand_refused in Ea. congruence. }
  destruct (validateWriteAction_total a (range a) h2) as (v & h3 & Ev & Hd3). rewrite Ev.
  eexists _, _. split; [reflexivity|]. split; [reflexivity|].
  unfold document in Hd3. inversion Hd3 as [[Hn3 Hc3 Hu3 Ho3 Hca3 Hw3]].
  rewrite Hw3, Hc3. pose proof (applyCommand_cells _ _ Ea) as Hcells.
  apply applyCommand_effect in Ea. destruct Ea as (_ & Hw2 & _).
  split; [exact Hw2|]. rewrite Hcells. destruct cmd; reflexivity.
Qed.

(** The plans of the four payloads on the requested range. *)
Lemma plan_values (a : ExcelAction) (vs : Matrix) (start : Rect) :
  type a = "write"%string -> values a = Some vs ->
  resolve (beforeColon (range a)) = Some start ->
  hasShape (grow start (guardRows a) (guardCols a)) vs = true ->
  exists msg,
    plan a (range a) EmptyString
    = Assign (SetValues (grow start (guardRows a) (guardCols a)) vs) msg.
Proof.
  intros Ht Hv Hs Hshape. unfold plan. rewrite Ht, Hv. cbn [String.eqb Ascii.eqb Bool.eqb].
  assert (Hvs : exists row0 rest, vs = row0 :: rest).
  { destruct vs as [|row0 rest]; [|eauto].
    unfold hasShape in Hshape. apply andb_true_iff in Hshape. destruct Hshape as [Hl _].
    apply Nat.eqb_eq in Hl. cbn in Hl. pose proof (guardRows_pos a).
    destruct (resolve_start_cell _ Hs). lia. }
  destruct Hvs as (row0 & rest & ->).
  unfold onRange. rewrite Hs.
  assert (Hdim : grow start (List.length (row0 :: rest)) (orNum (Some (List.length row0)) 1)
                 = grow start (guardRows a) (guardCols a)).
  { unfold hasShape in Hshape. apply andb_true_iff in Hshape. destruct Hshape as [Hl Hc].
    apply Nat.eqb_eq in Hl. cbn [forallb] in Hc. apply andb_true_iff in Hc.
    destruct Hc as [Hc _]. apply Nat.eqb_eq in Hc.
    destruct (resolve_start_cell _ Hs) as [R1 C1].
    cbn [grow rowCount columnCount] in Hl, Hc.
    pose proof (guardRows_pos a). pose proof (guardCols_pos a).
    unfold grow. f_equal; [lia|].
    unfold orNum. destruct (List.length row0); lia. }
  rewrite Hdim. eauto.
Qed.

Lemma plan_value (a : ExcelAction) (v : CellValue) (region : Rect) :
  type a = "write"%string -> values a = None \/ values a = Some [] ->
  value a = Some v -> resolve (range a) = Some region ->
  exists msg, plan a (range a) EmptyString = Assign (SetValues region [[v]]) msg.
Proof.
  intros Ht Hv Hval Hr. unfold plan. rewrite Ht, Hval. cbn [String.eqb Ascii.eqb Bool.eqb].
  unfold onRange. rewrite Hr. destruct Hv as [-> | ->]; eauto.
Qed.

Lemma plan_formulas (a : ExcelAction) (fs : list (list string)) (region : Rect) :
  type a = "formula"%string -> formulas a = Some fs -> resolve (range a) = Some region ->
  exists msg,
    plan a (range a) EmptyString
    = Assign (SetFormulas region (map (map normalizeFormula) fs)) msg.
Proof.
  intros Ht Hfs Hr. unfold plan. rewrite Ht, Hfs. cbn [String.eqb Ascii.eqb Bool.eqb].
  unfold onRange. rewrite Hr. eauto.
Qed.

Lemma plan_formula (a : ExcelAction) (f : string) (region : Rect) :
  type a = "formula"%string -> formulas a = None -> formula a = Some f ->
  f <> EmptyString -> resolve (range a) = Some region ->
  exists msg,
    plan a (range a) EmptyString
    = Assign (SetFormulas region [[if startsWith f "=" then f else ("=" ++ f)%string]]) msg.
Proof.
  intros Ht Hfs Hf Hne Hr. unfold plan, hasFormula. rewrite Ht, Hfs, Hf.
  cbn [String.eqb Ascii.eqb Bool.eqb].
  apply String.eqb_neq in Hne. rewrite Hne. cbn [negb].
  unfold onRange. rewrite Hr. eauto.
Qed.

Lemma isWriteKind_write (a : ExcelAction) : type a = "write"%string -> isWriteKind a = true.
Proof. intros H. unfold isWriteKind. now rewrite H. Qed.

Lemma isWriteKind_formula (a : ExcelAction) :
  type a = "formula"%string -> isWriteKind a = true.
Proof. intros H. unfold isWriteKind. now rewrite H. Qed.

(** The search for an empty region when its first synchronisation
    throws. *)
Lemma findEmptyRangeForData_fault (numRows numCols : nat) (h : Host) (t : Thrown) :
  nextFault h = Some t ->
  findEmptyRangeForData numRows numCols h = (Ok None, next h).
Proof.
  intros Hf. unfold findEmptyRangeForData, tryCatch, run, bind.
  rewrite sync_empty by reflexivity.
  change (nextFault (withQueue h [])) with (nextFault h). rewrite Hf. reflexivity.
Qed.

(** What the guard is for, said of one run: nothing is written, or one
    region is, none of whose cells held data. *)
Definition writesOnlyEmpty (h h' : Host) (requested : Rect) : Prop :=
  (written h' = written h /\ cells h' = cells h) \/
  (exists target,
      written h' = written h ++ [target]
      /\ target <> requested
      /\ (forall row col, inRect target row col = true ->
                          isNonEmpty (cells h row col) = false)
      /\ (forall row col, inRect target row col = false ->
                          cells h' row col = cells h row col)).


(** The relocation: for a write or formula action without [allowOverwrite]
    whose occupancy probe completes and finds data in the region it measures
    (the start cell of the range, with the rows and columns of the payload),
    the action always returns a result; it writes nothing, or it writes one
    region, which is not the measured one and every cell of which was empty
    before the action, and no cell outside that region changes.  When the
    search finds no empty region the action fails and writes nothing. *)
Lemma guard_relocates_to_empty_region :
  forall (a : ExcelAction) (h h' : Host) (start : Rect) (res : Exc ActionResult),
    isWriteKind a = true ->
    allowOverwrite a = false ->
    (usedRange h = None -> forall row col, isNonEmpty (cells h row col) = false) ->
    resolve (beforeColon (range a)) = Some start ->
    nextFault h = None ->
    (exists row col,
        inRect (grow start (guardRows a) (guardCols a)) row col = true
        /\ isNonEmpty (cells h row col) = true) ->
    executeSingleAction otherBranch a h = (res, h') ->
    exists r,
      res = Ok r
      /\ writesOnlyEmpty h h' (grow start (guardRows a) (guardCols a))
      /\ (fst (findEmptyRangeForData (guardRows a) (guardCols a) (next h)) = Ok None ->
          success r = false /\ written h' = written h /\ cells h' = cells h).
Proof.
  intros a h h' start res Hk Ha Hwf Hs Hf (row0 & col0 & Hin0 & Hne0) H.
  set (requested := grow start (guardRows a) (guardCols a)) in *.
  assert (Hn : 0 < countCells isNonEmpty (readRect (cells h) requested)).
  { eapply countCells_pos; [apply readRect_In; exact Hin0|exact Hne0]. }
  rewrite executeSingleAction_write in H by exact Hk.
  rewrite (@protect_occupied a h start Hk Ha Hs Hf Hn) in H. fold requested in H.
  destruct (findEmptyRangeForData (guardRows a) (guardCols a) (next h)) as [found h2] eqn:Ef.
  pose proof Ef as Espec.
  apply findEmptyRangeForData_spec in Espec; [|apply guardRows_pos|apply guardCols_pos].
  destruct Espec as (Hd2 & found' & -> & Hfound).
  assert (Hdoc2 : written h2 = written h /\ cells h2 = cells h /\ usedRange h2 = usedRange h).
  { rewrite next_document in Hd2. unfold document in Hd2. inversion Hd2. auto. }
  destruct Hdoc2 as (Hw2 & Hc2 & Hu2).
  cbn [fst].
  destruct found' as [e|].
  2:{ inversion H; subst. eexists; split; [reflexivity|].
      split; [left; auto|]. intros _. cbn. auto. }
  destruct Hfound as [[Hnone _]|(used & Hused & before & off & after & Eoff & -> & Hempty & _)].
  { exfalso. change (usedRange (next h)) with (usedRange h) in Hnone.
    rewrite (Hwf Hnone row0 col0) in Hne0. discriminate. }
  change (cells (next h)) with (cells h) in Hempty.
  assert (Hoff : 1 <= off).
  { assert (In off (seq 2 19)) by (rewrite Eoff; apply in_or_app; right; left; reflexivity).
    apply in_seq in H0. lia. }
  destruct (resolve_candidateStart used Hoff) as (Hb & Hres & Hnonempty).
  apply String.eqb_neq in Hnonempty. rewrite Hnonempty in H.
  set (warn := ("⚠️ Se evitó sobreescribir "
                ++ showNat (countCells isNonEmpty (readRect (cells h) requested))
                ++ " celdas. ")%string) in *.
  set (strip := candidateRect used off (guardRows a) (guardCols a)) in *.
  assert (Hstrip : forall row col, inRect strip row col = true ->
                                   isNonEmpty (cells h row col) = false).
  { intros row col Hin. eapply allEmpty_In; [exact Hempty|]. now apply readRect_In. }
  (* the request of the action *)
  assert (Hquiet : forall (hq : Host) (r : ActionResult),
            document hq = document h2 ->
            (res, h') = (Ok r, hq) ->
            exists r0, res = Ok r0 /\ writesOnlyEmpty h h' requested
                       /\ (Ok (Some (candidateStart used off)) = Ok None ->
                           success r0 = false /\ written h' = written h /\ cells h' = cells h)).
  { intros hq r Hq E. inversion E; subst. exists r. split; [reflexivity|].
    unfold document in Hq. inversion Hq.
    split; [left; split; congruence|discriminate]. }
  destruct (plan a (candidateStart used off) warn) as [|msg|cmd msg] eqn:Ep; cbn [carryOut] in H.
  - eapply Hquiet; [|symmetry; exact H]. reflexivity.
  - destruct (nextFault h2).
    + eapply Hquiet; [|symmetry; exact H]. apply next_document.
    + destruct (validateWriteAction_total a (candidateStart used off) (next h2))
        as (v & h3 & Ev & Hd3).
      rewrite Ev in H. eapply Hquiet; [|symmetry; exact H].
      rewrite Hd3. apply next_document.
  - destruct (nextFault h2).
    { eapply Hquiet; [|symmetry; exact H]. apply next_document. }
    destruct (applyCommand (next h2) cmd) as [h3|t] eqn:Eapp.
    2:{ eapply Hquiet; [|symmetry; exact H]. apply next_document. }
    apply applyCommand_effect in Eapp. destruct Eapp as (Hshape & Hw3 & Hc3).
    destruct (validateWriteAction_total a (candidateStart used off) h3)
      as (v & h4 & Ev & Hd4).
    rewrite Ev in H. inversion H; subst res h'. clear H.
    eexists; split; [reflexivity|]. split; [|discriminate].
    unfold document in Hd4. inversion Hd4 as [[Hn4 Hc4 Hu4 Ho4 Hca4 Hw4]].
    destruct (@plan_fits a (candidateStart used off) warn msg _ cmd Hk Hres Hb eq_refl eq_refl
                Ep Hshape) as (Ft & Fl & Fr & Fc).
    cbn [top left] in Ft, Fl.
    assert (Hsub : forall row col, inRect (commandRect cmd) row col = true ->
                                   inRect strip row col = true).
    { intros row col. apply inRect_within; unfold strip, candidateRect; cbn; lia. }
    right. exists (commandRect cmd). split; [|split; [|split]].
    + rewrite Hw4, Hw3. change (written (next h2)) with (written h2). now rewrite Hw2.
    + intros Heq. rewrite Heq in Hsub.
      rewrite (Hstrip row0 col0 (Hsub row0 col0 Hin0)) in Hne0. discriminate.
    + intros row col Hin. apply Hstrip. now apply Hsub.
    + intros row col Hout. rewrite Hc4, (Hc3 row col Hout).
      change (cells (next h2)) with (cells h2). now rewrite Hc2.
Qed.


(** C1: the region a formula action writes is the one its range names,
    not the one the guard measures.  When the probe completes and finds the
    measured region (the start cell of the range, with the rows and columns
    of the payload) empty, the formulas are assigned to the region of the
    range, whatever that region holds. *)
Theorem formula_write_escapes_the_probe :
  forall (a : ExcelAction) (h : Host) (fs : list (list string)) (start region : Rect),
    type a = "formula"%string ->
    allowOverwrite a = false ->
    formulas a = Some fs ->
    resolve (beforeColon (range a)) = Some start ->
    resolve (range a) = Some region ->
    hasShape region fs = true ->
    nextFault h = None ->
    nextFault (next h) = None ->
    (forall row col, inRect (grow start (guardRows a) (guardCols a)) row col = true ->
                     isNonEmpty (cells h row col) = false) ->
    exists r h',
      executeSingleAction otherBranch a h = (Ok r, h')
      /\ success r = true
      /\ written h' = written h ++ [region]
      /\ cells h' = setFormulas (calc h) (cells h) region (map (map normalizeFormula) fs).
Proof.
  intros a h fs start region Ht Ha Hfs Hs Hr Hshape Hf Hf2 Hempty.
  pose proof (isWriteKind_formula a Ht) as Hk.
  destruct (plan_formulas a Ht Hfs Hr) as (msg & Hplan).
  destruct (@executeSingleAction_assigns a h (next h) _ msg Hk
              (protect_clear a h Hk Ha Hs Hf Hempty) Hplan Hf2) as (r & h' & E & Hsucc & Hw & Hc).
  { cbn [shapeOk]. now rewrite hasShape_map. }
  exists r, h'. auto.
Qed.

(** C9.  When the synchronisation of the occupancy probe throws,
    [checkRangeForData] answers [hasData: false], so the overwrite
    protection lets the action go on with the requested range.  Whatever the
    payload is (a matrix of values, one value, a matrix of formulas or one
    formula), an assignment the host accepts then lands on the requested
    region, whatever that region holds. *)
Theorem probe_failure_fails_open :
  forall (a : ExcelAction) (h : Host) (t : Thrown) (start : Rect),
    isWriteKind a = true ->
    allowOverwrite a = false ->
    resolve (beforeColon (range a)) = Some start ->
    nextFault h = Some t ->
    checkRangeForData (beforeColon (range a)) (guardRows a) (guardCols a) h
      = (Ok noData, next h)
    /\ protect a h = (Ok (proceed a), next h)
    /\ (forall vs, type a = "write"%string -> values a = Some vs ->
          hasShape (grow start (guardRows a) (guardCols a)) vs = true ->
          nextFault (next h) = None ->
          exists r h',
            executeSingleAction otherBranch a h = (Ok r, h')
            /\ success r = true
            /\ written h' = written h ++ [grow start (guardRows a) (guardCols a)]
            /\ cells h' = setValues (cells h) (grow start (guardRows a) (guardCols a)) vs)
    /\ (forall v region, type a = "write"%string ->
          values a = None \/ values a = Some [] -> value a = Some v ->
          resolve (range a) = Some region -> hasShape region [[v]] = true ->
          nextFault (next h) = None ->
          exists r h',
            executeSingleAction otherBranch a h = (Ok r, h')
            /\ success r = true
            /\ written h' = written h ++ [region]
            /\ cells h' = setValues (cells h) region [[v]])
    /\ (forall fs region, type a = "formula"%string -> formulas a = Some fs ->
          resolve (range a) = Some region -> hasShape region fs = true ->
          nextFault (next h) = None ->
          exists r h',
            executeSingleAction otherBranch a h = (Ok r, h')
            /\ success r = true
            /\ written h' = written h ++ [region]
            /\ cells h'
               = setFormulas (calc h) (cells h) region (map (map normalizeFormula) fs))
    /\ (forall f region, type a = "formula"%string -> formulas a = None ->
          formula a = Some f -> f <> EmptyString ->
          resolve (range a) = Some region ->
          hasShape region [[f]] = true ->
          nextFault (next h) = None ->
          exists r h',
            executeSingleAction otherBranch a h = (Ok r, h')
            /\ success r = true
            /\ written h' = written h ++ [region]
            /\ cells h'
               = setFormulas (calc h) (cells h) region
                   [[if startsWith f "=" then f else ("=" ++ f)%string]]).
Proof.
  intros a h t start Hk Ha Hs Hf.
  destruct (protect_probe_fault a h Hk Ha Hs Hf) as [Hprobe Hprotect].
  split; [exact Hprobe|]. split; [exact Hprotect|].
  split; [|split; [|split]].
  - intros vs Ht Hv Hshape Hnf.
    destruct (plan_values a Ht Hv Hs Hshape) as (msg & Hplan).
    exact (@executeSingleAction_assigns a h (next h) _ msg Hk Hprotect Hplan Hnf Hshape).
  - intros v region Ht Hv Hval Hr Hshape Hnf.
    destruct (plan_value a Ht Hv Hval Hr) as (msg & Hplan).
    exact (@executeSingleAction_assigns a h (next h) _ msg Hk Hprotect Hplan Hnf Hshape).
  - intros fs region Ht Hfs Hr Hshape Hnf.
    destruct (plan_formulas a Ht Hfs Hr) as (msg & Hplan).
    apply (@executeSingleAction_assigns a h (next h) _ msg Hk Hprotect Hplan Hnf).
    cbn [shapeOk]. now rewrite hasShape_map.
  - intros f region Ht Hfs Hform Hne Hr Hshape Hnf.
    destruct (plan_formula a Ht Hfs Hform Hne Hr) as (msg & Hplan).
    apply (@executeSingleAction_assigns a h (next h) _ msg Hk Hprotect Hplan Hnf).
    exact Hshape.
Qed.

Lemma protect_refusal (a : ExcelAction) (h h1 : Host) (refused : ActionResult) :
  protect a h = (Ok (inr refused), h1) -> action refused = a /\ success refused = false.
Proof.
  unfold protect. destruct (isWriteKind a && negb (allowOverwrite a)); [|discriminate].
  unfold bind.
  destruct (checkRangeForData _ _ _ h) as [[check|t] h0]; [|discriminate].
  destruct (hasData check); [|discriminate].
  destruct (findEmptyRangeForData _ _ h0) as [[[e|]|t] h2]; try discriminate.
  - destruct (String.eqb e EmptyString); intros H; inversion H; subst; auto.
  - intros H; inversion H; subst; auto.
Qed.

Lemma executeSingleAction_total (a : ExcelAction) (h : Host) :
  exists r h', executeSingleAction otherBranch a h = (Ok r, h') /\ action r = a.
Proof.
  unfold executeSingleAction, tryCatch. unfold bind at 1.
  destruct (protect a h) as [[[[finalRange warn]|refused]|t] h1] eqn:Ep.
  - unfold bind at 1.
    destruct (run _ h1) as [[msg|t] h2]; [|unfold ret; eauto].
    destruct (isWriteKind a).
    + unfold bind. destruct (validateWriteAction a finalRange h2) as [[v|t] h3];
        unfold ret; eauto.
    + unfold ret; eauto.
  - apply protect_refusal in Ep. destruct Ep. unfold ret; eauto.
  - unfold ret; eauto.
Qed.

(** C8, amended.  [executeSingleAction] returns a result for every action
    and never raises, and a batch gets one result per action, in order,
    whatever failed on the way.  An error thrown by the request that carries
    out the action is reported as [success: false] with the error's message
    (or "Error desconocido" when what was thrown is not an Error).  Errors
    thrown inside the helpers are caught there and are not reported that
    way: when the read-back of the validation throws, the result keeps
    [success: true], with [validationPassed] true and the message that the
    action could not be validated; when the occupancy probe throws, the
    action goes on with its requested range; when the search for an empty
    region throws, the action is refused with [success: false] and the
    guard's own error text, and nothing is written. *)
Theorem executeActions_never_raises :
  forall (actions : list ExcelAction) (h : Host),
    (forall a h0, exists r h', executeSingleAction otherBranch a h0 = (Ok r, h')
                               /\ action r = a) /\
    (forall a h0 finalRange overwriteWarning h1 t h2,
        protect a h0 = (Ok (inl (finalRange, overwriteWarning)), h1) ->
        run (bind (dispatch otherBranch a finalRange overwriteWarning)
               (fun message => bind sync (fun _ => ret message))) h1 = (Throw t, h2) ->
        executeSingleAction otherBranch a h0
        = (Ok {| success := false; action := a;
                 message := ("Error en " ++ range a)%string;
                 error := Some (messageOr "Error desconocido" t);
                 validated := Some false; validationPassed := None;
                 validationMessage := None; actualValues := None |}, h2)) /\
    (exists rs h', executeActions otherBranch actions h = (Ok rs, h')
                   /\ map action rs = actions) /\
    (forall a h0 finalRange overwriteWarning h1 msg h2 t h3,
        isWriteKind a = true ->
        protect a h0 = (Ok (inl (finalRange, overwriteWarning)), h1) ->
        run (bind (dispatch otherBranch a finalRange overwriteWarning)
               (fun message => bind sync (fun _ => ret message))) h1 = (Ok msg, h2) ->
        reread a finalRange h2 = (Throw t, h3) ->
        executeSingleAction otherBranch a h0
        = (Ok {| success := true; action := a; message := msg; error := None;
                 validated := Some true; validationPassed := Some true;
                 validationMessage := Some CouldNotValidate;
                 actualValues := None |}, h3)) /\
    (forall a h0 t start,
        isWriteKind a = true -> allowOverwrite a = false ->
        resolve (beforeColon (range a)) = Some start ->
        nextFault h0 = Some t ->
        protect a h0 = (Ok (inl (range a, EmptyString)), next h0)) /\
    (forall a h0 t start,
        isWriteKind a = true -> allowOverwrite a = false ->
        resolve (beforeColon (range a)) = Some start ->
        nextFault h0 = None ->
        (exists row col,
            inRect (grow start (guardRows a) (guardCols a)) row col = true
            /\ isNonEmpty (cells h0 row col) = true) ->
        nextFault (next h0) = Some t ->
        exists r,
          executeSingleAction otherBranch a h0 = (Ok r, next (next h0))
          /\ success r = false
          /\ error r = Some "El rango contiene datos existentes. Seleccione un rango vacío o use allowOverwrite para forzar la escritura."%string).
Proof.
  intros actions h. split; [apply executeSingleAction_total|]. split; [|split; [|split; [|split]]].
  - intros a h0 finalRange warn h1 t h2 Hp Hrun.
    unfold executeSingleAction, tryCatch. unfold bind at 1. rewrite Hp.
    unfold bind at 1. rewrite Hrun. reflexivity.
  - revert h. induction actions as [|a rest IH]; intros h.
    + exists [], h. split; reflexivity.
    + cbn [executeActions]. unfold bind at 1.
      destruct (executeSingleAction_total a h) as (r & h1 & E & Ha). rewrite E.
      unfold bind at 1. destruct (IH h1) as (rs & h2 & E2 & Hrs). rewrite E2.
      exists (r :: rs), h2. split; [reflexivity|]. cbn [map]. now rewrite Ha, Hrs.
  - intros a h0 finalRange warn h1 msg h2 t h3 Hk Hp Hrun Hread.
    unfold executeSingleAction, tryCatch. unfold bind at 1. rewrite Hp.
    unfold bind at 1. rewrite Hrun. rewrite Hk. unfold bind at 1.
    unfold validateWriteAction, tryCatch. unfold bind at 1. rewrite Hread. reflexivity.
  - intros a h0 t start Hk Ha Hs Hf.
    exact (proj2 (protect_probe_fault a h0 Hk Ha Hs Hf)).
  - intros a h0 t start Hk Ha Hs Hf (row0 & col0 & Hin0 & Hne0) Hf2.
    assert (Hn : 0 < countCells isNonEmpty
                       (readRect (cells h0) (grow start (guardRows a) (guardCols a)))).
    { eapply countCells_pos; [apply readRect_In; exact Hin0|exact Hne0]. }
    rewrite executeSingleAction_write by exact Hk.
    rewrite (@protect_occupied a h0 start Hk Ha Hs Hf Hn).
    rewrite (findEmptyRangeForData_fault _ _ _ Hf2).
    eexists. split; [reflexivity|]. split; reflexivity.
Qed.

(** A formula action whose [formulas] is an empty array is never carried
    out: the host refuses the empty array for any range. *)
Lemma empty_formulas_fail (a : ExcelAction) (h : Host) :
  type a = "formula"%string -> formulas a = Some [] ->
  exists r h', executeSingleAction otherBranch a h = (Ok r, h') /\ success r = false.
Proof.
  intros Ht Hfs. rewrite executeSingleAction_write by (now apply isWriteKind_formula).
  destruct (protect a h) as [[[[finalRange warn]|refused]|t] h1] eqn:Ep.
  - unfold plan. rewrite Ht, Hfs. cbn [String.eqb Ascii.eqb Bool.eqb map].
    unfold onRange. destruct (resolve finalRange) as [r|] eqn:Er; cbn [carryOut].
    + destruct (nextFault h1); [eexists _, _; split; reflexivity|].
      cbn [applyCommand]. unfold hasShape. cbn [List.length forallb].
      destruct (ValidatorFacts.resolve_size _ Er) as [Hrows _].
      replace (0 =? rowCount r) with false by (symmetry; apply Nat.eqb_neq; lia).
      cbn [andb]. eexists _, _; split; reflexivity.
    + eexists _, _; split; reflexivity.
  - apply protect_refusal in Ep. destruct Ep. eauto.
  - eexists _, _; split; reflexivity.
Qed.

(** The hosts of a run of [executeSingleAction], for stating instances. *)
Definition resultOf (x : Exc ActionResult * Host) : option ActionResult :=
  match fst x with
  | Ok r => Some r
  | Throw _ => None
  end.

End WithOtherBranch.

(** The scenario of the specification: A2 holds data, and the three rows
    addressed to A2:A2 go to C1:C3. *)
Lemma guard_relocates_to_empty_region_witness :
  exists r,
    fst (executeSingleAction Samples.noOther Samples.threeRows (Samples.oldInA2 [])) = Ok r
    /\ writesOnlyEmpty (Samples.oldInA2 [])
         (snd (executeSingleAction Samples.noOther Samples.threeRows (Samples.oldInA2 [])))
         (Samples.region 2 1 3 1)
    /\ written (snd (executeSingleAction Samples.noOther Samples.threeRows
                       (Samples.oldInA2 [])))
       = [Samples.region 1 3 3 1].
Proof.
  destruct (@guard_relocates_to_empty_region Samples.noOther Samples.threeRows
              (Samples.oldInA2 [])
              (snd (executeSingleAction Samples.noOther Samples.threeRows (Samples.oldInA2 [])))
              (Samples.region 2 1 1 1)
              (fst (executeSingleAction Samples.noOther Samples.threeRows (Samples.oldInA2 []))))
    as (r & Hr & Hw & _).
  - reflexivity.
  - reflexivity.
  - intros Hnone. discriminate Hnone.
  - reflexivity.
  - reflexivity.
  - exists 2, 1. split; reflexivity.
  - apply surjective_pairing.
  - exists r. split; [exact Hr|]. split; [exact Hw|]. reflexivity.
Defined.

(** When the probe itself fails, the write of a single value to A2, which
    holds data, goes to A2. *)
Lemma overwrite_when_probe_fails :
  allowOverwrite (Samples.writeValues "A2" [[VStr "new"]]) = false
  /\ isNonEmpty (cells (Samples.oldInA2 [Some (ErrorObj "GeneralException")]) 2 1) = true
  /\ option_map success
       (resultOf (executeSingleAction Samples.noOther
                    (Samples.writeValues "A2" [[VStr "new"]])
                    (Samples.oldInA2 [Some (ErrorObj "GeneralException")])))
     = Some true
  /\ written (snd (executeSingleAction Samples.noOther
                     (Samples.writeValues "A2" [[VStr "new"]])
                     (Samples.oldInA2 [Some (ErrorObj "GeneralException")])))
     = [Samples.region 2 1 1 1]
  /\ cells (snd (executeSingleAction Samples.noOther
                   (Samples.writeValues "A2" [[VStr "new"]])
                   (Samples.oldInA2 [Some (ErrorObj "GeneralException")]))) 2 1
     = VStr "new".
Proof. repeat split; vm_compute; reflexivity. Qed.

(** C1 on a sheet whose only data is in A1: three formulas addressed to
    A3:A1.  The probe reads A3:A5, completes and counts no cell with data;
    the formulas are assigned to A1:A3, over the data in A1. *)
Lemma formula_write_escapes_the_probe_witness :
  fst (checkRangeForData "A3" 3 1 (Samples.oldInA1 []))
  = Ok {| hasData := false; nonEmptyCells := 0; totalCells := 3 |}
  /\ cells (Samples.oldInA1 []) 1 1 = VStr "old"
  /\ exists r h',
       executeSingleAction Samples.noOther Samples.threeFormulas (Samples.oldInA1 [])
       = (Ok r, h')
       /\ success r = true
       /\ written h' = [Samples.region 1 1 3 1]
       /\ cells h' 1 1 = VStr "=1".
Proof.
  split; [vm_compute; reflexivity|]. split; [reflexivity|].
  destruct (@formula_write_escapes_the_probe Samples.noOther Samples.threeFormulas
              (Samples.oldInA1 []) [["=1"]; ["=2"]; ["=3"]]%string
              (Samples.region 3 1 1 1) (Samples.region 1 1 3 1)
              eq_refl eq_refl eq_refl eq_refl eq_refl eq_refl eq_refl eq_refl)
    as (r & h' & E & Hs & Hw & Hc).
  - intros row col Hin. apply inRect_bounds in Hin.
    destruct Hin as (H1 & H2 & H3 & H4). cbn in H1, H2, H3, H4.
    assert (Hcol : col = 1) by lia. subst col.
    assert (Hrow : row = 3 \/ row = 4 \/ row = 5) by lia.
    destruct Hrow as [->|[->| ->]]; reflexivity.
  - exists r, h'. split; [exact E|]. split; [exact Hs|]. split; [exact Hw|].
    rewrite Hc. reflexivity.
Defined.

(** An instance of C9: the probe of a formula for A2 fails, and the formula
    is written to A2, over the data it holds. *)
Lemma probe_failure_fails_open_witness :
  cells (Samples.oldInA2 [Some (ErrorObj "GeneralException")]) 2 1 = VStr "old"
  /\ exists r h',
       executeSingleAction Samples.noOther (Samples.writeFormula "A2" "SUM(B1:B3)")
         (Samples.oldInA2 [Some (ErrorObj "GeneralException")])
       = (Ok r, h')
       /\ success r = true
       /\ written h' = [Samples.region 2 1 1 1]
       /\ cells h' 2 1 = VStr "=SUM(B1:B3)".
Proof.
  split; [reflexivity|].
  destruct (@probe_failure_fails_open Samples.noOther
              (Samples.writeFormula "A2" "SUM(B1:B3)")
              (Samples.oldInA2 [Some (ErrorObj "GeneralException")])
              (ErrorObj "GeneralException") (Samples.region 2 1 1 1)
              eq_refl eq_refl eq_refl eq_refl) as (_ & _ & _ & _ & _ & Hformula).
  destruct (Hformula "SUM(B1:B3)"%string (Samples.region 2 1 1 1)
              eq_refl eq_refl eq_refl) as (r & h' & E & Hs & Hw & Hc);
    [discriminate|reflexivity|reflexivity|reflexivity|].
  exists r, h'. split; [exact E|]. split; [exact Hs|]. split; [exact Hw|].
  rewrite Hc. reflexivity.
Defined.

(** C8, as stated, fails for the errors of the helpers.  The read-back of
    a write to A1 throws, and the result is a success without an error; the
    probe of a write to A2 throws, and the result is a success without an
    error; the search for an empty region throws, and the error of the
    result is the guard's text, not the message of what was thrown. *)
Lemma validation_error_is_absorbed :
  option_map success
    (resultOf (executeSingleAction Samples.noOther (Samples.writeValues "A1" [[VStr "x"]])
                 (Samples.document [] None
                    [None; None; Some (ErrorObj "GeneralException")])))
  = Some true
  /\ option_map error
       (resultOf (executeSingleAction Samples.noOther (Samples.writeValues "A1" [[VStr "x"]])
                    (Samples.document [] None
                       [None; None; Some (ErrorObj "GeneralException")])))
     = Some None
  /\ option_map validationMessage
       (resultOf (executeSingleAction Samples.noOther (Samples.writeValues "A1" [[VStr "x"]])
                    (Samples.document [] None
                       [None; None; Some (ErrorObj "GeneralException")])))
     = Some (Some CouldNotValidate)
  /\ faults (snd (executeSingleAction Samples.noOther
                    (Samples.writeValues "A1" [[VStr "x"]])
                    (Samples.document [] None
                       [None; None; Some (ErrorObj "GeneralException")])))
     = []
  /\ option_map (fun r => (success r, error r))
       (resultOf (executeSingleAction Samples.noOther
                    (Samples.writeValues "A2" [[VStr "new"]])
                    (Samples.oldInA2 [Some (ErrorObj "GeneralException")])))
     = Some (true, None)
  /\ option_map (fun r => (success r, error r))
       (resultOf (executeSingleAction Samples.noOther
                    (Samples.writeValues "A2" [[VStr "new"]])
                    (Samples.oldInA2 [None; Some (ErrorObj "GeneralException")])))
     = Some (false,
             Some "El rango contiene datos existentes. Seleccione un rango vacío o use allowOverwrite para forzar la escritura."%string).
Proof. repeat split; vm_compute; reflexivity. Qed.

(** C6: the search on a sheet whose data fills C1:E5.  The used range has
    3 columns and its last column is E (5); the first strip tested is
    column 3 + 2 = 5, that is E itself, and the address returned is F1, next
    to the data, where last used column + 2 is G1. *)
Lemma findEmptyRangeForData_used_range_not_at_A :
  usedRange (Samples.dataInCtoE []) = Some (Samples.region 1 3 5 3)
  /\ candidateRange (Samples.region 1 3 5 3) 2 1 1 = "E1:E5"%string
  /\ fst (findEmptyRangeForData 1 1 (Samples.dataInCtoE [])) = Ok (Some "F1"%string)
  /\ numberToColumn (5 + 2) = "G"%string.
Proof. repeat split; vm_compute; reflexivity. Qed.

End ExecutorFacts.

(** * Properties of the task pane *)

Module VerifyFacts.

Import Excel ExcelService Taskpane.

(** What the loop of [verifyFormulaResults] reads, action by action: the
    values of the non-empty cells of the action's range, or the error of
    the read. *)
Fixpoint readings (actions : list ExcelAction) (h : Host)
    : list (ExcelAction * Exc (list CellValue)) :=
  match actions with
  | [] => []
  | a :: rest =>
      let (r, h1) := readRange (range a) (sheetName a) h in
      (a, match r with Ok data => Ok (map snd data) | Throw t => Throw t end)
        :: readings rest h1
  end.

(** The three patterns that make the values read for an action
    suspicious: a text that looks like an error; more than 5 numbers, all of
    them zero; more than 10 numbers, over 90% of them zero. *)
Definition suspicious (vs : list CellValue) : bool :=
  let n := List.length (numbersOf vs) in
  let z := List.length (filter isZero (numbersOf vs)) in
  existsb looksLikeError (stringsOf vs)
  || ((5 <? n) && (z =? n))
  || ((10 <? n) && (90 * n <? 100 * z)).

Definition flagged (reading : ExcelAction * Exc (list CellValue)) : bool :=
  match snd reading with
  | Ok vs => suspicious vs
  | Throw _ => false
  end.

Lemma filter_nonempty {A} (p : A -> bool) (l : list A) :
  (0 <? List.length (filter p l)) = existsb p l.
Proof.
  induction l as [|x l IH]; simpl; [reflexivity|].
  destruct (p x); simpl; [reflexivity|exact IH].
Qed.

Lemma all_zero_count (ns : list Z) :
  forallb isZero ns = (List.length (filter isZero ns) =? List.length ns).
Proof.
  pose proof (ValidatorFacts.filter_all isZero ns) as H.
  destruct (forallb isZero ns).
  - symmetry. apply Nat.eqb_eq. now apply H.
  - symmetry. apply Nat.eqb_neq. intros E. apply H in E. discriminate.
Qed.

Definition found (r : Exc (option Anomaly)) : bool :=
  match r with
  | Ok (Some _) => true
  | _ => false
  end.

(** An action that was carried out has a formula text to quote. *)
Lemma formulaText_ok (a : ExcelAction) :
  formulas a <> Some [] -> exists text, formulaText a = Ok text.
Proof.
  intros H. unfold formulaText. destruct (hasFormula a); [eauto|].
  destruct (formulas a) as [[|row rest]|]; eauto. contradiction.
Qed.

Lemma inspect_suspicious (a : ExcelAction) (vs : list CellValue) :
  formulas a <> Some [] -> found (inspect a vs) = suspicious vs.
Proof.
  intros Ha. destruct (formulaText_ok a Ha) as (text & Et).
  unfold inspect, suspicious. rewrite Et.
  rewrite filter_nonempty, all_zero_count.
  set (n := List.length (numbersOf vs)).
  set (z := List.length (filter isZero (numbersOf vs))).
  destruct (existsb looksLikeError (stringsOf vs)); [reflexivity|]. cbn [orb].
  destruct (5 <? n) eqn:E5; cbn [andb].
  - destruct (z =? n) eqn:Ez; cbn [andb orb]; [reflexivity|].
    destruct (10 <? n); cbn [andb]; [|reflexivity].
    destruct (90 * n <? 100 * z); reflexivity.
  - replace (10 <? n) with false; [reflexivity|].
    symmetry. apply Nat.ltb_ge. apply Nat.ltb_ge in E5. lia.
Qed.

Lemma verifyOne_spec (a : ExcelAction) (h : Host) :
  formulas a <> Some [] ->
  exists r,
    verifyOne a h = (Ok r, snd (readRange (range a) (sheetName a) h))
    /\ (match r with Some _ => true | None => false end)
       = flagged (a, match fst (readRange (range a) (sheetName a) h) with
                     | Ok data => Ok (map snd data)
                     | Throw t => Throw t
                     end).
Proof.
  intros Ha. unfold verifyOne, tryCatch, bind, flagged.
  destruct (readRange (range a) (sheetName a) h) as [[data|t] h1]; cbn [fst snd].
  - rewrite <- (inspect_suspicious a (map snd data) Ha).
    destruct (inspect a (map snd data)) as [[x|]|t]; unfold ret, throw; cbn; eauto.
  - unfold ret. eauto.
Qed.

Lemma verifyLoop_spec (actions : list ExcelAction) :
  (forall a, In a actions -> formulas a <> Some []) ->
  forall (acc : list Anomaly) (h : Host),
    exists more h',
      verifyLoop actions acc h = (Ok (acc ++ more), h')
      /\ List.length more = List.length (filter flagged (readings actions h)).
Proof.
  induction actions as [|a rest IH]; intros Hall acc h.
  - exists [], h. split; [cbn; now rewrite app_nil_r|reflexivity].
  - cbn [verifyLoop readings]. unfold bind.
    destruct (verifyOne_spec a h (Hall a (or_introl eq_refl))) as (r & E & Hr). rewrite E.
    destruct (readRange (range a) (sheetName a) h) as [res h1]. cbn [fst snd] in *.
    cbn [filter]. rewrite <- Hr.
    assert (Hrest : forall x, In x rest -> formulas x <> Some [])
      by (intros x Hx; apply Hall; now right).
    destruct r as [x|].
    + destruct (IH Hrest (acc ++ [x]) h1) as (more & h' & E' & Hl).
      exists (x :: more), h'. rewrite E'. split; [now rewrite <- app_assoc|].
      cbn. now rewrite Hl.
    + destruct (IH Hrest acc h1) as (more & h' & E' & Hl).
      exists more, h'. rewrite E'. auto.
Qed.

(** C5, as stated, fails on small all-zero results: six zeros are flagged,
    although there are no more than ten numbers and no error text. *)
Lemma six_zeros_are_flagged :
  fst (verifyFormulaResults [Samples.writeFormula "A1:A6" "=SUMIF(B:B,1)"]
         (Samples.document
            [(1, 1, VNum 0); (2, 1, VNum 0); (3, 1, VNum 0);
             (4, 1, VNum 0); (5, 1, VNum 0); (6, 1, VNum 0)]
            (Some (Samples.region 1 1 6 1)) []))
  = Ok (true, [AllZero "A1:A6" 6 (inl "=SUMIF(B:B,1)"%string)]).
Proof. vm_compute. reflexivity. Qed.

(** [verifyFormulaResults] never throws; on actions that were carried out
    it asks for a correction exactly when some reading is flagged, with one
    entry of feedback per flagged reading; ten or more numbers that are all
    zero are flagged. *)
Lemma verifyFormulaResults_spec :
  forall (actions : list ExcelAction) (h : Host),
    (forall a, In a actions -> formulas a <> Some []) ->
    exists feedback h',
      verifyFormulaResults actions h
      = (Ok (existsb flagged (readings actions h), feedback), h')
      /\ List.length feedback = List.length (filter flagged (readings actions h))
      /\ (forall a vs,
            In (a, Ok vs) (readings actions h) ->
            10 <= List.length (numbersOf vs) ->
            forallb isZero (numbersOf vs) = true ->
            existsb flagged (readings actions h) = true).
Proof.
  intros actions h Hall. unfold verifyFormulaResults, tryCatch, bind.
  destruct (verifyLoop_spec actions Hall [] h) as (more & h' & E & Hl). rewrite E. cbn [app].
  rewrite Hl, filter_nonempty.
  assert (Hzeros : forall a vs,
            In (a, Ok vs) (readings actions h) ->
            10 <= List.length (numbersOf vs) ->
            forallb isZero (numbersOf vs) = true ->
            existsb flagged (readings actions h) = true).
  { intros a vs Hin Hn Hz. apply existsb_exists. exists (a, Ok vs). split; [exact Hin|].
    unfold flagged, suspicious. cbn [fst snd]. rewrite all_zero_count in Hz. rewrite Hz.
    replace (5 <? List.length (numbersOf vs)) with true
      by (symmetry; apply Nat.ltb_lt; lia).
    cbn. now rewrite orb_true_r. }
  destruct (existsb flagged (readings actions h)) eqn:Ex; unfold ret.
  - exists more, h'. rewrite <- filter_nonempty in Ex. rewrite <- Hl in Ex. auto.
  - exists [], h'. split; [reflexivity|]. split; [|exact Hzeros].
    rewrite <- filter_nonempty in Ex. apply Nat.ltb_ge in Ex. cbn. lia.
Qed.

End VerifyFacts.

Module OrchestratorFacts.

Import Excel ExcelService Taskpane Orchestrator.

Section Loop.

Variable otherBranch : ExcelAction -> Excel string.
Variable LightweightDataIndex : Type.
Variable highlightRange : string -> Excel unit.
Variable getUsedRangeInfo : Excel (option string).
Variable buildLightweightIndex : bool -> Excel (option LightweightDataIndex).
Variable formatLightweightIndexForContext : LightweightDataIndex -> string.

Let accept : nat -> Task unit :=
  acceptAllActions otherBranch highlightRange getUsedRangeInfo buildLightweightIndex
    formatLightweightIndexForContext.

(** The task pane after a batch with failures has been executed. *)
Definition afterFailed (w : World) (h1 : Host) (results : list ActionResult) : World :=
  update w h1 (requests w) (pendingActions w) results false
    ((events w ++ [ShowedResults results])
     ++ [Toast (showNat (List.length (filter success results)) ++ " OK, "
                ++ showNat (List.length results - List.length (filter success results))
                ++ " errores - reintentando...")%string]).

(** A batch with a failed action leads to one call of
    [requestErrorCorrection], whose continuation is the loop itself; no
    count of earlier rounds is consulted. *)
Lemma accept_failed_batch (fuel : nat) (w : World) (a : ExcelAction)
    (rest : list ExcelAction) (results : list ActionResult) (h1 : Host) :
  pendingActions w = a :: rest ->
  executeActions otherBranch (a :: rest) (host w) = (Ok results, h1) ->
  (List.length results - List.length (filter success results) =? 0) = false ->
  accept (S fuel) w
  = requestErrorCorrection getUsedRangeInfo buildLightweightIndex
      formatLightweightIndexForContext (accept fuel) results (afterFailed w h1 results).
Proof.
  intros Hp He Hn. unfold accept. cbn [acceptAllActions].
  unfold tbind at 1. unfold get at 1. rewrite Hp.
  unfold tbind, ttry, setLoading, excel, setLastActionResults, emit, tret.
  cbn [host update]. rewrite He.
  cbn [host update requests pendingActions lastActionResults loading events agent
       autoMode lastUserMessage].
  rewrite Hn. reflexivity.
Qed.


(** A try block whose handler always ends normally ends normally, or does
    not end. *)
Lemma ttry_ok (m : Task unit) (handler : Thrown -> Task unit) (w : World) :
  (forall t w1, exists w2, handler t w1 = Some (Ok tt, w2)) ->
  ttry m handler w = None \/ exists w', ttry m handler w = Some (Ok tt, w').
Proof.
  intros Hh. unfold ttry. destruct (m w) as [[[[]|t] w1]|]; eauto.
Qed.

Definition nowLoading (w : World) : World :=
  update w (host w) (requests w) (pendingActions w) (lastActionResults w) true (events w).

(** A correction request ends without an exception, or does not end. *)
Lemma requestResultCorrection_ok (k : Task unit) (feedback : list Anomaly)
    (original : string) (w : World) :
  requestResultCorrection buildLightweightIndex formatLightweightIndexForContext
    k feedback original w = None
  \/ exists w',
       requestResultCorrection buildLightweightIndex formatLightweightIndexForContext
         k feedback original w = Some (Ok tt, w').
Proof.
  unfold requestResultCorrection.
  match goal with |- context [tbind (setLoading true) ?f] =>
    change (tbind (setLoading true) f w) with (f tt (nowLoading w))
  end.
  cbv beta. apply ttry_ok. intros t w1. unfold tbind, emit, setLoading. eauto.
Qed.

(** The host after the highlight of the first range, whatever its
    outcome. *)
Definition afterHighlight (results : list ActionResult) (h1 : Host) : Host :=
  match results with
  | first :: _ =>
      if success first then snd (highlightRange (range (action first)) h1) else h1
  | [] => h1
  end.

(** The task pane after a successful batch has been flagged. *)
Definition afterFlagged (w : World) (h3 : Host) (results : list ActionResult) : World :=
  update w h3 (requests w) [] results false
    (((events w ++ [ShowedResults results])
      ++ [Toast (showNat (List.length (filter success results))
                 ++ " acciones completadas")%string])
     ++ [Toast "⚠️ Detectados resultados anómalos, solicitando corrección..."]).

(** A successful batch whose formula results are flagged leads to one call
    of [requestResultCorrection] with the feedback, whose continuation is
    the loop itself. *)
Lemma accept_flagged_batch (fuel : nat) (w : World) (a f : ExcelAction)
    (rest fs : list ExcelAction) (results : list ActionResult) (h1 h3 : Host)
    (feedback : list Anomaly) :
  pendingActions w = a :: rest ->
  executeActions otherBranch (a :: rest) (host w) = (Ok results, h1) ->
  (List.length results - List.length (filter success results) =? 0) = true ->
  filter isFormula (a :: rest) = f :: fs ->
  verifyFormulaResults (f :: fs) (afterHighlight results h1) = (Ok (true, feedback), h3) ->
  accept (S fuel) w
  = requestResultCorrection buildLightweightIndex formatLightweightIndexForContext
      (accept fuel) feedback (lastUserMessage w) (afterFlagged w h3 results).
Proof.
  intros Hp He Hn Hf Hv. unfold accept. cbn [acceptAllActions].
  destruct w as [h ag k p am lar lum ld ev].
  cbn [pendingActions host lastUserMessage] in *. subst p.
  unfold tbind, ttry, setLoading, excel, setLastActionResults, emit, tret, get,
    hidePendingActions, showPendingActions, afterFlagged.
  cbn [host update requests pendingActions lastActionResults loading events agent
       autoMode lastUserMessage].
  rewrite Hf, He.
  cbn [host update requests pendingActions lastActionResults loading events agent
       autoMode lastUserMessage].
  rewrite Hn. unfold afterHighlight in Hv.
  cbn [host update requests pendingActions lastActionResults loading events agent
       autoMode lastUserMessage].
  destruct results as [|first more]; [|destruct (success first)];
    cbn [host update requests pendingActions lastActionResults loading events agent
         autoMode lastUserMessage];
    try (destruct (highlightRange (range (action first)) h1) as [[[]|t] hh]);
    cbn [snd] in Hv;
    cbn [host update requests pendingActions lastActionResults loading events agent
         autoMode lastUserMessage];
    rewrite Hv;
    unfold update;
    cbn [fst snd host requests pendingActions lastActionResults loading events
         agent autoMode lastUserMessage];
    match goal with |- context [requestResultCorrection _ _ ?k ?fb ?o ?ww] =>
      destruct (requestResultCorrection_ok k fb o ww) as [E|(w' & E)]; rewrite E
    end; reflexivity.
Qed.


(** When the reply carries no actions, or the mode is not automatic, the
    loop is not entered again. *)
Lemma resume_stops (k : Task unit) (response : Response) (w : World) :
  newActions response = None \/ newActions response = Some [] \/ autoMode w = false ->
  exists w',
    resume k response w = Some (Ok tt, w')
    /\ requests w' = requests w
    /\ correctionRounds w' = correctionRounds w.
Proof.
  intros H. unfold resume, correctionRounds.
  destruct (newActions response) as [[|a rest]|] eqn:E.
  - eexists. split; [reflexivity|]. split; [reflexivity|].
    cbn [events update]. rewrite filter_app, length_app. cbn. lia.
  - destruct H as [H|[H|H]]; try discriminate.
    unfold tbind, emit, showPendingActions, get, setLoading.
    cbn [autoMode update]. rewrite H.
    eexists. split; [reflexivity|]. split; [reflexivity|].
    cbn [events update]. rewrite filter_app, length_app. cbn. lia.
  - eexists. split; [reflexivity|]. split; [reflexivity|].
    cbn [events update]. rewrite filter_app, length_app. cbn. lia.
Qed.

End Loop.

(** *** The loop on an agent that keeps sending a failing action *)

Definition badResult : ActionResult :=
  {| success := false; action := Samples.badWrite; message := "Error en ??";
     error := Some "The argument is invalid or missing or has an incorrect format.";
     validated := Some false; validationPassed := None;
     validationMessage := None; actualValues := None |}.

Lemma bad_batch (h : Host) :
  executeActions Samples.noOther [Samples.badWrite] h
  = (Ok [badResult], withQueue (withQueue h []) []).
Proof. reflexivity. Qed.

(** The task pane once the correction of [badWrite] has been requested. *)
Definition asked (w : World) : World :=
  update w (withQueue (withQueue (host w) []) []) (S (requests w)) (pendingActions w)
    [badResult] true
    ((((events w ++ [ShowedResults [badResult]])
       ++ [Toast "0 OK, 1 errores - reintentando..."])
      ++ [Said "user" "⚠️ Corrigiendo errores..."])
     ++ [AskedErrorCorrection [badResult] None]).

(** One round on [badWrite]: the batch fails, the correction is requested,
    and the answer decides whether the loop is entered again. *)
Lemma bad_round (fuel : nat) (w : World) :
  pendingActions w = [Samples.badWrite] ->
  Samples.loop (S fuel) w =
    match agent w (requests w) with
    | Ok response =>
        match resume (Samples.loop fuel) response (asked w) with
        | Some (Ok u, w') => Some (Ok u, w')
        | Some (Throw _, w') =>
            (emit (Toast "Error al solicitar corrección") ;;; setLoading false)%task w'
        | None => None
        end
    | Throw _ =>
        (emit (Toast "Error al solicitar corrección") ;;; setLoading false)%task (asked w)
    end.
Proof.
  intros Hp. unfold Samples.loop.
  rewrite (@accept_failed_batch Samples.noOther unit (fun _ => ret tt) (ret None)
             (fun _ => ret None) (fun _ => EmptyString) fuel w Samples.badWrite []
             [badResult] (withQueue (withQueue (host w) []) []) Hp
             (bad_batch (host w)) eq_refl).
  destruct w as [h ag k p am lar lum ld ev]. cbn [pendingActions] in Hp. subst p.
  unfold requestErrorCorrection, afterFailed, asked.
  cbn [filter success badResult negb].
  unfold tbind, ttry, setLoading, excel, emit, tret, sendMessageStructured, ret.
  cbn [host update requests pendingActions lastActionResults loading events agent
       autoMode lastUserMessage String.eqb].
  destruct (ag k) as [response|t]; reflexivity.
Qed.

(** The task pane when the agent has answered with [badWrite] again. *)
Definition reentered (w : World) : World :=
  update (asked w) (host (asked w)) (requests (asked w)) [Samples.badWrite]
    (lastActionResults (asked w)) (loading (asked w))
    (events (asked w) ++ [Said "assistant" "retry"]).

Lemma resume_retry (k : Task unit) (w : World) :
  autoMode w = true -> resume k Samples.retry (asked w) = k (reentered w).
Proof.
  intros Ha. unfold resume, Samples.retry. cbn [newActions reply].
  unfold tbind, emit, showPendingActions, get.
  cbn [autoMode update asked]. rewrite Ha. reflexivity.
Qed.

Lemma rounds_asked (w : World) : correctionRounds (asked w) = S (correctionRounds w).
Proof.
  unfold correctionRounds, asked. cbn [events update].
  repeat rewrite filter_app. repeat rewrite length_app. cbn. lia.
Qed.

Lemma rounds_reentered (w : World) : correctionRounds (reentered w) = S (correctionRounds w).
Proof.
  unfold reentered. unfold correctionRounds at 1. cbn [events update].
  rewrite filter_app, length_app.
  change (List.length (filter isCorrectionRequest (events (asked w))))
    with (correctionRounds (asked w)).
  rewrite rounds_asked. cbn. lia.
Qed.

(** As many rounds as the agent sends failing actions, and one more. *)
Lemma stubborn_rounds (m : nat) :
  forall w,
    pendingActions w = [Samples.badWrite] ->
    autoMode w = true ->
    agent w = Samples.stubborn (requests w + m) ->
    exists w',
      Samples.loop (S m) w = Some (Ok tt, w')
      /\ correctionRounds w' = correctionRounds w + S m
      /\ requests w' = requests w + S m.
Proof.
  induction m as [|m IH]; intros w Hp Ha Hag; rewrite bad_round by exact Hp;
    rewrite Hag; unfold Samples.stubborn.
  - replace (requests w <? requests w + 0) with false
      by (symmetry; apply Nat.ltb_ge; lia).
    destruct (@resume_stops (Samples.loop 0) Samples.giveUp (asked w) (or_introl eq_refl))
      as (w' & E & Hr & Hc).
    rewrite E. exists w'. split; [reflexivity|].
    rewrite Hc, Hr, rounds_asked. cbn [requests asked update]. lia.
  - replace (requests w <? requests w + S m) with true
      by (symmetry; apply Nat.ltb_lt; lia).
    rewrite resume_retry by exact Ha.
    destruct (IH (reentered w)) as (w' & E & Hc & Hr).
    + reflexivity.
    + exact Ha.
    + cbn [agent requests reentered asked update]. rewrite Hag. f_equal. lia.
    + rewrite E. exists w'. split; [reflexivity|].
      rewrite Hc, Hr, rounds_reentered. cbn [requests reentered asked update]. lia.
Qed.

(** On an agent that always sends the failing action again the loop does
    not end, whatever number of steps it is granted. *)
Lemma insistent_never_ends (fuel : nat) :
  forall w,
    pendingActions w = [Samples.badWrite] ->
    autoMode w = true ->
    agent w = Samples.insistent ->
    Samples.loop fuel w = None.
Proof.
  induction fuel as [|fuel IH]; intros w Hp Ha Hag; [reflexivity|].
  rewrite bad_round by exact Hp. rewrite Hag. unfold Samples.insistent.
  rewrite resume_retry by exact Ha. rewrite IH; auto.
Qed.

(** C2, as stated, fails: an agent that answers three times with an action
    that fails is asked for a correction four times, all of them for hard
    failures. *)
Lemma four_rounds_for_hard_failures :
  option_map (fun x => (correctionRounds (snd x), requests (snd x)))
    (Samples.loop 10 (Samples.turn (Samples.stubborn 3) (Samples.document [] None [])))
  = Some (4, 4).
Proof. vm_compute. reflexivity. Qed.

(** C2, amended.  The correction loop has no retry ceiling.  A batch with a
    failed action leads to one correction request whose continuation is the
    loop itself, whatever happened before; the loop is entered again
    whenever the reply carries actions and the mode is automatic, and it
    stops when the reply carries no actions or the mode is not automatic.
    So an agent that sends a failing action [n] times is asked [n + 1]
    times, for every [n], and on an agent that always sends a failing
    action the loop does not end. *)
Theorem correction_loop_has_no_ceiling :
  (forall n h,
      exists w',
        Samples.loop (S n) (Samples.turn (Samples.stubborn n) h) = Some (Ok tt, w')
        /\ correctionRounds w' = S n /\ requests w' = S n) /\
  (forall fuel h, Samples.loop fuel (Samples.turn Samples.insistent h) = None) /\
  (forall k response w,
      newActions response = None \/ newActions response = Some [] \/ autoMode w = false ->
      exists w',
        resume k response w = Some (Ok tt, w')
        /\ requests w' = requests w /\ correctionRounds w' = correctionRounds w) /\
  (forall otherBranch (Index : Type) highlightRange getUsedRangeInfo
          (buildLightweightIndex : bool -> Excel (option Index)) format
          fuel w a rest results h1,
      pendingActions w = a :: rest ->
      executeActions otherBranch (a :: rest) (host w) = (Ok results, h1) ->
      (List.length results - List.length (filter success results) =? 0) = false ->
      acceptAllActions otherBranch highlightRange getUsedRangeInfo buildLightweightIndex
        format (S fuel) w
      = requestErrorCorrection getUsedRangeInfo buildLightweightIndex format
          (acceptAllActions otherBranch highlightRange getUsedRangeInfo
             buildLightweightIndex format fuel)
          results (afterFailed w h1 results)).
Proof.
  split; [|split; [|split]].
  - intros n h.
    destruct (@stubborn_rounds n (Samples.turn (Samples.stubborn n) h) eq_refl eq_refl eq_refl)
      as (w' & E & Hc & Hr).
    exists w'. split; [exact E|]. cbn in Hc, Hr. auto.
  - intros fuel h. apply insistent_never_ends; reflexivity.
  - intros k response w H. now apply resume_stops.
  - intros. eapply accept_failed_batch; eauto.
Qed.

(** C5, amended.  On a batch of formula actions that were carried out
    (none of them has an empty array of formulas: the host never carries
    such an action out), [verifyFormulaResults] never throws, and it asks
    for a correction exactly when, for some action whose range could be
    read, the values read contain a text that starts with #, contains ERROR
    or contains an inverted exclamation mark, or more than 5 numbers all of
    which are zero, or more than 10 numbers of which over 90% are zero; the
    feedback has one entry per such action.  In particular ten or more
    numbers that are all zero are flagged.  A successful batch that is
    flagged leads to one call of [requestResultCorrection] with that
    feedback, whose continuation is the loop itself. *)
Theorem suspicious_results_are_flagged :
  forall (actions : list ExcelAction) (h : Host),
    (forall a, In a actions -> formulas a <> Some []) ->
    (exists feedback h',
        verifyFormulaResults actions h
        = (Ok (existsb VerifyFacts.flagged (VerifyFacts.readings actions h), feedback), h')
        /\ List.length feedback
           = List.length (filter VerifyFacts.flagged (VerifyFacts.readings actions h))) /\
    (forall a vs,
        In (a, Ok vs) (VerifyFacts.readings actions h) ->
        10 <= List.length (numbersOf vs) ->
        forallb isZero (numbersOf vs) = true ->
        existsb VerifyFacts.flagged (VerifyFacts.readings actions h) = true) /\
    (forall otherBranch a h0,
        type a = "formula"%string -> formulas a = Some [] ->
        exists r h', executeSingleAction otherBranch a h0 = (Ok r, h')
                     /\ success r = false) /\
    (forall otherBranch (Index : Type) highlightRange getUsedRangeInfo
            (buildLightweightIndex : bool -> Excel (option Index)) format
            fuel w a f rest fs results h1 h3 feedback,
        pendingActions w = a :: rest ->
        executeActions otherBranch (a :: rest) (host w) = (Ok results, h1) ->
        (List.length results - List.length (filter success results) =? 0) = true ->
        filter isFormula (a :: rest) = f :: fs ->
        verifyFormulaResults (f :: fs) (afterHighlight highlightRange results h1)
        = (Ok (true, feedback), h3) ->
        acceptAllActions otherBranch highlightRange getUsedRangeInfo buildLightweightIndex
          format (S fuel) w
        = requestResultCorrection buildLightweightIndex format
            (acceptAllActions otherBranch highlightRange getUsedRangeInfo
               buildLightweightIndex format fuel)
            feedback (lastUserMessage w) (afterFlagged w h3 results)).
Proof.
  intros actions h Hall.
  destruct (VerifyFacts.verifyFormulaResults_spec actions h Hall) as (fb & h' & E & Hl & Hz).
  split; [eauto|]. split; [exact Hz|]. split.
  - intros otherBranch a h0. apply ExecutorFacts.empty_formulas_fail.
  - intros. eapply accept_flagged_batch; eauto.
Qed.

(** An instance: the formula of A1:A12 shows twelve zeros; the batch is
    flagged with one entry of feedback. *)
Lemma suspicious_results_are_flagged_witness :
  exists feedback h',
    verifyFormulaResults [Samples.writeFormula "A1:A12" "=SUMIF(B:B,1)"]
      (Samples.document (map (fun row => (row, 1, VNum 0)) (seq 1 12))
         (Some (Samples.region 1 1 12 1)) [])
    = (Ok (true, feedback), h')
    /\ List.length feedback = 1.
Proof.
  destruct (@suspicious_results_are_flagged
              [Samples.writeFormula "A1:A12" "=SUMIF(B:B,1)"]
              (Samples.document (map (fun row => (row, 1, VNum 0)) (seq 1 12))
                 (Some (Samples.region 1 1 12 1)) []))
    as ((feedback & h' & E & Hl) & _).
  - intros a [<-|[]]. discriminate.
  - exists feedback, h'. split; [exact E|exact Hl].
Defined.

End OrchestratorFacts.

(** * Facts about the further parts *)

From Stdlib Require Import Sorted Permutation.

(** ** Column letters *)

Module ColumnLettersFacts.

Import Excel ExcelService ColumnLetters.

Lemma numberToColumnLetter_loop_eq (fuel n : nat) (acc : string) :
  numberToColumnLetter_loop fuel (Z.of_nat n) acc = numberToColumn_loop fuel n acc.
Proof.
  revert n acc. induction fuel as [|fuel IH]; intros n acc; [reflexivity|].
  cbn [numberToColumnLetter_loop numberToColumn_loop].
  destruct (0 <? n) eqn:E.
  - apply Nat.ltb_lt in E.
    replace (0 <? Z.of_nat n)%Z with true by (symmetry; apply Z.ltb_lt; lia).
    replace (Z.of_nat n - 1)%Z with (Z.of_nat (n - 1)) by lia.
    change 26%Z with (Z.of_nat 26).
    rewrite <- (Nat2Z.inj_div (n - 1) 26), <- (Nat2Z.inj_mod (n - 1) 26).
    rewrite IH. do 3 f_equal. lia.
  - apply Nat.ltb_ge in E.
    replace (0 <? Z.of_nat n)%Z with false by (symmetry; apply Z.ltb_ge; lia).
    reflexivity.
Qed.

Lemma columnIndexToLetter_loop_eq (fuel n : nat) (acc : string) :
  columnIndexToLetter_loop fuel (Z.of_nat n) acc = numberToColumn_loop fuel (S n) acc.
Proof.
  revert n acc. induction fuel as [|fuel IH]; intros n acc; [reflexivity|].
  cbn [columnIndexToLetter_loop numberToColumn_loop].
  replace (0 <=? Z.of_nat n)%Z with true by (symmetry; apply Z.leb_le; lia).
  replace (0 <? S n) with true by (symmetry; apply Nat.ltb_lt; lia).
  replace (S n - 1) with n by lia.
  change 26%Z with (Z.of_nat 26).
  rewrite <- (Nat2Z.inj_mod n 26).
  replace (Z.to_nat (Z.of_nat (n mod 26) + 65)) with (65 + n mod 26) by lia.
  destruct (n / 26) as [|q] eqn:Eq.
  - (* the index falls to -1: both loops stop *)
    rewrite <- (Nat2Z.inj_div n 26), Eq. cbn [Z.of_nat Z.sub Z.add Z.opp Z.pos_sub].
    destruct fuel; reflexivity.
  - rewrite <- (Nat2Z.inj_div n 26), Eq.
    replace (Z.of_nat (S q) - 1)%Z with (Z.of_nat q) by lia.
    apply IH.
Qed.

(** X1.  The three converters from a column number to its letters compute
    the same function: [numberToColumnLetter] and [numberToColumn] agree
    on every number, and [columnIndexToLetter] of a 0-based index is
    [numberToColumn] of the index plus one. *)
Theorem column_converters_agree :
  forall n : nat,
    numberToColumnLetter (Z.of_nat n) = numberToColumn n
    /\ columnIndexToLetter (Z.of_nat n) = numberToColumn (S n).
Proof.
  intros n. split.
  - unfold numberToColumnLetter, numberToColumn. rewrite Nat2Z.id.
    apply numberToColumnLetter_loop_eq.
  - unfold columnIndexToLetter, numberToColumn. rewrite Nat2Z.id.
    apply columnIndexToLetter_loop_eq.
Qed.

Lemma columnLetterToNumber_loop_app (a b : string) (acc : Z) :
  columnLetterToNumber_loop acc (a ++ b)
  = columnLetterToNumber_loop (columnLetterToNumber_loop acc a) b.
Proof. revert acc; induction a as [|x a IH]; intros acc; simpl; [reflexivity|apply IH]. Qed.

Lemma loop_decode (fuel n : nat) (acc : string) :
  n <= fuel ->
  columnLetterToNumber (numberToColumn_loop fuel n acc)
  = columnLetterToNumber_loop (Z.of_nat n) acc.
Proof.
  unfold columnLetterToNumber.
  revert n acc. induction fuel as [|fuel IH]; intros n acc Hn; cbn [numberToColumn_loop].
  - now replace n with 0 by lia.
  - destruct (0 <? n) eqn:E.
    + apply Nat.ltb_lt in E.
      assert (Hm : (n - 1) mod 26 < 26) by (apply Nat.mod_upper_bound; lia).
      assert (Hd : (n - 1) / 26 <= fuel).
      { pose proof (Nat.Div0.div_le_upper_bound (n - 1) 26 fuel). lia. }
      rewrite IH by exact Hd. cbn [columnLetterToNumber_loop]. f_equal.
      rewrite (AddressFacts.letter_code Hm).
      pose proof (Nat.div_mod_eq (n - 1) 26). lia.
    + apply Nat.ltb_ge in E. now replace n with 0 by lia.
Qed.

Lemma numberToColumn_decode (n : nat) :
  columnLetterToNumber (numberToColumn n) = Z.of_nat n.
Proof. unfold numberToColumn. now rewrite loop_decode. Qed.

(** X2.  Decoding what [numberToColumnLetter] wrote gives the number back:
    the pair the search and text-to-columns branches use to step from a start
    column is a round trip on every column number. *)
Theorem column_number_round_trip :
  forall n : nat,
    columnLetterToNumber (numberToColumnLetter (Z.of_nat n)) = Z.of_nat n
    /\ columnLetterToNumber (numberToColumn n) = Z.of_nat n.
Proof.
  intros n. pose proof (numberToColumn_decode n) as H.
  split; [|exact H].
  unfold numberToColumnLetter. rewrite Nat2Z.id, numberToColumnLetter_loop_eq. exact H.
Qed.

(** The string the loop of [numberToColumn] builds does not depend on the
    fuel left over. *)
Lemma loop_fuel (fuel n : nat) (acc : string) :
  n <= fuel -> numberToColumn_loop fuel n acc = numberToColumn_loop n n acc.
Proof.
  revert fuel acc. induction n as [n IH] using lt_wf_ind. intros fuel acc Hn.
  destruct n as [|n].
  - destruct fuel; reflexivity.
  - destruct fuel as [|fuel]; [lia|].
    cbn [numberToColumn_loop]. replace (0 <? S n) with true by reflexivity.
    assert (Hd : (S n - 1) / 26 <= n).
    { replace (S n - 1) with n by lia. apply Nat.Div0.div_le_upper_bound. lia. }
    rewrite (IH ((S n - 1) / 26)) by lia.
    symmetry. rewrite (IH ((S n - 1) / 26)) by lia. reflexivity.
Qed.

(** One more letter: the column [26 m + v] is the column [m] followed by the
    [v]-th letter. *)
Lemma numberToColumn_snoc (m v : nat) :
  1 <= v <= 26 ->
  numberToColumn (26 * m + v)
  = (numberToColumn m ++ String (ascii_of_nat (64 + v)) EmptyString)%string.
Proof.
  intros Hv. unfold numberToColumn at 1.
  destruct (26 * m + v) as [|k] eqn:Ek; [lia|].
  cbn [numberToColumn_loop]. replace (0 <? S k) with true by reflexivity.
  replace (S k - 1) with (v - 1 + m * 26) by lia.
  rewrite Nat.div_add by lia. rewrite Nat.Div0.mod_add.
  rewrite (Nat.div_small (v - 1) 26) by lia. rewrite (Nat.mod_small (v - 1) 26) by lia.
  cbn [Nat.add]. rewrite AddressFacts.loop_app.
  rewrite loop_fuel by lia. unfold numberToColumn.
  do 2 f_equal. f_equal. lia.
Qed.

Lemma upper_value (c : ascii) :
  isUpper c = true ->
  1 <= nat_of_ascii c - 64 <= 26 /\ ascii_of_nat (64 + (nat_of_ascii c - 64)) = c.
Proof.
  unfold isUpper. intros H. apply andb_true_iff in H. destruct H as [H1 H2].
  apply Nat.leb_le in H1. apply Nat.leb_le in H2. split; [lia|].
  replace (64 + (nat_of_ascii c - 64)) with (nat_of_ascii c) by lia.
  apply ascii_nat_embedding.
Qed.

Lemma encode_decode (s : string) (m : nat) :
  AddressFacts.allSat isUpper s = true ->
  exists k, columnLetterToNumber_loop (Z.of_nat m) s = Z.of_nat k
            /\ numberToColumn k = (numberToColumn m ++ s)%string.
Proof.
  revert m. induction s as [|c s IH]; intros m Hs.
  - exists m. split; [reflexivity|]. clear. induction (numberToColumn m); simpl; congruence.
  - cbn [AddressFacts.allSat] in Hs. apply andb_true_iff in Hs. destruct Hs as [Hc Hs].
    destruct (upper_value c Hc) as [Hv Hback].
    destruct (IH (26 * m + (nat_of_ascii c - 64)) Hs) as (k & Hk & Hn).
    exists k. split.
    + cbn [columnLetterToNumber_loop]. rewrite <- Hk. f_equal. lia.
    + rewrite Hn, numberToColumn_snoc by exact Hv. rewrite Hback.
      rewrite AddressFacts.append_assoc. reflexivity.
Qed.

(** X3.  Encoding what [columnLetterToNumber] read gives the letters back,
    for every column written in capital letters (the empty one included). *)
Theorem column_letters_round_trip :
  forall column : string,
    AddressFacts.allSat isUpper column = true ->
    numberToColumnLetter (columnLetterToNumber column) = column.
Proof.
  intros column Hs.
  destruct (encode_decode column 0 Hs) as (k & Hk & Hn).
  unfold columnLetterToNumber. change 0%Z with (Z.of_nat 0). rewrite Hk.
  unfold numberToColumnLetter. rewrite Nat2Z.id, numberToColumnLetter_loop_eq.
  exact Hn.
Qed.

Lemma column_letters_round_trip_witness :
  numberToColumnLetter (columnLetterToNumber "ES") = "ES".
Proof. apply column_letters_round_trip. reflexivity. Defined.

(** The letters of the example in the source: column 149 is ES, and two
    columns further is EU. *)
Example column_ES :
  numberToColumn 149 = "ES" /\ columnLetterToNumber "ES" = 149%Z
  /\ numberToColumnLetter (columnLetterToNumber "ES" + 2) = "EU".
Proof. repeat split; vm_compute; reflexivity. Qed.

End ColumnLettersFacts.

(** ** Strings *)

Module TextFacts.

Import Text.

Lemma length_app (a b : string) :
  String.length (a ++ b) = String.length a + String.length b.
Proof. induction a as [|x a IH]; simpl; [reflexivity|now rewrite IH]. Qed.

Lemma app_empty (a : string) : (a ++ EmptyString)%string = a.
Proof. induction a as [|x a IH]; simpl; [reflexivity|now rewrite IH]. Qed.





Lemma split_nonempty (sep : ascii) (s : string) : split sep s <> [].
Proof.
  destruct s as [|c s]; cbn [split]; [discriminate|].
  destruct (Ascii.eqb c sep); [discriminate|].
  destruct (split sep s); discriminate.
Qed.

(** Joining the pieces of a split with the separator gives the text back. *)
Lemma join_split (sep : ascii) (s : string) :
  join (String sep EmptyString) (split sep s) = s.
Proof.
  induction s as [|c s IH]; [reflexivity|].
  cbn [split]. pose proof (split_nonempty sep s) as Hne.
  destruct (Ascii.eqb_spec c sep) as [->|Hc].
  - destruct (split sep s) as [|p ps]; [contradiction|].
    change (join (String sep EmptyString) (EmptyString :: p :: ps))
      with (String sep (join (String sep EmptyString) (p :: ps))).
    now rewrite IH.
  - destruct (split sep s) as [|p ps]; [contradiction|].
    rewrite <- IH. destruct ps; reflexivity.
Qed.




Lemma replaceAllChar_app (c : ascii) (r a b : string) :
  replaceAllChar c r (a ++ b) = (replaceAllChar c r a ++ replaceAllChar c r b)%string.
Proof.
  induction a as [|x a IH]; [reflexivity|]. cbn [append replaceAllChar].
  rewrite IH. destruct (Ascii.eqb x c); [|reflexivity].
  now rewrite AddressFacts.append_assoc.
Qed.

End TextFacts.

(** ** Text helpers of the task pane *)

Module MarkupFacts.

Import Regex Text TextFacts Markup.

(** What [escapeHtml] writes for one character. *)
Definition entity (x : ascii) : string :=
  if Ascii.eqb x "&" then "&amp;"
  else if Ascii.eqb x JsonText.dquote then "&quot;"
  else if Ascii.eqb x "'" then "&#39;"
  else if Ascii.eqb x "<" then "&lt;"
  else if Ascii.eqb x ">" then "&gt;"
  else String x EmptyString.

(** The characters with a meaning in HTML text and attribute values, the
    ampersand apart. *)
Definition isMarkup (c : ascii) : bool :=
  Ascii.eqb c "<" || Ascii.eqb c ">" || Ascii.eqb c JsonText.dquote || Ascii.eqb c "'".

Lemma escapeHtml_one (x : ascii) : escapeHtml (String x EmptyString) = entity x.
Proof.
  unfold escapeHtml, entity. cbn [replaceAllChar].
  destruct (Ascii.eqb_spec x "&") as [->|H1]; [reflexivity|].
  cbn [replaceAllChar].
  destruct (Ascii.eqb_spec x JsonText.dquote) as [->|H2]; [reflexivity|].
  cbn [replaceAllChar].
  destruct (Ascii.eqb_spec x "'") as [->|H3]; [reflexivity|].
  cbn [replaceAllChar].
  destruct (Ascii.eqb_spec x "<") as [->|H4]; [reflexivity|].
  cbn [replaceAllChar].
  destruct (Ascii.eqb_spec x ">") as [->|H5]; reflexivity.
Qed.

Lemma escapeHtml_app (a b : string) :
  escapeHtml (a ++ b) = (escapeHtml a ++ escapeHtml b)%string.
Proof. unfold escapeHtml. now rewrite !replaceAllChar_app. Qed.

Lemma escapeHtml_cons (x : ascii) (s : string) :
  escapeHtml (String x s) = (entity x ++ escapeHtml s)%string.
Proof.
  change (String x s) with (String x EmptyString ++ s)%string.
  now rewrite escapeHtml_app, escapeHtml_one.
Qed.

Lemma entity_safe (x : ascii) :
  AddressFacts.allSat (fun c => negb (isMarkup c)) (entity x) = true.
Proof.
  unfold entity.
  destruct (Ascii.eqb_spec x "&"); [reflexivity|].
  destruct (Ascii.eqb_spec x JsonText.dquote); [reflexivity|].
  destruct (Ascii.eqb_spec x "'"); [reflexivity|].
  destruct (Ascii.eqb_spec x "<"); [reflexivity|].
  destruct (Ascii.eqb_spec x ">"); [reflexivity|].
  cbn [AddressFacts.allSat]. rewrite andb_true_r. unfold isMarkup.
  apply negb_true_iff.
  repeat (apply orb_false_iff; split); now apply Ascii.eqb_neq.
Qed.

(** X4.  The text [escapeHtml] returns holds no angle bracket and no
    quote, single or double, whatever the input: it cannot close the
    attribute value or open a tag where it is inserted. *)
Theorem escapeHtml_leaves_no_markup :
  forall text : string,
    AddressFacts.allSat (fun c => negb (isMarkup c)) (escapeHtml text) = true.
Proof.
  induction text as [|x text IH]; [reflexivity|].
  rewrite escapeHtml_cons, AddressFacts.allSat_app, IH, entity_safe. reflexivity.
Qed.

Lemma entity_prefix_free (x y : ascii) (a b : string) :
  (entity x ++ a)%string = (entity y ++ b)%string -> x = y /\ a = b.
Proof.
  unfold entity. intros H.
  destruct (Ascii.eqb_spec x "&"); destruct (Ascii.eqb_spec y "&");
  destruct (Ascii.eqb_spec x JsonText.dquote); destruct (Ascii.eqb_spec y JsonText.dquote);
  destruct (Ascii.eqb_spec x "'"); destruct (Ascii.eqb_spec y "'");
  destruct (Ascii.eqb_spec x "<"); destruct (Ascii.eqb_spec y "<");
  destruct (Ascii.eqb_spec x ">"); destruct (Ascii.eqb_spec y ">");
  subst; try discriminate; cbn [append] in H;
  try (injection H; intros; subst; split; congruence);
  try (exfalso; injection H; intros; congruence).
Qed.

(** X5.  [escapeHtml] loses nothing: two texts with the same escaped form
    are the same text. *)
Theorem escapeHtml_injective :
  forall a b : string, escapeHtml a = escapeHtml b -> a = b.
Proof.
  induction a as [|x a IH]; intros [|y b] H.
  - reflexivity.
  - exfalso. rewrite escapeHtml_cons in H. unfold entity in H.
    repeat match type of H with context [if ?c then _ else _] => destruct c end;
      discriminate.
  - exfalso. rewrite escapeHtml_cons in H. unfold entity in H.
    repeat match type of H with context [if ?c then _ else _] => destruct c end;
      discriminate.
  - rewrite !escapeHtml_cons in H. apply entity_prefix_free in H.
    destruct H as [-> H]. f_equal. now apply IH.
Qed.

Lemma escapeHtml_injective_witness :
  "a<b" = "a<b".
Proof. apply escapeHtml_injective. reflexivity. Defined.







(** No line is a separator row once trimmed. *)
Definition noSeparatorRow (lines : list string) : bool :=
  forallb (fun line => negb (isSeparatorRow (trim line))) lines.

Section TableFacts.

Variable markdownTableToHtml : list string -> string.

Lemma convertLines_plain (fuel : nat) (lines : list string) :
  noSeparatorRow lines = true ->
  List.length lines <= fuel ->
  convertLines markdownTableToHtml fuel lines = lines.
Proof.
  revert lines. induction fuel as [|fuel IH]; intros [|line rest] Hsep Hfuel;
    cbn [convertLines]; try reflexivity; [simpl in Hfuel; lia|].
  cbn [noSeparatorRow forallb] in Hsep. apply andb_true_iff in Hsep.
  destruct Hsep as [_ Hrest].
  assert (Hnext : separatorFollows rest = false).
  { destruct rest as [|nextLine rest']; [reflexivity|].
    cbn [forallb] in Hrest. apply andb_true_iff in Hrest. destruct Hrest as [Hn _].
    apply negb_true_iff in Hn. cbn [separatorFollows]. rewrite Hn. apply andb_false_r. }
  rewrite Hnext, andb_false_r. f_equal. apply IH; [exact Hrest|simpl in Hfuel; lia].
Qed.

(** X8.  A text none of whose lines is a separator row (a bar, then
    hyphens, colons, bars or blanks, then a bar) holds no table for
    [convertMarkdownTables]: it is returned as it is, lines that begin and
    end with a bar included. *)
Theorem convertMarkdownTables_without_separator :
  forall content : string,
    noSeparatorRow (split (ascii_of_nat 10) content) = true ->
    convertMarkdownTables markdownTableToHtml content = content.
Proof.
  intros content H. unfold convertMarkdownTables. cbn zeta.
  rewrite convertLines_plain by (exact H || apply Nat.le_refl).
  apply join_split.
Qed.

End TableFacts.

Lemma convertMarkdownTables_without_separator_witness :
  convertMarkdownTables (fun _ => "<table>")
    ("| total | 42 |" ++ newline ++ "done")
  = ("| total | 42 |" ++ newline ++ "done")%string.
Proof. apply convertMarkdownTables_without_separator. reflexivity. Defined.

(** A header row, a separator row and a data row are one table; the line
    after them is kept. *)
Example convertMarkdownTables_table :
  convertMarkdownTables (fun lines => "<table>")
    ("| a | b |" ++ newline ++ "|---|:-:|" ++ newline ++ "| 1 | 2 |" ++ newline ++ "done")
  = ("<table>" ++ newline ++ "done")%string.
Proof. reflexivity. Qed.

End MarkupFacts.

(** ** Configuration *)

Module ConfigFacts.

Import Config.

Section Facts.

Variable JSON_parse : string -> Exc Json.

Lemma isModel_true (m : Json) :
  isModel m = Ok true ->
  exists d, toModel m = Ok d /\ id d <> EmptyString /\ name d <> EmptyString.
Proof.
  unfold isModel, toModel. destruct (getProp m "id") as [mid|t] eqn:Eid; [|discriminate].
  cbn [Js.bind]. destruct (truthy mid) eqn:Tid; cbn [negb]; [|discriminate].
  destruct (getProp m "name") as [mname|t] eqn:Ename; [|discriminate].
  cbn [Js.bind]. intros H.
  assert (H' : truthy mname && isString mid && isString mname = true) by congruence.
  clear H. apply andb_true_iff in H'. destruct H' as [H' Sname].
  apply andb_true_iff in H'. destruct H' as [Tname Sid].
  destruct (getProp m "description") as [mdescription|t] eqn:Ed.
  - eexists. split; [reflexivity|]. cbn [id name].
    destruct mid as [[| | |s| |]|]; try discriminate.
    destruct mname as [[| | |s'| |]|]; try discriminate.
    cbn [stringOf]. cbn [truthy] in Tid, Tname.
    split; intros ->; discriminate.
  - exfalso. destruct m; cbn [getProp] in *; discriminate.
Qed.

Lemma filterModels_kept (items kept : list Json) :
  filterModels items = Ok kept -> Forall (fun m => isModel m = Ok true) kept.
Proof.
  revert kept. induction items as [|m rest IH]; intros kept; cbn [filterModels].
  - intros H. inversion H. constructor.
  - destruct (isModel m) as [keep|t] eqn:Em; [|discriminate]. cbn [Js.bind].
    destruct (filterModels rest) as [kept'|t]; [|discriminate]. cbn [Js.bind].
    intros H. inversion H; subst. specialize (IH kept' eq_refl).
    destruct keep; [constructor; assumption|assumption].
Qed.

Lemma mapModels_kept (kept : list Json) :
  Forall (fun m => isModel m = Ok true) kept ->
  exists models, mapModels kept = Ok models
                 /\ Forall (fun d => id d <> EmptyString /\ name d <> EmptyString) models.
Proof.
  induction 1 as [|m kept Hm _ IH]; cbn [mapModels].
  - exists []. split; [reflexivity|constructor].
  - destruct (isModel_true m Hm) as (d & Ed & Hd). rewrite Ed. cbn [Js.bind].
    destruct IH as (models & Em & Hmodels). rewrite Em. cbn [Js.bind].
    exists (d :: models). split; [reflexivity|constructor; assumption].
Qed.

End Facts.

(** X9.  [parseModelsFromEnv] never throws, whatever AVAILABLE_MODELS
    holds and whatever [JSON.parse] does with it, and every model it returns
    has an [id] and a [name] that are strings and not empty. *)
Theorem parseModelsFromEnv_models :
  forall (JSON_parse : string -> Exc Json) (env : Env),
    exists models,
      parseModelsFromEnv JSON_parse env = Ok models
      /\ Forall (fun d => id d <> EmptyString /\ name d <> EmptyString) models.
Proof.
  intros JSON_parse env. unfold parseModelsFromEnv.
  destruct (AVAILABLE_MODELS env) as [[|c envModels]|];
    try (exists []; split; [reflexivity|constructor]).
  unfold Js.tryCatch.
  destruct (JSON_parse (String c envModels)) as [parsed|t]; cbn [Js.bind];
    [|exists []; split; [reflexivity|constructor]].
  destruct parsed as [| | | |[|m rest]|];
    try (exists []; split; [reflexivity|constructor]).
  destruct (filterModels (m :: rest)) as [kept|t] eqn:Ef; cbn [Js.bind];
    [|exists []; split; [reflexivity|constructor]].
  apply filterModels_kept in Ef.
  destruct (mapModels_kept Ef) as (models & Em & Hmodels).
  rewrite Em. exists models. split; [reflexivity|exact Hmodels].
Qed.

(** One [null] among the entries empties the list: reading its [id] throws
    inside the try block. *)
Example parseModelsFromEnv_null_entry :
  parseModelsFromEnv JsonText.parse
    {| AVAILABLE_MODELS := Some (JsonText.q "[{'id':'gpt-4o','name':'GPT-4o'}, null]");
       DEFAULT_MODEL_ID := None; AZURE_OPENAI_ENDPOINT := None;
       AZURE_OPENAI_API_KEY := None; SEARXNG_PROXY_URL := None |}
  = Ok [].
Proof. vm_compute. reflexivity. Qed.

Example parseModelsFromEnv_two :
  option_map (map id)
    (match parseModelsFromEnv JsonText.parse
             {| AVAILABLE_MODELS :=
                  Some (JsonText.q "[{'id':'gpt-4o','name':'GPT-4o'}, {'id':'','name':'x'}, {'id':'o3','name':'o3 mini','description':'fast'}]");
                DEFAULT_MODEL_ID := None; AZURE_OPENAI_ENDPOINT := None;
                AZURE_OPENAI_API_KEY := None; SEARXNG_PROXY_URL := None |} with
     | Ok models => Some models
     | Throw _ => None
     end)
  = Some ["gpt-4o"; "o3"].
Proof. vm_compute. reflexivity. Qed.

End ConfigFacts.

(** ** The conversation with the model *)

Module ServiceFacts.

Import Parser Config Text ServiceState AzureOpenAIService.

(** The history a failed call leaves: the history as it was, cut to the
    system message and the last 18 messages when it held 20 or more. *)
Definition rolledBack (history : list ChatMessage) : list ChatMessage :=
  if maxHistoryLength <=? List.length history then
    match history with
    | systemMessage :: _ => systemMessage :: skipn (List.length history - 18) history
    | [] => []
    end
  else history.

Lemma trimmed_snoc (history : list ChatMessage) (u : ChatMessage) :
  trimmed (history ++ [u]) = rolledBack history ++ [u].
Proof.
  unfold trimmed, rolledBack, lastItems, maxHistoryLength.
  rewrite length_app. cbn [List.length].
  destruct (20 <=? List.length history) eqn:E.
  - apply Nat.leb_le in E.
    replace (20 <? List.length history + 1) with true by (symmetry; apply Nat.ltb_lt; lia).
    destruct history as [|sys rest]; [simpl in E; lia|].
    cbn [app]. f_equal.
    change (sys :: rest ++ [u]) with ((sys :: rest) ++ [u]).
    rewrite skipn_app.
    replace (List.length (sys :: rest) + 1 - (20 - 1)) with (List.length (sys :: rest) - 18) by lia.
    replace (List.length (sys :: rest) - 18 - List.length (sys :: rest)) with 0 by lia.
    reflexivity.
  - apply Nat.leb_gt in E.
    replace (20 <? List.length history + 1) with false by (symmetry; apply Nat.ltb_ge; lia).
    reflexivity.
Qed.

Lemma rolledBack_short (history : list ChatMessage) :
  List.length history < 20 -> rolledBack history = history.
Proof.
  intros H. unfold rolledBack, maxHistoryLength.
  now replace (20 <=? List.length history) with false by (symmetry; apply Nat.leb_gt; lia).
Qed.

Lemma rolledBack_length (history : list ChatMessage) :
  List.length (rolledBack history) <= 19.
Proof.
  unfold rolledBack, maxHistoryLength.
  destruct (20 <=? List.length history) eqn:E.
  - apply Nat.leb_le in E. destruct history as [|sys rest]; [simpl; lia|].
    cbn [List.length]. rewrite length_skipn. cbn [List.length]. lia.
  - apply Nat.leb_gt in E. lia.
Qed.

Lemma rolledBack_head (history : list ChatMessage) (sys : ChatMessage) :
  hd_error history = Some sys -> hd_error (rolledBack history) = Some sys.
Proof.
  unfold rolledBack. destruct history as [|x rest]; [discriminate|].
  intros H. destruct (maxHistoryLength <=? List.length (x :: rest)); exact H.
Qed.

Lemma lastIsUser_snoc (history : list ChatMessage) (m : ChatMessage) :
  role m = user -> lastIsUser (history ++ [m]) = true.
Proof.
  intros H. unfold lastIsUser. rewrite map_app. cbn [map]. now rewrite last_last, H.
Qed.

Lemma lastIsUser_assistant (history : list ChatMessage) (c : option Json) :
  lastIsUser (history ++ [ {| role := assistant; content := c |} ]) = false.
Proof. unfold lastIsUser. rewrite map_app. cbn [map]. now rewrite last_last. Qed.

Section Facts.

Variable JSON_parse : string -> Exc Json.
Variable env : Env.
Variable ENHANCED_SYSTEM_PROMPT : string.
Variable ToString : Json -> string.

(** The user message a call adds. *)
Definition asked (userMessage : string) (excelContext : option string) : ChatMessage :=
  {| role := user; content := Some (JStr (fullMessage userMessage excelContext)) |}.

(** How a call ends. *)
Inductive Ending (userMessage : string) (excelContext : option string) (s : Service)
    : Outcome StructuredResponse -> Service -> Prop :=
| Refused (m : string) :
    isValid (validateConfig JSON_parse env) = false ->
    Ending userMessage excelContext s (Raise (AzureOpenAIError m None None)) s
| Answered (r : StructuredResponse) (reply : string) (s' : Service) :
    conversationHistory s'
    = rolledBack (conversationHistory s)
      ++ [asked userMessage excelContext;
          {| role := assistant; content := Some (JStr reply) |}] ->
    parseStructuredResponse JSON_parse reply = Ok r ->
    Ending userMessage excelContext s (Done r) s'
| Failed (m : string) (st : option nat) (d : option string) (s' : Service) :
    conversationHistory s' = rolledBack (conversationHistory s) ->
    Ending userMessage excelContext s (Raise (AzureOpenAIError m st d)) s'
| Unreadable (m : string) (reply : option Json) (s' : Service) :
    isString reply = false ->
    conversationHistory s'
    = rolledBack (conversationHistory s)
      ++ [asked userMessage excelContext; {| role := assistant; content := reply |}] ->
    Ending userMessage excelContext s (Raise (AzureOpenAIError m None None)) s'.

Lemma send_cases (userMessage : string) (excelContext : option string) (s : Service) :
  Ending userMessage excelContext s
    (fst (sendMessageStructured JSON_parse env ToString userMessage excelContext s))
    (snd (sendMessageStructured JSON_parse env ToString userMessage excelContext s)).
Proof.
  destruct (sendMessageStructured JSON_parse env ToString userMessage excelContext s)
    as [out s'] eqn:E.
  cbn [fst snd]. unfold sendMessageStructured in E.
  destruct (isValid (validateConfig JSON_parse env)) eqn:Ev; cbn [negb] in E.
  2:{ unfold throw in E. inversion E; subst. apply Refused. exact Ev. }
  fold (asked userMessage excelContext) in E.
  unfold tryCatch, bind, get, fetch, lift, pop, push, throw, ret, trimHistory, withHistory in E.
  cbn [conversationHistory currentModelId network sent] in E.
  rewrite trimmed_snoc in E.
  set (h := rolledBack (conversationHistory s)) in *.
  set (u := asked userMessage excelContext) in *.
  destruct (network s) as [|[response|t] rest].
  - (* no answer left: the request is rejected *)
    cbn [conversationHistory tl] in E. rewrite lastIsUser_snoc in E by reflexivity. cbn [conversationHistory] in E.
    rewrite removelast_last in E. inversion E; subst. apply Failed. reflexivity.
  - destruct (ok response); cbn [negb] in E.
    + destruct (json response) as [data|t]; cbn [conversationHistory] in E.
      * destruct (getProp data "choices") as [choices|t]; cbn [conversationHistory] in E.
        -- destruct (negb (truthy choices)
                     || match choices with Some c => lengthIsZero c | None => false end).
           ++ cbn [conversationHistory] in E. rewrite removelast_last in E.
              inversion E; subst. apply Failed. reflexivity.
           ++ destruct (prop match choices with Some c => first c | None => None end "message")
                as [message|t]; cbn [conversationHistory] in E.
              ** destruct (prop message "content") as [reply|t];
                   cbn [conversationHistory] in E.
                 --- unfold parseReply in E.
                     destruct reply as [[| | |content| |]|];
                       try (cbn [conversationHistory currentModelId network sent] in E;
                            rewrite lastIsUser_assistant in E; inversion E; subst;
                            eapply Unreadable; cycle 1;
                            [cbn [conversationHistory]; rewrite <- app_assoc; reflexivity
                            |reflexivity]).
                     destruct (ParserFacts.cascade JSON_parse content)
                       as [(k & st & r & _ & _ & _ & Hr)|[_ Hr]];
                       rewrite Hr in E; inversion E; subst;
                       (eapply Answered; [|exact Hr]);
                       cbn [conversationHistory]; now rewrite <- app_assoc.
                 --- rewrite lastIsUser_snoc in E by reflexivity.
                     cbn [conversationHistory] in E. rewrite removelast_last in E.
                     inversion E; subst. apply Failed. reflexivity.
              ** rewrite lastIsUser_snoc in E by reflexivity.
                 cbn [conversationHistory] in E. rewrite removelast_last in E.
                 inversion E; subst. apply Failed. reflexivity.
        -- rewrite lastIsUser_snoc in E by reflexivity.
           cbn [conversationHistory] in E. rewrite removelast_last in E.
           inversion E; subst. apply Failed. reflexivity.
      * rewrite lastIsUser_snoc in E by reflexivity.
        cbn [conversationHistory] in E. rewrite removelast_last in E.
        inversion E; subst. apply Failed. reflexivity.
    + destruct (text response) as [errorText|t]; cbn [conversationHistory] in E.
      * rewrite removelast_last in E. inversion E; subst. apply Failed. reflexivity.
      * rewrite lastIsUser_snoc in E by reflexivity.
        cbn [conversationHistory] in E. rewrite removelast_last in E.
        inversion E; subst. apply Failed. reflexivity.
  - cbn [conversationHistory tl] in E. rewrite lastIsUser_snoc in E by reflexivity. cbn [conversationHistory] in E.
    rewrite removelast_last in E. inversion E; subst. apply Failed. reflexivity.
Qed.

Lemma send_ending (userMessage : string) (excelContext : option string) (s s' : Service)
    (out : Outcome StructuredResponse) :
  sendMessageStructured JSON_parse env ToString userMessage excelContext s = (out, s') ->
  Ending userMessage excelContext s out s'.
Proof.
  intros E. pose proof (send_cases userMessage excelContext s) as H.
  now rewrite E in H.
Qed.

(** What the task pane does with the service, one call after the other. *)
Inductive Call : Type :=
| Send (userMessage : string) (excelContext : option string)
| Clear
| Select (modelId : string).

Definition perform (c : Call) (s : Service) : Service :=
  match c with
  | Send userMessage excelContext =>
      snd (sendMessageStructured JSON_parse env ToString userMessage excelContext s)
  | Clear => snd (clearHistory ENHANCED_SYSTEM_PROMPT s)
  | Select modelId => snd (setModel JSON_parse env modelId s)
  end.

Definition performAll (calls : list Call) (s : Service) : Service :=
  fold_left (fun s c => perform c s) calls s.

Definition systemMessage : ChatMessage :=
  {| role := system; content := Some (JStr ENHANCED_SYSTEM_PROMPT) |}.

Definition wellFormed (s : Service) : Prop :=
  hd_error (conversationHistory s) = Some systemMessage
  /\ List.length (conversationHistory s) <= 21.

Lemma perform_wellFormed (c : Call) (s : Service) :
  wellFormed s -> wellFormed (perform c s).
Proof.
  intros [Hhd Hlen]. destruct c as [userMessage excelContext| |modelId]; cbn [perform].
  - destruct (sendMessageStructured JSON_parse env ToString userMessage excelContext s)
      as [out s'] eqn:E.
    apply send_ending in E. cbn [snd].
    pose proof (rolledBack_length (conversationHistory s)) as Hr.
    pose proof (rolledBack_head _ Hhd) as Hh.
    inversion E as [m Hv Ho Hs|r reply s'' Hh' Hp Ho Hs|m st d s'' Hh' Ho Hs
                   |m reply s'' Hstr Hh' Ho Hs]; subst; unfold wellFormed.
    + split; assumption.
    + rewrite Hh'. split.
      * destruct (rolledBack (conversationHistory s)); [discriminate|exact Hh].
      * rewrite length_app. cbn [List.length]. lia.
    + rewrite Hh'. split; [exact Hh|lia].
    + rewrite Hh'. split.
      * destruct (rolledBack (conversationHistory s)); [discriminate|exact Hh].
      * rewrite length_app. cbn [List.length]. lia.
  - split; [reflexivity|cbn; lia].
  - unfold setModel. destruct (getModelById JSON_parse env modelId); split; assumption.
Qed.

End Facts.

(** X10.  Whatever is sent and whatever the network answers, the history
    of a service begins with the system message and never holds more than
    21 messages: the cut to 20 is made before the request, and the reply is
    added after it. *)
Theorem history_stays_bounded :
  forall (JSON_parse : string -> Exc Json) (env : Env) (prompt : string)
         (ToString : Json -> string) (answers : list (Exc HttpResponse))
         (calls : list Call),
    let s := performAll JSON_parse env prompt ToString calls
               (newService JSON_parse env prompt answers) in
    hd_error (conversationHistory s)
    = Some {| role := system; content := Some (JStr prompt) |}
    /\ List.length (conversationHistory s) <= 21.
Proof.
  intros JSON_parse env prompt ToString answers calls. cbn zeta.
  assert (H : wellFormed prompt (newService JSON_parse env prompt answers))
    by (split; [reflexivity|cbn; lia]).
  revert H. generalize (newService JSON_parse env prompt answers) as s.
  unfold performAll. induction calls as [|c calls IH]; intros s H; cbn [fold_left].
  - exact H.
  - apply IH. now apply perform_wellFormed.
Qed.

(** X11.  [sendMessageStructured] returns a response or throws an
    [AzureOpenAIError], never anything else: what [fetch], the body readers,
    the property reads and the parser throw is wrapped.  With an incomplete
    configuration it throws before anything is added to the history or
    sent. *)
Theorem sendMessageStructured_raises_AzureOpenAIError :
  forall (JSON_parse : string -> Exc Json) (env : Env) (ToString : Json -> string)
         (userMessage : string) (excelContext : option string) (s : Service),
    ((exists r, fst (sendMessageStructured JSON_parse env ToString userMessage excelContext s)
                = Done r)
     \/ (exists m st d,
           fst (sendMessageStructured JSON_parse env ToString userMessage excelContext s)
           = Raise (AzureOpenAIError m st d)))
    /\ (isValid (validateConfig JSON_parse env) = false ->
        sendMessageStructured JSON_parse env ToString userMessage excelContext s
        = (Raise (AzureOpenAIError
                    ("Configuración incompleta: "
                     ++ join ", " (errors (validateConfig JSON_parse env)))%string
                    None None), s)).
Proof.
  intros JSON_parse env ToString userMessage excelContext s. split.
  - destruct (sendMessageStructured JSON_parse env ToString userMessage excelContext s)
      as [out s'] eqn:E.
    apply send_ending in E. cbn [fst]. inversion E; eauto.
  - intros Hv. unfold sendMessageStructured. rewrite Hv. reflexivity.
Qed.

(** X12.  A call that fails on a history of fewer than 20 messages leaves
    the history as it was before the call, unless a reply arrived whose
    content is not a string: then the user message and that reply stay. *)
Theorem failed_call_restores_history :
  forall (JSON_parse : string -> Exc Json) (env : Env) (ToString : Json -> string)
         (userMessage : string) (excelContext : option string) (s : Service) (e : Raised),
    List.length (conversationHistory s) < 20 ->
    fst (sendMessageStructured JSON_parse env ToString userMessage excelContext s) = Raise e ->
    let s' := snd (sendMessageStructured JSON_parse env ToString userMessage excelContext s) in
    conversationHistory s' = conversationHistory s
    \/ exists reply,
         isString reply = false
         /\ conversationHistory s'
            = conversationHistory s
              ++ [asked userMessage excelContext; {| role := assistant; content := reply |}].
Proof.
  intros JSON_parse env ToString userMessage excelContext s e Hlen Hfail. cbn zeta.
  destruct (sendMessageStructured JSON_parse env ToString userMessage excelContext s)
    as [out s'] eqn:E.
  apply send_ending in E. cbn [fst snd] in *. subst out.
  inversion E as [m Hv Ho Hs|r reply s'' Hh' Hp Ho Hs|m st d s'' Hh' Ho Hs
                 |m reply s'' Hstr Hh' Ho Hs]; subst;
    try rewrite (rolledBack_short _ Hlen) in Hh'.
  - left. reflexivity.
  - left. exact Hh'.
  - right. exists reply. split; assumption.
Qed.

Lemma failed_call_restores_history_witness :
  conversationHistory
    (snd (sendMessageStructured JsonText.parse ServiceSamples.env ServiceSamples.render
            "suma la columna B" None
            (ServiceSamples.fresh [Ok ServiceSamples.unavailable])))
  = conversationHistory (ServiceSamples.fresh [Ok ServiceSamples.unavailable])
  \/ exists reply,
       isString reply = false
       /\ conversationHistory
            (snd (sendMessageStructured JsonText.parse ServiceSamples.env
                    ServiceSamples.render "suma la columna B" None
                    (ServiceSamples.fresh [Ok ServiceSamples.unavailable])))
          = conversationHistory (ServiceSamples.fresh [Ok ServiceSamples.unavailable])
            ++ [asked "suma la columna B" None; {| role := assistant; content := reply |}].
Proof.
  apply (@failed_call_restores_history JsonText.parse ServiceSamples.env
           ServiceSamples.render "suma la columna B" None
           (ServiceSamples.fresh [Ok ServiceSamples.unavailable])
           (AzureOpenAIError "The service is unavailable" (Some 503)
              (Some (JsonText.q "{'error':{'message':'The service is unavailable'}}")))).
  - cbn. lia.
  - vm_compute. reflexivity.
Defined.

(** X13.  On a history of exactly 20 messages a call whose request is
    rejected does not restore the history: the message after the system
    message is gone, and 19 messages are left. *)
Theorem failed_call_on_full_history :
  forall (JSON_parse : string -> Exc Json) (env : Env) (ToString : Json -> string)
         (userMessage : string) (excelContext : option string) (s : Service)
         (sys second : ChatMessage) (later : list ChatMessage)
         (t : Thrown) (rest : list (Exc HttpResponse)),
    isValid (validateConfig JSON_parse env) = true ->
    conversationHistory s = sys :: second :: later ->
    List.length later = 18 ->
    network s = Throw t :: rest ->
    exists m,
      fst (sendMessageStructured JSON_parse env ToString userMessage excelContext s)
      = Raise (AzureOpenAIError m None None)
      /\ conversationHistory
           (snd (sendMessageStructured JSON_parse env ToString userMessage excelContext s))
         = sys :: later.
Proof.
  intros JSON_parse env ToString userMessage excelContext s sys second later t rest
    Hv Hh Hlen Hnet.
  unfold sendMessageStructured. rewrite Hv. cbn [negb].
  unfold tryCatch, bind, get, fetch, lift, pop, push, throw, ret, trimHistory, withHistory.
  cbn [conversationHistory currentModelId network sent fst snd].
  rewrite Hnet. cbn [fst snd conversationHistory].
  rewrite trimmed_snoc, lastIsUser_snoc by reflexivity.
  cbn [fst snd conversationHistory]. rewrite removelast_last.
  eexists. split; [reflexivity|].
  unfold rolledBack, maxHistoryLength. rewrite Hh. cbn [List.length]. rewrite Hlen.
  reflexivity.
Qed.

Lemma failed_call_on_full_history_witness :
  exists m,
    fst (sendMessageStructured JsonText.parse ServiceSamples.env ServiceSamples.render
           "suma la columna B" None
           (ServiceSamples.full [Throw (ErrorObj "Failed to fetch")]))
    = Raise (AzureOpenAIError m None None)
    /\ conversationHistory
         (snd (sendMessageStructured JsonText.parse ServiceSamples.env ServiceSamples.render
                 "suma la columna B" None
                 (ServiceSamples.full [Throw (ErrorObj "Failed to fetch")])))
       = {| role := system; content := Some (JStr ServiceSamples.prompt) |}
         :: repeat ServiceSamples.filler 18.
Proof.
  apply (@failed_call_on_full_history JsonText.parse ServiceSamples.env ServiceSamples.render
           "suma la columna B" None
           (ServiceSamples.full [Throw (ErrorObj "Failed to fetch")])
           {| role := system; content := Some (JStr ServiceSamples.prompt) |}
           ServiceSamples.earlier (repeat ServiceSamples.filler 18)
           (ErrorObj "Failed to fetch") []).
  - vm_compute. reflexivity.
  - reflexivity.
  - reflexivity.
  - reflexivity.
Defined.

(** X14.  When the response is [ok] and [data.choices[0].message.content]
    can be read but is not a string ([null] for a reply without text,
    [undefined] when the member is missing), the call fails with an
    [AzureOpenAIError] although the request succeeded, and the history keeps
    the user message and the reply, whatever else the body holds. *)
Theorem reply_without_text_fails :
  forall (JSON_parse : string -> Exc Json) (env : Env) (ToString : Json -> string)
         (userMessage : string) (excelContext : option string) (s : Service)
         (response : HttpResponse) (rest : list (Exc HttpResponse))
         (data choices : Json) (message reply : option Json),
    isValid (validateConfig JSON_parse env) = true ->
    network s = Ok response :: rest ->
    ok response = true ->
    json response = Ok data ->
    getProp data "choices" = Ok (Some choices) ->
    truthy (Some choices) = true ->
    lengthIsZero choices = false ->
    prop (first choices) "message" = Ok message ->
    prop message "content" = Ok reply ->
    isString reply = false ->
    exists m,
      fst (sendMessageStructured JSON_parse env ToString userMessage excelContext s)
      = Raise (AzureOpenAIError m None None)
      /\ conversationHistory
           (snd (sendMessageStructured JSON_parse env ToString userMessage excelContext s))
         = trimmed (conversationHistory s ++ [asked userMessage excelContext])
           ++ [ {| role := assistant; content := reply |} ].
Proof.
  intros JSON_parse env ToString userMessage excelContext s response rest
    data choices message reply Hv Hnet Hok Hjson Hchoices Htruthy Hlen Hmsg Hcontent Hstr.
  unfold sendMessageStructured. rewrite Hv. cbn [negb].
  fold (asked userMessage excelContext).
  unfold tryCatch, bind, get, fetch, lift, pop, push, throw, ret, trimHistory, withHistory.
  cbn [conversationHistory currentModelId network sent fst snd].
  rewrite Hnet. cbn [fst snd conversationHistory]. rewrite Hok. cbn [negb].
  rewrite Hjson, Hchoices, Htruthy, Hlen. cbn [negb orb].
  rewrite Hmsg, Hcontent. cbn [fst snd conversationHistory].
  unfold parseReply. destruct reply as [[| | |content| |]|]; try discriminate;
    cbn [fst snd conversationHistory]; rewrite lastIsUser_assistant; cbn [fst snd];
    (eexists; split; reflexivity).
Qed.

(** An instance: the completion the content filter withheld, with its
    [id], [usage] and [finish_reason] beside the [null] content. *)
Lemma reply_without_text_fails_witness :
  exists m,
    fst (sendMessageStructured JsonText.parse ServiceSamples.env ServiceSamples.render
           "suma la columna B" None
           (ServiceSamples.fresh [Ok (ServiceSamples.replyOf ServiceSamples.filtered)]))
    = Raise (AzureOpenAIError m None None)
    /\ conversationHistory
         (snd (sendMessageStructured JsonText.parse ServiceSamples.env ServiceSamples.render
                 "suma la columna B" None
                 (ServiceSamples.fresh [Ok (ServiceSamples.replyOf ServiceSamples.filtered)])))
       = trimmed (conversationHistory
                    (ServiceSamples.fresh [Ok (ServiceSamples.replyOf ServiceSamples.filtered)])
                  ++ [asked "suma la columna B" None])
         ++ [ {| role := assistant; content := Some JNull |} ].
Proof.
  apply (@reply_without_text_fails JsonText.parse ServiceSamples.env ServiceSamples.render
           "suma la columna B" None
           (ServiceSamples.fresh [Ok (ServiceSamples.replyOf ServiceSamples.filtered)])
           (ServiceSamples.replyOf ServiceSamples.filtered) []
           (JObj [("id", JStr "chatcmpl-1"); ("object", JStr "chat.completion");
                  ("choices",
                   JArr [JObj [("index", JNum "0"); ("finish_reason", JStr "content_filter");
                               ("message", JObj [("role", JStr "assistant");
                                                 ("content", JNull)])]]);
                  ("usage", JObj [("total_tokens", JNum "12")])])
           (JArr [JObj [("index", JNum "0"); ("finish_reason", JStr "content_filter");
                        ("message", JObj [("role", JStr "assistant");
                                          ("content", JNull)])]])
           (Some (JObj [("role", JStr "assistant"); ("content", JNull)]))
           (Some JNull)).
  - vm_compute. reflexivity.
  - reflexivity.
  - reflexivity.
  - vm_compute. reflexivity.
  - reflexivity.
  - reflexivity.
  - reflexivity.
  - reflexivity.
  - reflexivity.
  - reflexivity.
Defined.

(** X15.  A call that succeeds on a history of fewer than 20 messages adds
    exactly the user message and the reply, whose content is a string, and
    returns what [parseStructuredResponse] makes of that string. *)
Theorem successful_call_extends_history :
  forall (JSON_parse : string -> Exc Json) (env : Env) (ToString : Json -> string)
         (userMessage : string) (excelContext : option string) (s : Service)
         (r : StructuredResponse),
    List.length (conversationHistory s) < 20 ->
    fst (sendMessageStructured JSON_parse env ToString userMessage excelContext s) = Done r ->
    exists reply,
      conversationHistory
        (snd (sendMessageStructured JSON_parse env ToString userMessage excelContext s))
      = conversationHistory s
        ++ [asked userMessage excelContext;
            {| role := assistant; content := Some (JStr reply) |}]
      /\ parseStructuredResponse JSON_parse reply = Ok r.
Proof.
  intros JSON_parse env ToString userMessage excelContext s r Hlen Hdone.
  destruct (sendMessageStructured JSON_parse env ToString userMessage excelContext s)
    as [out s'] eqn:E.
  apply send_ending in E. cbn [fst snd] in *. subst out.
  inversion E as [m Hv Ho Hs|r' reply s'' Hh' Hp Ho Hs|m st d s'' Hh' Ho Hs
                 |m reply s'' Hstr Hh' Ho Hs]; subst.
  rewrite (rolledBack_short _ Hlen) in Hh'.
  exists reply. split; assumption.
Qed.

Lemma successful_call_extends_history_witness :
  exists reply,
    conversationHistory
      (snd (sendMessageStructured JsonText.parse ServiceSamples.env ServiceSamples.render
              "cuanto es el total" None
              (ServiceSamples.fresh [Ok (ServiceSamples.replyWith (JStr "The total is 42"))])))
    = conversationHistory
        (ServiceSamples.fresh [Ok (ServiceSamples.replyWith (JStr "The total is 42"))])
      ++ [asked "cuanto es el total" None;
          {| role := assistant; content := Some (JStr reply) |}]
    /\ parseStructuredResponse JsonText.parse reply
       = Ok {| Parser.message := "The total is 42"; actions := None; thinking := None |}.
Proof.
  apply (@successful_call_extends_history JsonText.parse ServiceSamples.env
           ServiceSamples.render "cuanto es el total" None
           (ServiceSamples.fresh [Ok (ServiceSamples.replyWith (JStr "The total is 42"))])
           {| Parser.message := "The total is 42"; actions := None; thinking := None |}).
  - cbn. lia.
  - vm_compute. reflexivity.
Defined.

End ServiceFacts.

(** ** Fetching web content *)

Module WebContentFacts.

Import WebContent.

Section Facts.

Variable baseUrl : string.
Variable encodeURIComponent : string -> string.
Variable now : string.

(** The record [fetchWebContent] builds in its catch block. *)
Definition failure (target message : string) : WebContentResponse :=
  {| type := html; url := target; title := None; textContent := None;
     tables := None; downloadLinks := None; fetchedAt := now;
     error := Some message |}.

(** The network after one more request. *)
Definition after (n : Net) (fetchUrl : string) : Net :=
  {| answers := tl (answers n); requested := requested n ++ [fetchUrl] |}.

Lemma fetchWebContent_cases (target : string) (useJsRendering : bool) (n : Net) :
  exists r,
    fetchWebContent baseUrl encodeURIComponent now target useJsRendering n
    = (Ok r, after n (fetchUrlOf baseUrl encodeURIComponent target useJsRendering))
    /\ ((exists response, hd_error (answers n) = Some (Ok response)
                          /\ ok response = true /\ body response = Ok r)
        \/ (exists message, r = Some (failure target message))).
Proof.
  unfold fetchWebContent, tryCatch, bind, fetch, throw, lift, ret, after.
  destruct (answers n) as [|[response|t] rest]; cbn [tl hd_error].
  - eexists. split; [reflexivity|]. right. eexists. reflexivity.
  - destruct (ok response) eqn:Eok; cbn [negb].
    + destruct (body response) as [data|t] eqn:Eb.
      * exists data. split; [reflexivity|]. left. exists response. auto.
      * eexists. split; [reflexivity|]. right. eexists. reflexivity.
    + eexists. split; [reflexivity|]. right. eexists. reflexivity.
  - eexists. split; [reflexivity|]. right. eexists. reflexivity.
Qed.

End Facts.

(** X16.  [fetchWebContent] never throws and makes exactly one request:
    it returns the body of an [ok] response as it is ([null] included), and
    for a rejected request, a response that is not [ok] or a body that
    cannot be read it returns a record for the same URL that carries the
    error message and no content. *)
Theorem fetchWebContent_never_throws :
  forall (baseUrl : string) (encodeURIComponent : string -> string) (now : string)
         (target : string) (useJsRendering : bool) (n : Net),
    exists r,
      fetchWebContent baseUrl encodeURIComponent now target useJsRendering n
      = (Ok r, {| answers := tl (answers n);
                  requested := requested n
                               ++ [fetchUrlOf baseUrl encodeURIComponent target
                                     useJsRendering] |})
      /\ ((exists response, hd_error (answers n) = Some (Ok response)
                            /\ ok response = true /\ body response = Ok r)
          \/ (exists message,
                r = Some {| type := html; url := target; title := None;
                            textContent := None; tables := None; downloadLinks := None;
                            fetchedAt := now; error := Some message |})).
Proof. intros. apply fetchWebContent_cases. Qed.

(** X17.  [fetchWebContentSmart] asks for the static page first, and for
    the rendered page only when the static result has an error or too little
    content.  It throws exactly when a result it reads is [null]; otherwise
    it returns the static result or the rendered one, the rendered one
    exactly when that has no error and more text entries than the static
    one, so a result with an error is returned only when the static result
    had one. *)
Theorem fetchWebContentSmart_prefers_static :
  forall (baseUrl : string) (encodeURIComponent : string -> string) (now : string)
         (target : string) (n : Net),
    exists staticResult n1,
      fetchWebContent baseUrl encodeURIComponent now target false n = (Ok staticResult, n1)
      /\ requested n1 = requested n ++ [fetchUrlOf baseUrl encodeURIComponent target false]
      /\ (staticResult = None ->
          exists t, fetchWebContentSmart baseUrl encodeURIComponent now target n
                    = (Throw t, n1))
      /\ (forall static, staticResult = Some static -> hasUsefulContent static = true ->
          fetchWebContentSmart baseUrl encodeURIComponent now target n = (Ok static, n1))
      /\ (forall static, staticResult = Some static -> hasUsefulContent static = false ->
          exists jsResult n2,
            fetchWebContent baseUrl encodeURIComponent now target true n1
            = (Ok jsResult, n2)
            /\ requested n2
               = requested n ++ [fetchUrlOf baseUrl encodeURIComponent target false;
                                 fetchUrlOf baseUrl encodeURIComponent target true]
            /\ (jsResult = None ->
                exists t, fetchWebContentSmart baseUrl encodeURIComponent now target n
                          = (Throw t, n2))
            /\ (forall js, jsResult = Some js ->
                exists r,
                  fetchWebContentSmart baseUrl encodeURIComponent now target n = (Ok r, n2)
                  /\ (r = static
                      \/ (r = js /\ given (error js) = false
                          /\ count (textContent static) < count (textContent js)))
                  /\ (given (error js) = false ->
                      count (textContent static) < count (textContent js) -> r = js)
                  /\ (given (error r) = true -> given (error static) = true))).
Proof.
  intros baseUrl encodeURIComponent now target n.
  destruct (fetchWebContent_cases baseUrl encodeURIComponent now target false n)
    as (staticResult & Es & _).
  set (n1 := after n (fetchUrlOf baseUrl encodeURIComponent target false)) in *.
  exists staticResult, n1. split; [exact Es|]. split; [reflexivity|].
  unfold fetchWebContentSmart, bind. rewrite Es.
  split; [|split].
  - intros ->. eexists. reflexivity.
  - intros static -> Hu. now rewrite Hu.
  - intros static -> Hu. rewrite Hu. cbn [negb].
    destruct (fetchWebContent_cases baseUrl encodeURIComponent now target true n1)
      as (jsResult & Ej & _).
    set (n2 := after n1 (fetchUrlOf baseUrl encodeURIComponent target true)) in *.
    exists jsResult, n2. split; [exact Ej|]. rewrite Ej.
    split; [unfold n2, n1, after; cbn [requested]; now rewrite <- app_assoc|].
    split.
    + intros ->. eexists. reflexivity.
    + intros js ->.
      destruct (negb (given (error js))
                && (count (textContent static) <? count (textContent js))) eqn:Eb;
        unfold ret.
      * apply andb_true_iff in Eb. destruct Eb as [Ee Ec].
        apply negb_true_iff in Ee. apply Nat.ltb_lt in Ec.
        exists js. split; [reflexivity|]. split; [right; auto|].
        split; [reflexivity|]. intros H. congruence.
      * exists static. split; [reflexivity|]. split; [left; reflexivity|].
        split; [|auto]. intros He Hc. apply Nat.ltb_lt in Hc.
        rewrite He, Hc in Eb. discriminate.
Qed.

(** A [null] body makes [fetchWebContentSmart] throw, after one request. *)
Example fetchWebContentSmart_null_body :
  fst (fetchWebContentSmart "http://localhost:8080" (fun s => s) "2026-01-01T00:00:00.000Z"
         "https://example.com"
         {| answers := [Ok {| ok := true; status := 200; statusText := "OK";
                              body := Ok None |}];
            requested := [] |})
  = Throw nullResult.
Proof. reflexivity. Qed.

End WebContentFacts.

(** ** Column queries *)

Module ColumnQueriesFacts.

Import Excel ExcelService GuardFacts ColumnQueries.

Section Printing.

(** [String(n)] for a number. *)
Variable numberToString : Z -> string.

(** The first cells of the rows that hold data. *)
Definition dataIn (rows : Matrix) (v : string) : Prop :=
  exists row val, In row rows /\ hd_error row = Some val
                  /\ isNonEmpty val = true /\ v = stringOfValue numberToString val.

Lemma add_spec (v : string) (uniqueSet : list string) :
  NoDup uniqueSet ->
  NoDup (add v uniqueSet)
  /\ (forall x, In x (add v uniqueSet) <-> x = v \/ In x uniqueSet)
  /\ List.length (add v uniqueSet) <= S (List.length uniqueSet).
Proof.
  intros Hnd. unfold add. destruct (existsb (String.eqb v) uniqueSet) eqn:E.
  - apply existsb_exists in E. destruct E as (y & Hy & Heq). apply String.eqb_eq in Heq.
    subst y. split; [exact Hnd|]. split; [|lia].
    intros x. split; [auto|]. intros [->|H]; assumption.
  - assert (Hnot : ~ In v uniqueSet).
    { intros Hin. apply Bool.not_true_iff_false in E. apply E.
      apply existsb_exists. exists v. split; [exact Hin|apply String.eqb_refl]. }
    split; [|split].
    + apply NoDup_app; [exact Hnd|constructor; [intros []|constructor]|].
      intros x Hx [<-|[]]. contradiction.
    + intros x. split.
      * intros Hx. apply in_app_or in Hx. destruct Hx as [Hx|[<-|[]]]; auto.
      * intros [->|Hx]; apply in_or_app; [right; left; reflexivity|left; exact Hx].
    + rewrite length_app. cbn [List.length]. lia.
Qed.

Lemma collect_spec (limit : Z) (rows : Matrix) (uniqueSet : list string) :
  NoDup uniqueSet ->
  NoDup (collect numberToString limit rows uniqueSet)
  /\ (forall x, In x uniqueSet -> In x (collect numberToString limit rows uniqueSet))
  /\ (forall x, In x (collect numberToString limit rows uniqueSet) -> In x uniqueSet \/ dataIn rows x)
  /\ ((Z.of_nat (List.length uniqueSet) < Z.max limit 1)%Z ->
      (Z.of_nat (List.length (collect numberToString limit rows uniqueSet)) <= Z.max limit 1)%Z)
  /\ ((Z.of_nat (List.length (collect numberToString limit rows uniqueSet)) < limit)%Z ->
      forall x, dataIn rows x -> In x (collect numberToString limit rows uniqueSet)).
Proof.
  revert uniqueSet. induction rows as [|row rest IH]; intros uniqueSet Hnd; cbn [collect].
  - split; [exact Hnd|]. split; [auto|]. split; [auto|]. split; [lia|].
    intros _ x (row & val & [] & _).
  - assert (Hskip : hd_error row = None \/
                    (exists val, hd_error row = Some val /\ isNonEmpty val = false) ->
                    forall x, dataIn (row :: rest) x -> dataIn rest x).
    { intros Hrow x (row' & val & [<-|Hin] & Hhd & Hne & Hx).
      - destruct Hrow as [Hrow|(val' & Hrow & Hval)]; congruence.
      - exists row', val. auto. }
    assert (Hlift : forall x, dataIn rest x -> dataIn (row :: rest) x).
    { intros x (row' & val & Hin & H). exists row', val. split; [right; exact Hin|exact H]. }
    destruct (hd_error row) as [val|] eqn:Ehd.
    + destruct (isNonEmpty val) eqn:Ene.
      * destruct (add_spec (stringOfValue numberToString val) Hnd) as (Hnd' & Hin' & Hlen').
        set (uniqueSet' := add (stringOfValue numberToString val) uniqueSet) in *.
        assert (Hhere : dataIn (row :: rest) (stringOfValue numberToString val)).
        { exists row, val. split; [left; reflexivity|auto]. }
        destruct (limit <=? Z.of_nat (List.length uniqueSet'))%Z eqn:El.
        -- apply Z.leb_le in El.
           split; [exact Hnd'|]. split; [|split; [|split]].
           ++ intros x Hx. apply Hin'. right. exact Hx.
           ++ intros x Hx. apply Hin' in Hx. destruct Hx as [->|Hx]; auto.
           ++ lia.
           ++ lia.
        -- apply Z.leb_gt in El.
           destruct (IH uniqueSet' Hnd') as (H1 & H2 & H3 & H4 & H5).
           split; [exact H1|]. split; [|split; [|split]].
           ++ intros x Hx. apply H2, Hin'. right. exact Hx.
           ++ intros x Hx. apply H3 in Hx. destruct Hx as [Hx|Hx]; auto.
              apply Hin' in Hx. destruct Hx as [->|Hx]; auto.
           ++ intros _. apply H4. lia.
           ++ intros Hl x (row' & val' & [<-|Hin] & Hhd & Hne & Hx).
              ** rewrite Ehd in Hhd. inversion Hhd; subst. apply H2, Hin'. left. reflexivity.
              ** apply (H5 Hl). exists row', val'. auto.
      * destruct (IH uniqueSet Hnd) as (H1 & H2 & H3 & H4 & H5).
        split; [exact H1|]. split; [exact H2|]. split; [|split; [exact H4|]].
        -- intros x Hx. apply H3 in Hx. destruct Hx; auto.
        -- intros Hl x Hx. apply (H5 Hl). apply Hskip; [|exact Hx]. right. eauto.
    + destruct (IH uniqueSet Hnd) as (H1 & H2 & H3 & H4 & H5).
      split; [exact H1|]. split; [exact H2|]. split; [|split; [exact H4|]].
      * intros x Hx. apply H3 in Hx. destruct Hx; auto.
      * intros Hl x Hx. apply (H5 Hl). apply Hskip; [|exact Hx]. left. reflexivity.
Qed.

(** What the query returns, and the host it leaves. *)
Lemma getUniqueValues_spec (column : string) (limit : Z) (h : Host) :
  exists r h',
    getUniqueValues numberToString column limit h = (Ok r, h')
    /\ document h' = document h
    /\ (r = {| values := []; hasMore := false |}
        \/ exists used region,
             usedRange h = Some used
             /\ nextFault h = None /\ nextFault (next h) = None
             /\ resolve (dataCells column (rowCount used)) = Some region
             /\ r = {| values := collect numberToString limit (readRect (cells h) region) [];
                       hasMore := (limit <=? Z.of_nat
                                     (List.length
                                        (collect numberToString limit (readRect (cells h) region) [])))%Z |}).
Proof.
  unfold getUniqueValues, tryCatch, run. unfold bind at 1.
  rewrite sync_empty by reflexivity.
  change (nextFault (withQueue h [])) with (nextFault h).
  change (next (withQueue h [])) with (next h).
  destruct (nextFault h) as [t|] eqn:Ef.
  { eexists _, _. split; [reflexivity|]. split; [reflexivity|left; reflexivity]. }
  unfold bind at 1. unfold getUsedRangeOrNullObject at 1.
  change (usedRange (next h)) with (usedRange h).
  destruct (usedRange h) as [used|] eqn:Eu.
  2:{ eexists _, _. split; [reflexivity|]. split; [reflexivity|left; reflexivity]. }
  unfold bind at 1. unfold getRange.
  destruct (resolve (dataCells column (rowCount used))) as [region|] eqn:Er.
  2:{ eexists _, _. split; [reflexivity|]. split; [reflexivity|left; reflexivity]. }
  cbn [ret]. unfold bind at 1. rewrite sync_empty by reflexivity.
  destruct (nextFault (next h)) as [t|] eqn:Ef2.
  { eexists _, _. split; [reflexivity|]. split; [reflexivity|left; reflexivity]. }
  unfold bind, valuesOf, ret.
  eexists _, _. split; [reflexivity|]. split; [reflexivity|].
  right. exists used, region. repeat split; auto.
Qed.

(** X18.  [getUniqueValues] never throws and leaves the workbook as it
    was.  The values it returns are pairwise different; there are at most
    [limit] of them (one, for a [limit] below one); and [hasMore] is set only
    when their number has reached [limit]. *)
Theorem getUniqueValues_bounded :
  forall (column : string) (limit : Z) (h : Host),
    exists r h',
      getUniqueValues numberToString column limit h = (Ok r, h')
      /\ document h' = document h
      /\ NoDup (values r)
      /\ (Z.of_nat (List.length (values r)) <= Z.max limit 1)%Z
      /\ (hasMore r = true -> (limit <= Z.of_nat (List.length (values r)))%Z).
Proof.
  intros column limit h.
  destruct (getUniqueValues_spec column limit h) as (r & h' & E & Hd & [->|H]).
  - exists {| values := []; hasMore := false |}, h'. repeat split; auto.
    + constructor.
    + cbn. lia.
    + discriminate.
  - destruct H as (used & region & _ & _ & _ & _ & ->).
    destruct (@collect_spec limit (readRect (cells h) region) [] (NoDup_nil _))
      as (H1 & _ & _ & H4 & _).
    eexists _, h'. split; [exact E|]. cbn [values hasMore].
    repeat split; auto.
    + apply H4. cbn. lia.
    + intros Hm. now apply Z.leb_le in Hm.
Qed.

(** The host resolves the address of the data cells of a column to rows 2
    to [totalRows] of that column. *)
Lemma resolve_dataCells (k totalRows : nat) :
  1 <= k -> 2 <= totalRows ->
  resolve (dataCells (numberToColumn k) totalRows)
  = Some {| top := 2; left := k; rowCount := totalRows - 1; columnCount := 1 |}.
Proof.
  intros Hk Hn. unfold dataCells, resolve.
  pose proof (AddressFacts.reference_no_colon k 2) as Hnc.
  change (numberToColumn k ++ "2:" ++ numberToColumn k ++ showNat totalRows)%string
    with (numberToColumn k
          ++ String "2" (String ":" (numberToColumn k ++ showNat totalRows)))%string.
  replace (numberToColumn k
           ++ String "2" (String ":" (numberToColumn k ++ showNat totalRows)))%string
    with ((numberToColumn k ++ showNat 2)
          ++ String ":" (numberToColumn k ++ showNat totalRows))%string
    by (rewrite AddressFacts.append_assoc; reflexivity).
  rewrite (AddressFacts.beforeColon_app _ _ Hnc), (AddressFacts.afterColon_app _ _ Hnc).
  rewrite !AddressFacts.parseCell_built by lia.
  f_equal. f_equal; lia.
Qed.

Lemma dataIn_column (c : Sheet) (k rows : nat) (v : string) :
  dataIn (readRect c {| top := 2; left := k; rowCount := rows; columnCount := 1 |}) v
  <-> exists row, 2 <= row <= rows + 1
                  /\ isNonEmpty (c row k) = true /\ v = stringOfValue numberToString (c row k).
Proof.
  unfold dataIn, readRect. cbn [top left rowCount columnCount seq map].
  split.
  - intros (row & val & Hin & Hhd & Hne & ->).
    apply in_map_iff in Hin. destruct Hin as (i & <- & Hi). apply in_seq in Hi.
    cbn [hd_error] in Hhd. inversion Hhd; subst.
    exists (2 + i). replace (k + 0) with k in * by lia.
    split; [lia|]. split; [exact Hne|reflexivity].
  - intros (row & Hrow & Hne & ->).
    exists [c row k], (c row k). split; [|auto].
    apply in_map_iff. exists (row - 2). split.
    + replace (2 + (row - 2)) with row by lia. now replace (k + 0) with k by lia.
    + apply in_seq. lia.
Qed.

(** X19.  On a sheet whose used range has at least two rows, and with no
    failing synchronisation, every value [getUniqueValues] returns for a
    column is the text of a non-empty cell of that column between row 2 and
    the row count of the used range; when [hasMore] is not set, the text of
    every such cell is among the values. *)
Theorem getUniqueValues_of_column :
  forall (k : nat) (limit : Z) (h : Host) (used : Rect),
    1 <= k ->
    usedRange h = Some used ->
    2 <= rowCount used ->
    nextFault h = None ->
    nextFault (next h) = None ->
    exists r h',
      getUniqueValues numberToString (numberToColumn k) limit h = (Ok r, h')
      /\ (forall v, In v (values r) ->
            exists row, 2 <= row <= rowCount used
                        /\ isNonEmpty (cells h row k) = true
                        /\ v = stringOfValue numberToString (cells h row k))
      /\ (hasMore r = false ->
          forall row, 2 <= row <= rowCount used ->
                      isNonEmpty (cells h row k) = true ->
                      In (stringOfValue numberToString (cells h row k)) (values r)).
Proof.
  intros k limit h used Hk Hu Hrows Hf1 Hf2.
  set (region := {| top := 2; left := k; rowCount := rowCount used - 1; columnCount := 1 |}).
  assert (E : getUniqueValues numberToString (numberToColumn k) limit h
              = (Ok {| values := collect numberToString limit (readRect (cells h) region) [];
                       hasMore := (limit <=? Z.of_nat
                                     (List.length
                                        (collect numberToString limit (readRect (cells h) region) [])))%Z |},
                 next (next h))).
  { unfold getUniqueValues, tryCatch, run. unfold bind at 1.
    rewrite sync_empty by reflexivity.
    change (nextFault (withQueue h [])) with (nextFault h).
    change (next (withQueue h [])) with (next h). rewrite Hf1.
    unfold bind at 1. unfold getUsedRangeOrNullObject at 1.
    change (usedRange (next h)) with (usedRange h). rewrite Hu.
    unfold bind at 1. unfold getRange. rewrite resolve_dataCells by assumption.
    cbn [ret]. unfold bind at 1. rewrite sync_empty by reflexivity. rewrite Hf2.
    reflexivity. }
  destruct (@collect_spec limit (readRect (cells h) region) [] (NoDup_nil _))
    as (_ & _ & H3 & _ & H5).
  eexists _, _. split; [exact E|]. cbn [values hasMore]. split.
  - intros v Hv. apply H3 in Hv. destruct Hv as [[]|Hv].
    apply dataIn_column in Hv. destruct Hv as (row & Hrow & Hne & ->).
    exists row. split; [lia|auto].
  - intros Hm row Hrow Hne. apply Z.leb_gt in Hm. apply (H5 Hm).
    apply dataIn_column. exists row. split; [lia|auto].
Qed.


(** *** Counting by category *)

(** The count a [Map] holds for a key, 0 for a key it does not hold. *)
Definition countOf (c : string) (counts : list (string * nat)) : nat :=
  match find (fun kv => String.eqb (fst kv) c) counts with
  | Some kv => snd kv
  | None => 0
  end.

Lemma increment_spec (c : string) (counts : list (string * nat)) :
  (forall c', countOf c' (increment c counts)
              = countOf c' counts + (if String.eqb c c' then 1 else 0))
  /\ (forall k, In k (map fst (increment c counts)) <-> k = c \/ In k (map fst counts))
  /\ (NoDup (map fst counts) -> NoDup (map fst (increment c counts)))
  /\ (Forall (fun kv => 1 <= snd kv) counts ->
      Forall (fun kv => 1 <= snd kv) (increment c counts)).
Proof.
  induction counts as [|[k v] rest IH]; cbn [increment].
  - split; [|split; [|split]].
    + intros c'. unfold countOf. cbn [find fst snd]. destruct (String.eqb c c'); reflexivity.
    + intros k. cbn. intuition congruence.
    + intros _. cbn. constructor; [intros []|constructor].
    + intros _. constructor; [cbn; lia|constructor].
  - destruct IH as (IH1 & IH2 & IH3 & IH4).
    destruct (String.eqb_spec k c) as [->|Hk].
    + split; [|split; [|split]].
      * intros c'. unfold countOf. cbn [find fst snd].
        destruct (String.eqb c c'); cbn [snd]; lia.
      * intros k. cbn [map fst In]. intuition congruence.
      * intros H. exact H.
      * intros H. inversion H; subst. constructor; [cbn [snd] in *; lia|assumption].
    + split; [|split; [|split]].
      * intros c'. unfold countOf in *. cbn [find fst snd].
        destruct (String.eqb_spec k c') as [->|Hk'].
        -- destruct (String.eqb_spec c c'); [congruence|]. cbn [snd]. lia.
        -- apply IH1.
      * intros k'. cbn [map fst In]. rewrite IH2. tauto.
      * intros H. cbn [map fst] in *. inversion H; subst. constructor.
        -- rewrite IH2. intros [->|Hin]; [congruence|contradiction].
        -- now apply IH3.
      * intros H. inversion H; subst. constructor; [assumption|now apply IH4].
Qed.

Section CategoryFacts.

Variable otherUsedRange : string -> option Rect.
Variable toUpperCase : string -> string.

(** The row at index [idx] counts for the category [c]. *)
Definition hit (filter : option (Matrix * string)) (c : string)
    (entry : list CellValue * nat) : bool :=
  String.eqb (firstText numberToString (fst entry)) c
  && match filter with
     | None => true
     | Some (filterValues, filterValue) =>
         match nth_error filterValues (snd entry) with
         | Some filterRow =>
             String.eqb (toUpperCase (firstText numberToString filterRow)) (toUpperCase filterValue)
         | None => false
         end
     end.

Lemma tally_spec (categoryValues : Matrix) (i : nat) (filter : option (Matrix * string))
    (counts counts' : list (string * nat)) :
  tally numberToString toUpperCase categoryValues i filter counts = Ok counts' ->
  NoDup (map fst counts) ->
  Forall (fun kv => 1 <= snd kv /\ fst kv <> EmptyString) counts ->
  NoDup (map fst counts')
  /\ Forall (fun kv => 1 <= snd kv /\ fst kv <> EmptyString) counts'
  /\ forall c, c <> EmptyString ->
       countOf c counts'
       = countOf c counts
         + List.length (List.filter (hit filter c)
                          (combine categoryValues (seq i (List.length categoryValues)))).
Proof.
  revert i counts. induction categoryValues as [|row rest IH]; intros i counts;
    cbn [tally].
  - intros H Hnd Hpos. inversion H; subst. split; [exact Hnd|]. split; [exact Hpos|].
    intros c _. cbn. lia.
  - cbn [List.length seq combine List.filter].
    assert (Hinc : forall counts0,
               NoDup (map fst counts0) ->
               Forall (fun kv => 1 <= snd kv /\ fst kv <> EmptyString) counts0 ->
               firstText numberToString row <> EmptyString ->
               NoDup (map fst (increment (firstText numberToString row) counts0))
               /\ Forall (fun kv => 1 <= snd kv /\ fst kv <> EmptyString)
                    (increment (firstText numberToString row) counts0)).
    { intros counts0 Hnd Hpos Hne.
      destruct (increment_spec (firstText numberToString row) counts0) as (_ & H2 & H3 & H4).
      split; [now apply H3|].
      apply Forall_forall. intros [k v] Hin. split.
      - assert (Hv : Forall (fun kv => 1 <= snd kv) (increment (firstText numberToString row) counts0)).
        { apply H4. eapply Forall_impl; [|exact Hpos]. intros kv [Hkv _]. exact Hkv. }
        rewrite Forall_forall in Hv. exact (Hv _ Hin).
      - cbn [fst]. assert (Hk : In k (map fst (increment (firstText numberToString row) counts0)))
          by (apply in_map_iff; exists (k, v); auto).
        apply H2 in Hk. destruct Hk as [->|Hk]; [exact Hne|].
        apply in_map_iff in Hk. destruct Hk as ([k' v'] & <- & Hin').
        rewrite Forall_forall in Hpos. exact (proj2 (Hpos _ Hin')). }
    destruct (String.eqb_spec (firstText numberToString row) EmptyString) as [He|Hne].
    + intros H Hnd Hpos. destruct (IH _ _ H Hnd Hpos) as (H1 & H2 & H3).
      split; [exact H1|]. split; [exact H2|]. intros c Hc. rewrite (H3 c Hc).
      unfold hit at 2. cbn [fst snd]. rewrite He.
      destruct (String.eqb_spec EmptyString c) as [<-|_]; [congruence|]. reflexivity.
    + destruct filter as [[filterValues filterValue]|].
      * destruct (nth_error filterValues i) as [filterRow|] eqn:En; [|discriminate].
        destruct (String.eqb (toUpperCase (firstText numberToString filterRow)) (toUpperCase filterValue))
          eqn:Ef.
        -- intros H Hnd Hpos. destruct (Hinc counts Hnd Hpos Hne) as [Hnd' Hpos'].
           destruct (IH _ _ H Hnd' Hpos') as (H1 & H2 & H3).
           split; [exact H1|]. split; [exact H2|]. intros c Hc. rewrite (H3 c Hc).
           destruct (increment_spec (firstText numberToString row) counts) as (Hi & _).
           rewrite Hi. unfold hit at 2. cbn [fst snd]. rewrite En, Ef, andb_true_r.
           destruct (String.eqb (firstText numberToString row) c); cbn [List.length]; lia.
        -- intros H Hnd Hpos. destruct (IH _ _ H Hnd Hpos) as (H1 & H2 & H3).
           split; [exact H1|]. split; [exact H2|]. intros c Hc. rewrite (H3 c Hc).
           unfold hit at 2. cbn [fst snd]. rewrite En, Ef, andb_false_r. reflexivity.
      * intros H Hnd Hpos. destruct (Hinc counts Hnd Hpos Hne) as [Hnd' Hpos'].
        destruct (IH _ _ H Hnd' Hpos') as (H1 & H2 & H3).
        split; [exact H1|]. split; [exact H2|]. intros c Hc. rewrite (H3 c Hc).
        destruct (increment_spec (firstText numberToString row) counts) as (Hi & _).
        rewrite Hi. unfold hit at 2. cbn [fst snd]. rewrite andb_true_r.
        destruct (String.eqb (firstText numberToString row) c); cbn [List.length]; lia.
Qed.

End CategoryFacts.

(** The count an entry list holds for a category. *)
Definition countFor (c : string) (r : list CategoryCount) : nat :=
  match find (fun e => String.eqb (category e) c) r with
  | Some e => count e
  | None => 0
  end.

(** Larger counts first. *)
Definition descending (a b : CategoryCount) : Prop := count b <= count a.

Lemma insertByCount_perm (x : CategoryCount) (l : list CategoryCount) :
  Permutation (x :: l) (insertByCount x l).
Proof.
  induction l as [|y l IH]; cbn [insertByCount]; [reflexivity|].
  destruct (count y <? count x); [reflexivity|].
  rewrite perm_swap. now constructor.
Qed.

Lemma insertByCount_sorted (x : CategoryCount) (l : list CategoryCount) :
  StronglySorted descending l -> StronglySorted descending (insertByCount x l).
Proof.
  induction l as [|y l IH]; cbn [insertByCount]; intros Hs.
  - constructor; constructor.
  - inversion Hs as [|y' l' Hl Hy]; subst.
    destruct (count y <? count x) eqn:E.
    + apply Nat.ltb_lt in E. constructor; [exact Hs|]. constructor.
      * unfold descending. lia.
      * eapply Forall_impl; [|exact Hy]. unfold descending. intros z Hz. lia.
    + apply Nat.ltb_ge in E. constructor; [now apply IH|].
      apply (Permutation_Forall (insertByCount_perm x l)).
      constructor; [exact E|exact Hy].
Qed.

Lemma sortByCount_spec (l : list CategoryCount) :
  Permutation l (sortByCount l) /\ StronglySorted descending (sortByCount l).
Proof.
  unfold sortByCount.
  assert (H : forall acc, StronglySorted descending acc ->
                Permutation (acc ++ l)
                  (fold_left (fun sorted x => insertByCount x sorted) l acc)
                /\ StronglySorted descending
                     (fold_left (fun sorted x => insertByCount x sorted) l acc)).
  { induction l as [|x l IH]; intros acc Hacc; cbn [fold_left].
    - rewrite app_nil_r. split; [reflexivity|exact Hacc].
    - destruct (IH (insertByCount x acc) (insertByCount_sorted x Hacc)) as [Hp Hs].
      split; [|exact Hs]. rewrite <- Hp.
      rewrite <- (insertByCount_perm x acc).
      change (x :: acc) with ([x] ++ acc).
      rewrite <- Permutation_middle. reflexivity. }
  apply (H []). constructor.
Qed.

Lemma countFor_in (r : list CategoryCount) (e : CategoryCount) :
  NoDup (map category r) -> In e r -> countFor (category e) r = count e.
Proof.
  unfold countFor. induction r as [|y r IH]; intros Hnd Hin; [contradiction|].
  cbn [map] in Hnd. inversion Hnd as [|k ks Hk Hnd']; subst. cbn [find].
  destruct Hin as [->|Hin].
  - now rewrite String.eqb_refl.
  - destruct (String.eqb_spec (category y) (category e)) as [Heq|_]; [|now apply IH].
    exfalso. apply Hk. rewrite Heq. now apply in_map.
Qed.

Lemma countFor_absent (r : list CategoryCount) (c : string) :
  ~ In c (map category r) -> countFor c r = 0.
Proof.
  unfold countFor. induction r as [|y r IH]; intros Hn; [reflexivity|].
  cbn [find]. destruct (String.eqb_spec (category y) c) as [Heq|_].
  - exfalso. apply Hn. left. exact Heq.
  - apply IH. intros Hin. apply Hn. right. exact Hin.
Qed.

Definition entryOf (kv : string * nat) : CategoryCount :=
  {| category := fst kv; count := snd kv |}.

Lemma countOf_entries (counts : list (string * nat)) (c : string) :
  countFor c (map entryOf counts) = countOf c counts.
Proof.
  unfold countFor, countOf. induction counts as [|[k v] rest IH]; [reflexivity|].
  cbn [map find entryOf category fst snd]. destruct (String.eqb k c); [reflexivity|exact IH].
Qed.

(** Sorting keeps the count of every category. *)
Lemma countFor_sorted (l : list CategoryCount) (c : string) :
  NoDup (map category l) -> countFor c (sortByCount l) = countFor c l.
Proof.
  intros Hnd. destruct (sortByCount_spec l) as [Hp _].
  assert (Hnd' : NoDup (map category (sortByCount l))).
  { eapply Permutation_NoDup; [|exact Hnd]. now apply Permutation_map. }
  destruct (in_dec string_dec c (map category l)) as [Hin|Hout].
  - apply in_map_iff in Hin. destruct Hin as (e & <- & He).
    rewrite (@countFor_in l e Hnd He).
    apply countFor_in; [exact Hnd'|]. now apply (Permutation_in _ Hp).
  - rewrite (@countFor_absent l c Hout). apply countFor_absent.
    intros Hin. apply Hout. apply in_map_iff in Hin. destruct Hin as (e & <- & He).
    apply in_map. apply (Permutation_in _ (Permutation_sym Hp)). exact He.
Qed.

Lemma entries_keys (counts : list (string * nat)) :
  map category (map entryOf counts) = map fst counts.
Proof. rewrite map_map. reflexivity. Qed.

(** A step that only reads: the document stays, and so does the empty
    queue of the request. *)
Definition reads {A} (m : Excel A) : Prop :=
  forall h, queue h = [] ->
            document (snd (m h)) = document h /\ queue (snd (m h)) = [].

Lemma reads_ret {A} (a : A) : reads (ret a).
Proof. intros h Hq. split; [reflexivity|exact Hq]. Qed.

Lemma reads_throw {A} (t : Thrown) : reads (@throw A t).
Proof. intros h Hq. split; [reflexivity|exact Hq]. Qed.

Lemma reads_sync : reads sync.
Proof.
  intros h Hq. rewrite (sync_empty h Hq). cbn [snd].
  split; [apply next_document|apply next_queue].
Qed.

Lemma reads_getRange (address : string) : reads (getRange address).
Proof.
  intros h Hq. unfold getRange. destruct (resolve address); split; auto.
Qed.

Lemma reads_bind {A B} (m : Excel A) (f : A -> Excel B) :
  reads m -> (forall a, reads (f a)) -> reads (bind m f).
Proof.
  intros Hm Hf h Hq. unfold bind. destruct (Hm h Hq) as [Hd Hq'].
  destruct (m h) as [[a|t] h1]; cbn [snd] in *.
  - destruct (Hf a h1 Hq') as [Hd' Hq'']. split; [congruence|exact Hq''].
  - split; assumption.
Qed.

Lemma reads_tryCatch {A} (m : Excel A) (handler : Thrown -> Excel A) :
  reads m -> (forall t, reads (handler t)) -> reads (tryCatch m handler).
Proof.
  intros Hm Hf h Hq. unfold tryCatch. destruct (Hm h Hq) as [Hd Hq'].
  destruct (m h) as [[a|t] h1]; cbn [snd] in *.
  - split; assumption.
  - destruct (Hf t h1 Hq') as [Hd' Hq'']. split; [congruence|exact Hq''].
Qed.

Lemma reads_pickSheet (otherUsedRange : string -> option Rect) (sheetName : option string) :
  reads (pickSheet otherUsedRange sheetName).
Proof.
  destruct sheetName as [[|c n]|]; cbn [pickSheet];
    try (intros h Hq; split; [reflexivity|exact Hq]).
  apply reads_bind; [apply reads_sync|]. intros _ h Hq.
  destruct (String.eqb (String c n) (activeName h)); [split; [reflexivity|exact Hq]|].
  destruct (otherSheets h (String c n)); split; auto.
Qed.

Lemma reads_getUniqueCountsByCategory
    (otherUsedRange : string -> option Rect) (toUpperCase : string -> string)
    (categoryColumn : string) (filterColumn filterValue sheetName : option string) (h : Host) :
  document (snd (getUniqueCountsByCategory numberToString otherUsedRange toUpperCase categoryColumn
                   filterColumn filterValue sheetName h))
  = document h.
Proof.
  assert (H : reads (fun h0 =>
                getUniqueCountsByCategory numberToString otherUsedRange toUpperCase categoryColumn
                  filterColumn filterValue sheetName h0)).
  { unfold getUniqueCountsByCategory. apply reads_tryCatch; [|intros; apply reads_throw].
    intros h0 Hq. unfold run.
    assert (Hbody : forall m : Excel (list CategoryCount), reads m ->
              document (snd (m (withQueue h0 []))) = document h0
              /\ queue (snd (m (withQueue h0 []))) = []).
    { intros m Hm. destruct (Hm (withQueue h0 []) eq_refl) as [Hd Hq']. split; auto. }
    apply Hbody.
    apply reads_bind; [apply reads_pickSheet|]. intros ws.
    apply reads_bind; [apply reads_sync|]. intros _.
    apply reads_bind; [apply reads_getRange|]. intros categoryRange.
    apply reads_bind.
    - destruct (filterOf filterColumn filterValue) as [[column v]|]; [|apply reads_ret].
      apply reads_bind; [apply reads_getRange|]. intros; apply reads_ret.
    - intros filterRange. apply reads_bind; [apply reads_sync|]. intros _.
      match goal with |- reads (match ?t with _ => _ end) => destruct t end;
        [apply reads_ret|apply reads_throw]. }
  destruct (H (withQueue h []) eq_refl) as [Hd _].
  transitivity (document (withQueue h [])); [|reflexivity].
  rewrite <- Hd. unfold getUniqueCountsByCategory, tryCatch, run.
  reflexivity.
Qed.

(** X20.  [getUniqueCountsByCategory] either throws its service error or
    returns entries whose categories are pairwise different and not empty,
    whose counts are at least 1, and which go by decreasing count; either
    way it leaves the workbook as it was. *)
Theorem getUniqueCountsByCategory_shape :
  forall (otherUsedRange : string -> option Rect) (toUpperCase : string -> string)
         (categoryColumn : string) (filterColumn filterValue sheetName : option string)
         (h : Host),
    match fst (getUniqueCountsByCategory numberToString otherUsedRange toUpperCase categoryColumn
                 filterColumn filterValue sheetName h) with
    | Ok r =>
        NoDup (map category r)
        /\ StronglySorted (fun a b => count b <= count a) r
        /\ Forall (fun e => 1 <= count e /\ category e <> EmptyString) r
    | Throw t => t = ErrorObj "No se pudieron obtener las categorías únicas"
    end
    /\ document (snd (getUniqueCountsByCategory numberToString otherUsedRange toUpperCase categoryColumn
                        filterColumn filterValue sheetName h))
       = document h.
Proof.
  intros otherUsedRange toUpperCase categoryColumn filterColumn filterValue sheetName h.
  split; [|apply reads_getUniqueCountsByCategory].
  unfold getUniqueCountsByCategory, tryCatch.
  match goal with |- context [run ?body h] => destruct (run body h) as [[r|t] h'] eqn:E end;
    cbn [fst throw]; [|reflexivity].
  unfold run, bind in E.
  destruct (pickSheet otherUsedRange sheetName (withQueue h [])) as [[ws|t] h1];
    [|discriminate].
  destruct (sync h1) as [[u|t] h2]; [|discriminate].
  destruct (getRange _ h2) as [[categoryRange|t] h3]; [|discriminate].
  match type of E with
  | context [match ?m h3 with _ => _ end] => destruct (m h3) as [[filterRange|t] h4]
  end; [|discriminate].
  destruct (sync h4) as [[u'|t] h5]; [|discriminate].
  match type of E with
  | context [tally ?pr ?up ?cv ?i ?flt ?acc] => destruct (tally pr up cv i flt acc) as [counts|t] eqn:Et
  end; [|discriminate].
  unfold ret in E. inversion E; subst. clear E.
  apply tally_spec in Et; [|constructor|constructor].
  destruct Et as (Hnd & Hpos & _).
  fold entryOf. destruct (sortByCount_spec (map entryOf counts)) as [Hp Hs].
  split; [|split].
  - eapply Permutation_NoDup; [apply Permutation_map; exact Hp|].
    now rewrite entries_keys.
  - exact Hs.
  - apply (Permutation_Forall Hp). apply Forall_map.
    eapply Forall_impl; [|exact Hpos]. intros kv H. exact H.
Qed.

Section CountFacts.

Variable otherUsedRange : string -> option Rect.
Variable toUpperCase : string -> string.

(** Rows 2 to [totalRows] of the column [k]. *)
Definition dataRegion (k totalRows : nat) : Rect :=
  {| top := 2; left := k; rowCount := totalRows - 1; columnCount := 1 |}.

(** The row counts for the category [c]: its cell in the category column
    holds the text [c] once trimmed, and its cell in the filter column, if
    there is a filter, holds the filter value up to case. *)
Definition counted (h : Host) (k : nat) (flt : option (nat * string)) (c : string)
    (row : nat) : bool :=
  String.eqb (trim (textOf numberToString (cells h row k))) c
  && match flt with
     | None => true
     | Some (kf, v) =>
         String.eqb (toUpperCase (trim (textOf numberToString (cells h row kf)))) (toUpperCase v)
     end.

Lemma readRect_row (c : Sheet) (k totalRows i : nat) :
  i < totalRows - 1 ->
  nth_error (readRect c (dataRegion k totalRows)) i = Some [c (2 + i) k].
Proof.
  intros Hi. unfold readRect, dataRegion. cbn [top left rowCount columnCount seq map].
  rewrite nth_error_map, nth_error_seq.
  replace (i <? totalRows - 1) with true by (symmetry; apply Nat.ltb_lt; lia).
  cbn [option_map Nat.add]. now replace (k + 0) with k by lia.
Qed.

Lemma tally_total (categoryValues : Matrix) (i : nat) (flt : option (Matrix * string))
    (counts : list (string * nat)) :
  match flt with
  | Some (filterValues, _) => i + List.length categoryValues <= List.length filterValues
  | None => True
  end ->
  exists counts', tally numberToString toUpperCase categoryValues i flt counts = Ok counts'.
Proof.
  revert i counts. induction categoryValues as [|row rest IH]; intros i counts H;
    cbn [tally]; [eauto|].
  assert (H' : match flt with
               | Some (filterValues, _) => S i + List.length rest <= List.length filterValues
               | None => True
               end).
  { destruct flt as [[fv v]|]; [|exact I]. cbn [List.length] in H. lia. }
  destruct (String.eqb (firstText numberToString row) EmptyString); [now apply IH|].
  destruct flt as [[fv v]|]; [|now apply IH].
  destruct (nth_error fv i) as [filterRow|] eqn:En.
  - destruct (String.eqb _ _); now apply IH.
  - apply nth_error_None in En. cbn [List.length] in H. lia.
Qed.

Lemma hits_rows (h : Host) (k totalRows : nat) (flt : option (nat * string)) (c : string)
    (b n : nat) :
  b + n <= totalRows - 1 ->
  List.length
    (List.filter
       (hit toUpperCase
          (match flt with
           | Some (kf, v) => Some (readRect (cells h) (dataRegion kf totalRows), v)
           | None => None
           end) c)
       (combine (map (fun i => [cells h (2 + i) k]) (seq b n)) (seq b n)))
  = List.length (List.filter (counted h k flt c) (seq (2 + b) n)).
Proof.
  revert b. induction n as [|n IH]; intros b Hb; [reflexivity|].
  cbn [seq map combine List.filter].
  replace (S (2 + b)) with (2 + S b) by lia.
  assert (Hhit : hit toUpperCase
                   (match flt with
                    | Some (kf, v) => Some (readRect (cells h) (dataRegion kf totalRows), v)
                    | None => None
                    end) c ([cells h (2 + b) k], b)
                 = counted h k flt c (2 + b)).
  { unfold hit, counted, firstText. cbn [fst snd hd_error].
    destruct flt as [[kf v]|]; [|reflexivity].
    rewrite readRect_row by lia. reflexivity. }
  rewrite Hhit. destruct (counted h k flt c (2 + b)); cbn [List.length];
    rewrite IH by lia; reflexivity.
Qed.

Lemma numberToColumn_cons (k : nat) :
  1 <= k -> exists c s, numberToColumn k = String c s.
Proof.
  intros Hk. destruct (AddressFacts.numberToColumn_spec k) as (_ & _ & _ & Hne).
  destruct (numberToColumn k) as [|c s]; [exfalso; now apply Hne|eauto].
Qed.

(** X21.  On the active worksheet, with a used range of at least two rows
    and no failing synchronisation, the count [getUniqueCountsByCategory]
    returns for a category is the number of rows, from row 2 to the row
    count of the used range, whose cell in the category column holds that
    text once trimmed and whose cell in the filter column, if a filter is
    given, holds the filter value up to case; a category with no such row
    has no entry. *)
Theorem getUniqueCountsByCategory_counts :
  forall (k : nat) (flt : option (nat * string)) (h : Host) (used : Rect),
    1 <= k ->
    match flt with Some (kf, v) => 1 <= kf /\ v <> EmptyString | None => True end ->
    usedRange h = Some used ->
    2 <= rowCount used ->
    nextFault h = None ->
    nextFault (next h) = None ->
    exists r h',
      getUniqueCountsByCategory numberToString otherUsedRange toUpperCase (numberToColumn k)
        (option_map (fun f => numberToColumn (fst f)) flt) (option_map snd flt) None h
      = (Ok r, h')
      /\ forall c, c <> EmptyString ->
           countFor c r
           = List.length (List.filter (counted h k flt c) (seq 2 (rowCount used - 1))).
Proof.
  intros k flt h used Hk Hflt Hu Hrows Hf1 Hf2.
  set (n := rowCount used) in *.
  set (filter' := match flt with
                  | Some (kf, v) => Some (readRect (cells h) (dataRegion kf n), v)
                  | None => None
                  end).
  destruct (@tally_total (readRect (cells h) (dataRegion k n)) 0 filter' []) as [counts Et].
  { unfold filter'. destruct flt as [[kf v]|]; [|exact I].
    unfold readRect, dataRegion. cbn [rowCount]. rewrite !length_map, !length_seq. lia. }
  assert (E : getUniqueCountsByCategory numberToString otherUsedRange toUpperCase (numberToColumn k)
                (option_map (fun f => numberToColumn (fst f)) flt) (option_map snd flt) None h
              = (Ok (sortByCount (map entryOf counts)), next (next h))).
  { unfold getUniqueCountsByCategory, tryCatch, run. unfold bind at 1.
    cbn [pickSheet]. unfold bind at 1.
    rewrite sync_empty by reflexivity.
    change (nextFault (withQueue h [])) with (nextFault h).
    change (next (withQueue h [])) with (next h). rewrite Hf1.
    cbn [snd fst cells usedRange withQueue]. rewrite Hu. fold n.
    unfold bind at 1. unfold getRange at 1. rewrite resolve_dataCells by assumption.
    fold (dataRegion k n). cbn [ret].
    destruct flt as [[kf v]|]; cbn [option_map fst snd].
    - destruct Hflt as [Hkf Hv].
      destruct (numberToColumn_cons Hkf) as (c1 & s1 & Ec).
      destruct v as [|c2 s2]; [congruence|].
      unfold filterOf. rewrite Ec. rewrite <- Ec.
      unfold bind at 1. unfold bind at 1. unfold getRange at 1.
      rewrite resolve_dataCells by assumption. fold (dataRegion kf n). cbn [ret].
      unfold bind at 1. rewrite sync_empty by reflexivity. rewrite Hf2.
      unfold filter' in Et. rewrite Et. reflexivity.
    - unfold filterOf. unfold bind at 1. cbn [ret].
      unfold bind at 1. rewrite sync_empty by reflexivity. rewrite Hf2.
      unfold filter' in Et. rewrite Et. reflexivity. }
  eexists _, _. split; [exact E|]. intros c Hc.
  apply tally_spec in Et; [|constructor|constructor].
  destruct Et as (Hnd & _ & Hcount).
  rewrite countFor_sorted by (now rewrite entries_keys).
  rewrite countOf_entries, (Hcount c Hc). cbn [countOf find Nat.add].
  unfold readRect at 1 2. unfold dataRegion at 1 2 3.
  cbn [top left rowCount columnCount seq map]. rewrite length_map, length_seq.
  change (rowCount (dataRegion k n)) with (n - 1).
  change (seq 2 (n - 1)) with (seq (2 + 0) (n - 1)).
  rewrite <- (@hits_rows h k n flt c 0 (n - 1)) by lia.
  unfold filter'. do 3 f_equal.
  apply map_ext. intros i. now replace (k + 0) with k by lia.
Qed.

End CountFacts.

End Printing.

Lemma getUniqueValues_of_column_witness :
  exists r h',
    getUniqueValues ColumnQueries.decimal (numberToColumn 3) 50 (Samples.dataInCtoE []) = (Ok r, h')
    /\ (forall v, In v (values r) ->
          exists row, 2 <= row <= 5
                      /\ isNonEmpty (cells (Samples.dataInCtoE []) row 3) = true
                      /\ v = stringOfValue ColumnQueries.decimal (cells (Samples.dataInCtoE []) row 3))
    /\ (hasMore r = false ->
        forall row, 2 <= row <= 5 ->
                    isNonEmpty (cells (Samples.dataInCtoE []) row 3) = true ->
                    In (stringOfValue ColumnQueries.decimal (cells (Samples.dataInCtoE []) row 3)) (values r)).
Proof.
  apply (@getUniqueValues_of_column ColumnQueries.decimal 3 50 (Samples.dataInCtoE [])
           (Samples.region 1 3 5 3));
    [lia|reflexivity|cbn; lia|reflexivity|reflexivity].
Defined.

Lemma getUniqueCountsByCategory_counts_witness :
  exists r h',
    getUniqueCountsByCategory ColumnQueries.decimal (fun _ => None) (fun s => s) (numberToColumn 3) None None None
      (Samples.dataInCtoE [])
    = (Ok r, h')
    /\ forall c, c <> EmptyString ->
         countFor c r
         = List.length
             (List.filter (counted ColumnQueries.decimal (fun s => s) (Samples.dataInCtoE []) 3 None c) (seq 2 4)).
Proof.
  apply (@getUniqueCountsByCategory_counts ColumnQueries.decimal (fun _ => None) (fun s => s) 3 None
           (Samples.dataInCtoE []) (Samples.region 1 3 5 3));
    [lia|exact I|reflexivity|cbn; lia|reflexivity|reflexivity].
Defined.

End ColumnQueriesFacts.

(** ** Patterns with alternatives *)

Module PatternFacts.

Import Pattern TextFacts.


Section Soundness.

Variable R : Type.



End Soundness.



Lemma skip_app (w rest : string) : skip (String.length w) (w ++ rest) = rest.
Proof. induction w as [|c w IH]; simpl; [destruct rest; reflexivity|exact IH]. Qed.

Lemma prefix_skip (n : nat) (s : string) :
  (String.substring 0 n s ++ skip n s)%string = s.
Proof.
  revert n. induction s as [|c s IH]; intros [|n]; simpl; try reflexivity.
  now rewrite IH.
Qed.


(** Replacing every match by itself changes nothing. *)
Lemma replaceAll_same (fuel : nat) (r : pat) (s : string) :
  replaceAll fuel r (fun m => m) s = s.
Proof.
  revert s. induction fuel as [|fuel IH]; intros s; cbn [replaceAll]; [reflexivity|].
  assert (Hcopy : match s with
                  | EmptyString => EmptyString
                  | String c s' => String c (replaceAll fuel r (fun m => m) s')
                  end = s)
    by (destruct s; [reflexivity|now rewrite IH]).
  destruct (matchAt r s) as [[|n]|]; [exact Hcopy| |exact Hcopy].
  rewrite IH. apply prefix_skip.
Qed.

End PatternFacts.

(** ** References of the formulas of the calculation sheet *)

Module FormulaReferencesFacts.

Import Pattern PatternFacts Text TextFacts FormulaReferences.

Definition noQuote (s : string) : bool :=
  AddressFacts.allSat (fun c => negb (Ascii.eqb c dquote)) s.

(** The character a quote would see before it, after [a]. *)
Fixpoint lastChar (prev : option ascii) (a : string) : option ascii :=
  match a with
  | EmptyString => prev
  | String c a' => lastChar (Some c) a'
  end.

Definition free (p : option ascii) : bool :=
  match p with
  | Some c => negb (Ascii.eqb c backslash)
  | None => true
  end.

(** The text does not end with a backslash. *)
Definition noFinalBackslash (s : string) : bool := free (lastChar None s).

Definition quoted (s : string) : string :=
  (String dquote s ++ String dquote EmptyString)%string.

Definition part (s : string) : list string :=
  match s with
  | EmptyString => []
  | _ => [s]
  end.

Lemma splitQuotes_parts (formula : string) :
  forall prev parts current inQuotes,
    splitQuotes prev formula parts current inQuotes
    = parts ++ splitQuotes prev formula [] current inQuotes.
Proof.
  induction formula as [|c rest IH]; intros prev parts current inQuotes; cbn [splitQuotes].
  - destruct current; [now rewrite app_nil_r|reflexivity].
  - destruct (Ascii.eqb c dquote && _).
    + destruct inQuotes.
      * rewrite IH. rewrite (IH _ ([] ++ _)). now rewrite <- app_assoc.
      * destruct current; [apply IH|].
        rewrite IH. rewrite (IH _ ([] ++ _)). now rewrite <- app_assoc.
    + apply IH.
Qed.

Lemma lastChar_some (a : string) (p q : option ascii) :
  a <> EmptyString -> lastChar p a = lastChar q a.
Proof. destruct a; [congruence|reflexivity]. Qed.

(** Text without a quote is collected in [current]. *)
Lemma splitQuotes_plain (a : string) :
  forall prev current inQuotes rest,
    noQuote a = true ->
    splitQuotes prev (a ++ rest) [] current inQuotes
    = splitQuotes (lastChar prev a) rest [] (current ++ a) inQuotes.
Proof.
  induction a as [|c a IH]; intros prev current inQuotes rest Ha.
  - cbn [append lastChar]. now rewrite app_empty.
  - unfold noQuote in Ha. cbn [AddressFacts.allSat] in Ha. apply andb_true_iff in Ha.
    destruct Ha as [Hc Ha]. apply negb_true_iff in Hc.
    cbn [append splitQuotes lastChar]. rewrite Hc. cbn [andb].
    rewrite IH by exact Ha. f_equal.
    rewrite AddressFacts.append_assoc. reflexivity.
Qed.

Lemma splitQuotes_end (current : string) (prev : option ascii) (inQuotes : bool) :
  splitQuotes prev EmptyString [] current inQuotes = part current.
Proof. destruct current; reflexivity. Qed.

(** A quote that is not escaped, outside a literal: the text before it is
    a part, and a literal begins. *)
Lemma splitQuotes_open (prev : option ascii) (current rest : string) :
  free prev = true ->
  splitQuotes prev (String dquote rest) [] current false
  = part current ++ splitQuotes (Some dquote) rest [] EmptyString true.
Proof.
  intros Hp. cbn [splitQuotes]. rewrite Ascii.eqb_refl. cbn [andb].
  replace (match prev with None => true | Some p => negb (Ascii.eqb p backslash) end)
    with true by (symmetry; exact Hp).
  cbn [negb]. destruct current; [reflexivity|].
  cbn [part app]. now rewrite splitQuotes_parts.
Qed.

(** A quote that is not escaped, inside a literal: the literal is a part,
    with its quotes. *)
Lemma splitQuotes_close (prev : option ascii) (current rest : string) :
  free prev = true ->
  splitQuotes prev (String dquote rest) [] current true
  = quoted current :: splitQuotes (Some dquote) rest [] EmptyString false.
Proof.
  intros Hp. cbn [splitQuotes]. rewrite Ascii.eqb_refl. cbn [andb].
  replace (match prev with None => true | Some p => negb (Ascii.eqb p backslash) end)
    with true by (symmetry; exact Hp).
  cbn [negb app]. now rewrite splitQuotes_parts.
Qed.

(** Only a backslash before the first character makes a difference. *)
Lemma splitQuotes_prev (p : option ascii) (formula current : string) (inQuotes : bool) :
  free p = true ->
  splitQuotes p formula [] current inQuotes
  = splitQuotes None formula [] current inQuotes.
Proof.
  intros Hp. destruct formula as [|c rest]; [reflexivity|]. cbn [splitQuotes].
  replace (match p with None => true | Some p0 => negb (Ascii.eqb p0 backslash) end)
    with true by (symmetry; exact Hp).
  reflexivity.
Qed.

Lemma free_lastChar (p : option ascii) (s : string) :
  free p = true -> noFinalBackslash s = true -> free (lastChar p s) = true.
Proof.
  intros Hp Hs. destruct s as [|c s]; [exact Hp|]. exact Hs.
Qed.

(** The parts of a formula that holds a literal. *)
Lemma splitQuotes_literal (a s b : string) :
  noQuote a = true -> noQuote s = true ->
  noFinalBackslash a = true -> noFinalBackslash s = true ->
  splitQuotes None (a ++ String dquote (s ++ String dquote b)) [] EmptyString false
  = part a ++ quoted s :: splitQuotes None b [] EmptyString false.
Proof.
  intros Ha Hs Hfa Hfs.
  rewrite splitQuotes_plain by exact Ha. cbn [append].
  rewrite splitQuotes_open by exact Hfa.
  rewrite splitQuotes_plain by exact Hs. cbn [append].
  rewrite splitQuotes_close by (apply free_lastChar; [reflexivity|exact Hfs]).
  rewrite splitQuotes_prev by reflexivity. reflexivity.
Qed.

Lemma join_app (l1 l2 : list string) :
  join EmptyString (l1 ++ l2) = (join EmptyString l1 ++ join EmptyString l2)%string.
Proof.
  induction l1 as [|x l1 IH]; [reflexivity|].
  assert (Hcons : forall l, join EmptyString (x :: l) = (x ++ join EmptyString l)%string).
  { intros [|y l]; [cbn; now rewrite app_empty|reflexivity]. }
  cbn [app]. rewrite !Hcons, IH. now rewrite AddressFacts.append_assoc.
Qed.

Lemma join_cons (x : string) (l : list string) :
  join EmptyString (x :: l) = (x ++ join EmptyString l)%string.
Proof. destruct l; [cbn; now rewrite app_empty|reflexivity]. Qed.

Lemma adjust_plain (a sheetName : string) :
  noQuote a = true ->
  adjustFormulaReferences a sheetName
  = join EmptyString (map (processPart (escapedSheetName sheetName)) (part a)).
Proof.
  intros Ha. unfold adjustFormulaReferences. cbn zeta.
  rewrite <- (app_empty a) at 1. rewrite splitQuotes_plain by exact Ha.
  now rewrite splitQuotes_end.
Qed.

(** X22.  A string literal of the formula is never rewritten, and the
    rewriting goes on after it as at the start: for text [a] and [s] without
    a double quote and without a backslash at their end, the formula
    [a"s"b] becomes the rewritten [a], the literal ["s"] as it is, and the
    rewritten [b]. *)
Theorem adjustFormulaReferences_keeps_literals :
  forall a s b sheetName : string,
    noQuote a = true -> noQuote s = true ->
    noFinalBackslash a = true -> noFinalBackslash s = true ->
    adjustFormulaReferences (a ++ String dquote (s ++ String dquote b)) sheetName
    = (adjustFormulaReferences a sheetName
       ++ String dquote (s ++ String dquote (adjustFormulaReferences b sheetName)))%string.
Proof.
  intros a s b sheetName Ha Hs Hfa Hfs.
  rewrite (adjust_plain a sheetName Ha).
  unfold adjustFormulaReferences at 1. cbn zeta.
  rewrite splitQuotes_literal by assumption.
  rewrite map_app, join_app. cbn [map]. rewrite join_cons.
  f_equal. unfold adjustFormulaReferences. cbn zeta.
  assert (Hq : processPart (escapedSheetName sheetName) (quoted s) = quoted s).
  { unfold processPart, quoted, startsWith. cbn [append prefix].
    destruct (ascii_dec dquote dquote); [|congruence].
    generalize (s ++ String dquote EmptyString)%string. intros [|x t]; reflexivity. }
  rewrite Hq. unfold quoted. cbn [append]. f_equal.
  now rewrite AddressFacts.append_assoc.
Qed.

Lemma adjustFormulaReferences_keeps_literals_witness :
  adjustFormulaReferences
    ("=COUNTIF(I2:I99379," ++ String dquote ("BOGOTA A1" ++ String dquote ")+B7")) "Hoja1"
  = (adjustFormulaReferences "=COUNTIF(I2:I99379," "Hoja1"
     ++ String dquote ("BOGOTA A1" ++ String dquote (adjustFormulaReferences ")+B7" "Hoja1")))%string.
Proof. apply adjustFormulaReferences_keeps_literals; reflexivity. Defined.

(** X23.  A formula without a string literal that holds an exclamation
    mark anywhere is returned as it is: no reference of it is qualified, also
    not the ones that have no sheet name yet. *)
Theorem adjustFormulaReferences_skips_qualified :
  forall formula sheetName : string,
    noQuote formula = true ->
    includes formula "!" = true ->
    adjustFormulaReferences formula sheetName = formula.
Proof.
  intros formula sheetName Hq Hi. rewrite (adjust_plain formula sheetName Hq).
  destruct formula as [|c rest]; [reflexivity|]. cbn [part map join].
  unfold processPart.
  assert (Hs : startsWith (String c rest) (String dquote EmptyString) = false).
  { unfold noQuote in Hq. cbn [AddressFacts.allSat] in Hq. apply andb_true_iff in Hq.
    destruct Hq as [Hc _]. apply negb_true_iff in Hc. apply Ascii.eqb_neq in Hc.
    unfold startsWith. cbn [prefix]. destruct (ascii_dec dquote c); [congruence|reflexivity]. }
  rewrite Hs, Hi. unfold replace. apply replaceAll_same.
Qed.

Lemma adjustFormulaReferences_skips_qualified_witness :
  adjustFormulaReferences "=SUM(Datos!A1:A9)+B2" "Hoja1" = "=SUM(Datos!A1:A9)+B2".
Proof. apply adjustFormulaReferences_skips_qualified; reflexivity. Defined.

(** The example of the source: the range is qualified and the literal is
    kept; a name that needs no apostrophes gets none. *)
Example adjustFormulaReferences_countif :
  adjustFormulaReferences (JsonText.q "=COUNTIF(I2:I99379,'BOGOTA')") "Hoja1"
  = JsonText.q "=COUNTIF(Hoja1!I2:I99379,'BOGOTA')".
Proof. vm_compute. reflexivity. Qed.

Example adjustFormulaReferences_blank_in_name :
  adjustFormulaReferences "=SUM($A$1:B2)" "Mis Datos" = "=SUM('Mis Datos'!$A$1:B2)".
Proof. vm_compute. reflexivity. Qed.

(** A function name that ends in digits has the form of a reference and is
    qualified like one. *)
Example adjustFormulaReferences_function_name :
  adjustFormulaReferences "=LOG10(A1)" "Hoja1" = "=Hoja1!LOG10(Hoja1!A1)".
Proof. vm_compute. reflexivity. Qed.

(** A quote that is never closed is dropped, and the text after it is
    rewritten. *)
Example adjustFormulaReferences_open_quote :
  adjustFormulaReferences (JsonText.q "=A1&'B2") "Hoja1" = "=Hoja1!A1&Hoja1!B2".
Proof. vm_compute. reflexivity. Qed.

End FormulaReferencesFacts.

(** ** URLs in a message *)

Module UrlsFacts.

Import Pattern PatternFacts TextFacts Urls.











(** The match is greedy and leftmost: the first URL, up to the blank. *)
Example extractUrlFromMessage_first :
  extractUrlFromMessage "ver http://a.org/x y https://b.org" = Some "http://a.org/x"
  /\ extractUrlFromMessage "sin enlaces: http:// solo" = None.
Proof. split; vm_compute; reflexivity. Qed.

End UrlsFacts.

(** ** Direct reads and writes *)

Module DirectAccessFacts.

Import Excel ExcelService GuardFacts ColumnLetters DirectAccess.

Section Facts.

Variable addressOf : Rect -> string.

Lemma getUsedRangeInfo_spec (h : Host) :
  getUsedRangeInfo addressOf h
  = (Ok match nextFault h, usedRange h with
        | None, Some used =>
            Some {| address := withoutSheet (addressOf used);
                    lastRow := rowCount used;
                    lastColumn := numberToColumn (columnCount used) |}
        | _, _ => None
        end, next h).
Proof.
  unfold getUsedRangeInfo, tryCatch, run. unfold bind at 1.
  rewrite sync_empty by reflexivity.
  change (nextFault (withQueue h [])) with (nextFault h).
  change (next (withQueue h [])) with (next h).
  destruct (nextFault h); [reflexivity|].
  unfold bind, getUsedRangeOrNullObject. change (usedRange (next h)) with (usedRange h).
  destruct (usedRange h); reflexivity.
Qed.

End Facts.

(** X25.  [getUsedRangeInfo] never throws and changes nothing; it answers
    [null] for a blank sheet or a failed synchronisation.  Otherwise
    [lastRow] and [lastColumn] are the row count and the letters of the
    column count of the used range: they are its last row and its last column
    exactly when the used range begins in row 1 and in column A. *)
Theorem getUsedRangeInfo_counts_from_A1 :
  forall (addressOf : Rect -> string) (h : Host),
    exists r h',
      getUsedRangeInfo addressOf h = (Ok r, h')
      /\ document h' = document h
      /\ (usedRange h = None \/ nextFault h <> None -> r = None)
      /\ forall used,
           usedRange h = Some used -> nextFault h = None ->
           1 <= top used -> 1 <= left used ->
           1 <= rowCount used -> 1 <= columnCount used ->
           exists info,
             r = Some info
             /\ (lastRow info = top used + rowCount used - 1 <-> top used = 1)
             /\ (columnLetterToNumber (lastColumn info)
                 = Z.of_nat (left used + columnCount used - 1) <-> left used = 1).
Proof.
  intros addressOf h. rewrite getUsedRangeInfo_spec.
  eexists _, _. split; [reflexivity|]. split; [reflexivity|]. split.
  - intros [Hu|Hf].
    + rewrite Hu. destruct (nextFault h); reflexivity.
    + destruct (nextFault h); [reflexivity|congruence].
  - intros used Hu Hf Ht Hl Hr Hc. rewrite Hu, Hf.
    eexists. split; [reflexivity|]. cbn [lastRow lastColumn].
    rewrite ColumnLettersFacts.numberToColumn_decode. split; split; intros; lia.
Qed.

(** On a sheet whose data fills C1:E5 the answer is 5 rows and column C,
    though the data ends in column E. *)
Example getUsedRangeInfo_data_in_C_to_E :
  option_map (fun info => (lastRow info, lastColumn info))
    (match fst (getUsedRangeInfo (fun _ => "Hoja1!C1:E5") (Samples.dataInCtoE [])) with
     | Ok r => r
     | Throw _ => None
     end)
  = Some (5, "C").
Proof. vm_compute. reflexivity. Qed.

(** X26.  [writeToRange] has no collision guard and writes all or nothing.
    When the address names a region, the synchronisation does not fail and the
    values have the shape of the region, the region is assigned the values,
    whatever it held, and nothing else is written.  In every other case the
    call throws the service error that names the address and the workbook is
    as it was. *)
Theorem writeToRange_all_or_nothing :
  forall (addressOf : Rect -> string) (target : string) (values : Matrix) (h : Host),
    (exists region h',
        resolve target = Some region
        /\ nextFault h = None
        /\ hasShape region values = true
        /\ writeToRange addressOf target values h = (Ok (addressOf region), h')
        /\ cells h' = setValues (cells h) region values
        /\ written h' = written h ++ [region])
    \/ (exists h',
          (resolve target = None
           \/ nextFault h <> None
           \/ exists region, resolve target = Some region
                             /\ hasShape region values = false)
          /\ writeToRange addressOf target values h
             = (Throw (ErrorObj ("Error al escribir en el rango " ++ target)%string), h')
          /\ document h' = document h).
Proof.
  intros addressOf target values h.
  unfold writeToRange, tryCatch, run, getRange.
  destruct (resolve target) as [region|] eqn:Er.
  2:{ right. eexists. split; [left; reflexivity|]. split; reflexivity. }
  unfold bind, ret, enqueue, throw.
  change (withQueue (withQueue h []) (queue (withQueue h []) ++ [SetValues region values]))
    with (withQueue h [SetValues region values]).
  rewrite ExecutorFacts.sync_one.
  destruct (nextFault h) as [t|] eqn:Ef.
  { right. eexists. split; [right; left; discriminate|]. split; reflexivity. }
  cbn [applyCommand]. destruct (hasShape region values) eqn:Es.
  - left. exists region. eexists. split; [reflexivity|]. split; [reflexivity|].
    split; [exact Es|]. split; [reflexivity|]. split; reflexivity.
  - right. eexists. split; [right; right; exists region; split; [reflexivity|exact Es]|].
    split; reflexivity.
Qed.

End DirectAccessFacts.
